(** * VOUCH backend: rule engine, proof generator, Merkle batching, /api/prove

    A shallow embedding of the TypeScript sources

    - the rule engine ([validateConditions], [evaluateRule]),
    - [src/services/proof-generator.ts] ([buildProofPayload], [hashPayload],
      [signProof], [encrypt], [decrypt], [generateProof]),
    - the batch job ([computeMerkleRoot]),
    - the pricing tiers ([TIERS]), the helper [transaction] of the database
      module, and the route [src/routes/prove.ts],

    followed by the vocabulary of the specification and by the properties
    the specification states about the code.

    Conventions.  A JavaScript string is a [string]: the bytes of its UTF-8
    form; lengths and positions are counted in UTF-16 code units where the
    code counts them ([Js.length], [Js.slice]).  The two surrogates of a pair
    are the four bytes of their character; a lone surrogate is written as
    the three bytes UTF-8 would give its code point, and
    [Js.toWellFormed] gives the text that Node's UTF-8 writers encode in
    the place of such a string.  A JavaScript number is an element of an abstract type [number]
    (class [NumberOps]); the algorithms the language supplies for it
    (comparison, printing, parsing) are the fields of that class.  The
    cryptographic primitives of the libraries the code calls are the fields
    of the class [Crypto].  What a call draws from its environment (the
    clock, random bytes, a fresh row identifier) is an argument of its
    model. *)

From Equations Require Import Equations.
From Equations.Prop Require Import Logic.
From Stdlib Require Import List String Ascii ZArith NArith QArith Bool Lia FinFun.
From Stdlib Require Import DecimalString HexadecimalString.
From Stdlib.Strings Require Import Byte.
Import ListNotations.

#[local] Set Warnings "-register-all".
#[local] Close Scope Q_scope.
#[local] Open Scope list_scope.
#[local] Open Scope string_scope.

(* ===================================================================== *)
(** * Part I.  The program                                                *)
(* ===================================================================== *)

(** ** Calls that may throw *)

(** A call either returns or throws. *)
Inductive Result (A : Type) : Type :=
| Ok (a : A)
| Throw (message : string).
Arguments Ok {A} a.
Arguments Throw {A} message.

Definition bind {A B : Type} (r : Result A) (k : A -> Result B) : Result B :=
  match r with
  | Ok a => k a
  | Throw m => Throw m
  end.

Notation "x <- r ;; k" := (bind r (fun x => k))
  (at level 61, r at next level, right associativity).

Definition of_option {A : Type} (message : string) (o : option A) : Result A :=
  match o with
  | Some a => Ok a
  | None => Throw message
  end.

(** ** The JavaScript values the code handles *)

(** The Number type with the abstract operations of ECMA-262 that the
    sources reach through [===], [<], [String(..)], [Number(..)] and
    [JSON.stringify]. *)
Class NumberOps : Type := {
  number : Type;
  num_of_Z : Z -> number;
  (** [Number::equal]: IEEE equality, false as soon as one side is NaN. *)
  num_equal : number -> number -> bool;
  (** [Number::lessThan]: [None] stands for the result [undefined], which
      is what a comparison with NaN yields. *)
  num_lessThan : number -> number -> option bool;
  num_isNaN : number -> bool;
  num_isFinite : number -> bool;
  (** [Number::toString] in radix 10. *)
  num_toString : number -> string;
  (** [StringToNumber], the conversion behind [Number("...")]. *)
  StringToNumber : string -> number;
}.

Module Js.
Section Values.
Context {N : NumberOps}.

(** What [JSON.parse] produces, plus [JNative]: a member every plain object
    inherits from [Object.prototype], which a property read such as
    [actionData[cond.field]] returns when the object has no own property of
    that name. *)
Inductive JsValue : Type :=
| JNull
| JBool (b : bool)
| JNum (n : number)
| JStr (s : string)
| JArr (items : list JsValue)
| JObj (members : list (string * JsValue))
| JNative (name : string).

(** The own properties of a plain object, in the order in which the object
    enumerates them; a name occurs once. *)
Definition JsObject : Type := list (string * JsValue).

Fixpoint assoc {A : Type} (k : string) (o : list (string * A)) : option A :=
  match o with
  | [] => None
  | (k', v) :: rest => if String.eqb k k' then Some v else assoc k rest
  end.

(** The names [Object.prototype] defines. *)
Definition object_prototype_members : list string :=
  [ "constructor"; "toString"; "toLocaleString"; "valueOf";
    "hasOwnProperty"; "isPrototypeOf"; "propertyIsEnumerable";
    "__defineGetter__"; "__defineSetter__";
    "__lookupGetter__"; "__lookupSetter__"; "__proto__" ].

Definition inherited (k : string) : bool :=
  existsb (String.eqb k) object_prototype_members.

(** [o[k]] on a plain object: the own property, else the inherited member,
    else [undefined] ([None]). *)
Definition get (o : JsObject) (k : string) : option JsValue :=
  match assoc k o with
  | Some v => Some v
  | None => if inherited k then Some (JNative k) else None
  end.

(** [c.k] where [c] is any JSON value and [k] is not an inherited name
    (used with ["field"], ["op"] and ["value"] only).  Reading a member of
    [null] raises a [TypeError]; callers test for [JNull] first. *)
Definition member (c : JsValue) (k : string) : option JsValue :=
  match c with
  | JObj o => assoc k o
  | _ => None
  end.

(** [typeof]; [None] is [undefined]. *)
Definition typeof (v : option JsValue) : string :=
  match v with
  | None => "undefined"
  | Some JNull => "object"
  | Some (JBool _) => "boolean"
  | Some (JNum _) => "number"
  | Some (JStr _) => "string"
  | Some (JArr _) => "object"
  | Some (JObj _) => "object"
  | Some (JNative k) => if String.eqb k "__proto__" then "object" else "function"
  end.

(** [ToBoolean]. *)
Definition truthy (v : option JsValue) : bool :=
  match v with
  | None => false
  | Some JNull => false
  | Some (JBool b) => b
  | Some (JNum n) => negb (num_equal n (num_of_Z 0) || num_isNaN n)
  | Some (JStr s) => negb (String.eqb s "")
  | Some _ => true
  end.

Definition isArray (v : option JsValue) : bool :=
  match v with
  | Some (JArr _) => true
  | _ => false
  end.

(** [a === b].  Two objects are strictly equal only when they are the same
    object; the values compared here come from two different parses (the
    request body and the stored rule), so an array, object or function on
    either side gives [false]. *)
Definition strict_equals (a b : JsValue) : bool :=
  match a, b with
  | JNull, JNull => true
  | JBool x, JBool y => Bool.eqb x y
  | JNum x, JNum y => num_equal x y
  | JStr x, JStr y => String.eqb x y
  | _, _ => false
  end.

(** [SameValueZero], the comparison of [Array.prototype.includes]. *)
Definition same_value_zero (a b : JsValue) : bool :=
  match a, b with
  | JNum x, JNum y => num_equal x y || (num_isNaN x && num_isNaN y)
  | _, _ => strict_equals a b
  end.

(** [arr.includes(x)]. *)
Definition array_includes (arr : list JsValue) (x : JsValue) : bool :=
  existsb (fun y => same_value_zero y x) arr.

Definition join (sep : string) (parts : list string) : string :=
  match parts with
  | [] => ""
  | p :: rest => fold_left (fun acc q => acc ++ sep ++ q) rest p
  end.

(** [String(v)].  An array prints its elements, in order, separated by
    commas, with [null] printed as the empty string.  An object is
    converted by [OrdinaryToPrimitive]: its member [toString] is called if
    it is callable, then [valueOf]; an own member [toString] (a JSON value,
    never callable) hides the inherited function, the inherited [valueOf]
    returns the object itself, and the conversion throws a [TypeError].
    The members of objects and arrays are JSON values: [JNative] is met
    only as the result of a property read. *)
Fixpoint ToString (v : JsValue) : Result string :=
  match v with
  | JNull => Ok "null"
  | JBool true => Ok "true"
  | JBool false => Ok "false"
  | JNum n => Ok (num_toString n)
  | JStr s => Ok s
  | JArr items =>
      parts <- (fix each (xs : list JsValue) : Result (list string) :=
                  match xs with
                  | [] => Ok []
                  | x :: rest =>
                      p <- match x with JNull => Ok "" | _ => ToString x end ;;
                      ps <- each rest ;;
                      Ok (p :: ps)
                  end) items ;;
      Ok (join "," parts)
  | JObj members =>
      match assoc "toString" members with
      | Some _ => Throw "TypeError: Cannot convert object to primitive value"
      | None => Ok "[object Object]"
      end
  | JNative k =>
      Ok (if String.eqb k "__proto__" then "[object Object]"
          else "function " ++ k ++ "() { [native code] }")
  end.

(** A template-literal hole [`${v}`], where [v] may be [undefined]. *)
Definition template (v : option JsValue) : Result string :=
  match v with
  | None => Ok "undefined"
  | Some x => ToString x
  end.

(** [Number(v)].  An array or object is first converted to a primitive,
    which goes through [toString] as above: an own member [valueOf] is not
    callable and is passed over. *)
Definition ToNumber (v : JsValue) : Result number :=
  match v with
  | JNull => Ok (num_of_Z 0)
  | JBool true => Ok (num_of_Z 1)
  | JBool false => Ok (num_of_Z 0)
  | JNum n => Ok n
  | JStr s => Ok (StringToNumber s)
  | _ => s <- ToString v ;; Ok (StringToNumber s)
  end.

(** The four relational operators on numbers, from [Number::lessThan]. *)
Definition lt (a b : number) : bool :=
  match num_lessThan a b with Some true => true | _ => false end.
Definition gt (a b : number) : bool :=
  match num_lessThan b a with Some true => true | _ => false end.
Definition le (a b : number) : bool :=
  match num_lessThan b a with Some false => true | _ => false end.
Definition ge (a b : number) : bool :=
  match num_lessThan a b with Some false => true | _ => false end.

(** [s.includes(sub)] on strings. *)
Fixpoint string_includes (s sub : string) : bool :=
  String.prefix sub s ||
  match s with
  | EmptyString => false
  | String _ s' => string_includes s' sub
  end.

(** A non-negative integer inside a template literal. *)
Definition show_nat (n : nat) : string :=
  DecimalString.NilZero.string_of_uint (Nat.to_uint n).

Definition show_Z (z : Z) : string :=
  DecimalString.NilZero.string_of_int (Z.to_int z).

(** [arr.map(f)] with a callback that may throw: the elements are visited
    in order and the first exception ends the call. *)
Fixpoint Array_map {A B : Type} (f : A -> Result B) (arr : list A) : Result (list B) :=
  match arr with
  | [] => Ok []
  | x :: rest =>
      y <- f x ;;
      ys <- Array_map f rest ;;
      Ok (y :: ys)
  end.

End Values.

(** A byte of a character's UTF-8 form after the first one. *)
Definition is_continuation (c : ascii) : bool :=
  ((128 <=? N_of_ascii c) && (N_of_ascii c <? 192))%N.

(** What the first byte [c] of a character's UTF-8 form announces: the
    number of bytes that follow it, and the number of UTF-16 code units of
    the character (two outside the basic plane, a four-byte form). *)
Definition following (c : ascii) : nat :=
  let n := N_of_ascii c in
  if (n <? 192)%N then 0 else if (n <? 224)%N then 1 else if (n <? 240)%N then 2 else 3.

Definition utf16_units (c : ascii) : nat :=
  if (N_of_ascii c <? 240)%N then 1 else 2.

(** The code units of [s] when [pending] bytes of the character at hand
    are still to come.  A continuation byte that belongs to no character
    counts as one unit. *)
Fixpoint length_from (pending : nat) (s : string) : nat :=
  match s with
  | EmptyString => 0
  | String c rest =>
      if is_continuation c then
        match pending with
        | S p => length_from p rest
        | O => 1 + length_from 0 rest
        end
      else utf16_units c + length_from (following c) rest
  end.

(** [s.length]. *)
Definition length (s : string) : nat := length_from 0 s.

(** [s] without the continuation bytes at its head, [k] at most. *)
Fixpoint skip (k : nat) (s : string) : string :=
  match k with
  | O => s
  | S k' =>
      match s with
      | EmptyString => EmptyString
      | String c rest => if is_continuation c then skip k' rest else s
      end
  end.

(** The second code unit of a character outside the basic plane, from the
    three bytes that follow the first one of its UTF-8 form: a low
    surrogate, written as three bytes the way UTF-8 writes a code point of
    that range. *)
Definition low_surrogate (tail : string) : string :=
  match tail with
  | String _ (String b3 (String b4 _)) =>
      String (ascii_of_N 237)
        (String (ascii_of_N (176 + N_of_ascii b3 mod 16)) (String b4 EmptyString))
  | _ => EmptyString
  end.

(** [s.slice(n)]: [s] without its first [n] code units.  A cut between the
    two code units of a character leaves its low surrogate at the head. *)
Fixpoint slice (n : nat) (s : string) : string :=
  match n with
  | O => s
  | S n' =>
      match s with
      | EmptyString => EmptyString
      | String c rest =>
          let tail := skip (following c) rest in
          match utf16_units c, n' with
          | 2, O => low_surrogate rest ++ tail
          | 2, S n'' => slice n'' tail
          | _, _ => slice n' tail
          end
      end
  end.

(** The first two of the three bytes of a lone surrogate. *)
Definition is_surrogate (c d : ascii) : bool :=
  ((N_of_ascii c =? 237) && (160 <=? N_of_ascii d) && (N_of_ascii d <? 192))%N.

(** [s.toWellFormed()]: the text with U+FFFD in the place of every lone
    surrogate.  It is the text whose UTF-8 form Node writes for [s]
    ([cipher.update(s, 'utf8')], [Buffer.from(s, 'utf8')]). *)
Fixpoint toWellFormed (s : string) : string :=
  match s with
  | EmptyString => EmptyString
  | String c rest =>
      match rest with
      | String d (String e rest') =>
          if is_surrogate c d
          then String (ascii_of_N 239)
                 (String (ascii_of_N 191) (String (ascii_of_N 189) (toWellFormed rest')))
          else String c (toWellFormed rest)
      | _ => String c (toWellFormed rest)
      end
  end.

End Js.

(** ** [src/services/rule-engine.ts] *)

Module Condition.
Section Def.
Context {N : NumberOps}.
Record t : Type := mk { field : string; op : string; value : Js.JsValue }.
End Def.
End Condition.

Module EvalResult.
Section Def.
Context {N : NumberOps}.
Record t : Type := mk {
  field : string;
  op : string;
  expected : Js.JsValue;
  actual : Js.JsValue;
  pass : bool
}.
End Def.
End EvalResult.

Module RuleEngine.
Import Js.
Section Engine.
Context {N : NumberOps}.

Record RuleEvaluation : Type := {
  rule_met : bool;
  evaluation : list EvalResult.t;
  summary : string
}.

Definition VALID_OPS : list string :=
  ["="; "!="; "<"; "<="; ">"; ">="; "IN"; "NOT IN"; "CONTAINS"; "NOT CONTAINS"].

(** [VALID_OPS.has(x)]: only a string can be in the set. *)
Definition VALID_OPS_has (x : option JsValue) : bool :=
  match x with
  | Some (JStr s) => existsb (String.eqb s) VALID_OPS
  | _ => false
  end.

(** [x === 'lit'] for a value that may be [undefined]. *)
Definition is_str (x : option JsValue) (lit : string) : bool :=
  match x with
  | Some (JStr s) => String.eqb s lit
  | _ => false
  end.

(** What a call of [validateConditions] does: return [{valid: true}],
    return [{valid: false, error}], or raise a [TypeError]: that of reading
    [c.field] on [null], or that of converting [c.op] to text for an error
    message. *)
Inductive Validation : Type :=
| Valid
| Invalid (error : string)
| TypeError.

(** [return { valid: false, error: `...` }], where evaluating the template
    literal may throw. *)
Definition invalid (error : Result string) : Validation :=
  match error with
  | Ok text => Invalid text
  | Throw _ => TypeError
  end.

(** The body of the [for] loop for the condition [c] at index [i];
    [None] when no check fires and the loop goes on. *)
Definition check_condition (i : nat) (c : JsValue) : option Validation :=
  match c with
  | JNull => Some TypeError
  | _ =>
    let c_field := member c "field" in
    let c_op := member c "op" in
    let c_value := member c "value" in
    if negb (truthy c_field) || negb (String.eqb (typeof c_field) "string") then
      Some (Invalid ("Condition " ++ show_nat i ++ ": 'field' must be a non-empty string"))
    else if negb (VALID_OPS_has c_op) then
      Some (invalid (op <- template c_op ;;
                     Ok ("Condition " ++ show_nat i ++ ": invalid operator '" ++ op
                         ++ "'. Valid: " ++ join ", " VALID_OPS)))
    else if match c_value with None => true | Some _ => false end then
      Some (Invalid ("Condition " ++ show_nat i ++ ": 'value' is required"))
    else if (is_str c_op "IN" || is_str c_op "NOT IN") && negb (isArray c_value) then
      Some (invalid (op <- template c_op ;;
                     Ok ("Condition " ++ show_nat i ++ ": '" ++ op
                         ++ "' operator requires an array value")))
    else if existsb (is_str c_op) ["<"; "<="; ">"; ">="]
            && negb (String.eqb (typeof c_value) "number") then
      Some (invalid (op <- template c_op ;;
                     Ok ("Condition " ++ show_nat i ++ ": '" ++ op
                         ++ "' operator requires a numeric value")))
    else None
  end.

(** The [for] loop from index [i] on. *)
Fixpoint check_from (i : nat) (cs : list JsValue) : Validation :=
  match cs with
  | [] => Valid
  | c :: rest =>
      match check_condition i c with
      | Some r => r
      | None => check_from (S i) rest
      end
  end.

Definition validateConditions (conditions : JsValue) : Validation :=
  match conditions with
  | JArr cs =>
      if Nat.eqb (List.length cs) 0 then Invalid "Conditions must be a non-empty array"
      else if Nat.ltb 20 (List.length cs) then Invalid "Maximum 20 conditions per rule"
      else check_from 0 cs
  | _ => Invalid "Conditions must be a non-empty array"
  end.

(** [Number(actual) rel Number(value)]: the left conversion first. *)
Definition compare_numbers (rel : number -> number -> bool) (actual value : JsValue)
  : Result bool :=
  a <- ToNumber actual ;;
  b <- ToNumber value ;;
  Ok (rel a b).

(** The [switch (cond.op)] of [evaluateRule].  [String(cond.value)] is
    evaluated only when [actual] is a string. *)
Definition compare_op (op : string) (actual value : JsValue) : Result bool :=
  if String.eqb op "=" then Ok (strict_equals actual value)
  else if String.eqb op "!=" then Ok (negb (strict_equals actual value))
  else if String.eqb op "<" then compare_numbers lt actual value
  else if String.eqb op "<=" then compare_numbers le actual value
  else if String.eqb op ">" then compare_numbers gt actual value
  else if String.eqb op ">=" then compare_numbers ge actual value
  else if String.eqb op "IN" then
    Ok match value with JArr items => array_includes items actual | _ => false end
  else if String.eqb op "NOT IN" then
    Ok match value with JArr items => negb (array_includes items actual) | _ => false end
  else if String.eqb op "CONTAINS" then
    match actual with
    | JStr s => sub <- ToString value ;; Ok (string_includes s sub)
    | _ => Ok false
    end
  else if String.eqb op "NOT CONTAINS" then
    match actual with
    | JStr s => sub <- ToString value ;; Ok (negb (string_includes s sub))
    | _ => Ok false
    end
  else Ok false.

(** The callback of [conditions.map]. *)
Definition evaluateCondition (actionData : JsObject) (cond : Condition.t)
  : Result EvalResult.t :=
  match get actionData (Condition.field cond) with
  | None | Some JNull =>
      Ok (EvalResult.mk (Condition.field cond) (Condition.op cond) (Condition.value cond)
                        JNull false)
  | Some actual =>
      pass <- compare_op (Condition.op cond) actual (Condition.value cond) ;;
      Ok (EvalResult.mk (Condition.field cond) (Condition.op cond) (Condition.value cond)
                        actual pass)
  end.

Definition plural (total : nat) : string := if Nat.ltb 1 total then "s" else "".

(** What [evaluateRule] returns once [conditions.map] has returned
    [results]. *)
Definition aggregate (results : list EvalResult.t) : RuleEvaluation :=
  let passed := List.length (filter EvalResult.pass results) in
  let total := List.length results in
  let met := Nat.ltb 0 total && forallb EvalResult.pass results in
  {| rule_met := met;
     evaluation := results;
     summary :=
       if met
       then "All " ++ show_nat total ++ " condition" ++ plural total ++ " passed"
       else show_nat (total - passed) ++ " of " ++ show_nat total
            ++ " condition" ++ plural total ++ " failed" |}.

Definition evaluateRule (conditions : list Condition.t) (actionData : JsObject)
  : Result RuleEvaluation :=
  results <- Array_map (evaluateCondition actionData) conditions ;;
  Ok (aggregate results).

End Engine.
End RuleEngine.

(** ** Bytes and hexadecimal text *)

Module Hex.

(** The lowercase digit of a nibble. *)
Definition digit (n : N) : ascii :=
  if (n <? 10)%N then ascii_of_N (48 + n) else ascii_of_N (87 + n).

(** The value of a hexadecimal digit, in either case. *)
Definition nibble (c : ascii) : option N :=
  let n := N_of_ascii c in
  if ((48 <=? n) && (n <=? 57))%N then Some (n - 48)%N
  else if ((97 <=? n) && (n <=? 102))%N then Some (n - 87)%N
  else if ((65 <=? n) && (n <=? 70))%N then Some (n - 55)%N
  else None.

Definition byte_of_nibbles (hi lo : N) : byte :=
  match Byte.of_N (16 * hi + lo) with
  | Some b => b
  | None => x00
  end.

(** [bytesToHex] of ethereum-cryptography/utils, and [buf.toString('hex')]. *)
Fixpoint bytesToHex (bs : list byte) : string :=
  match bs with
  | [] => ""
  | b :: rest =>
      String (digit (Byte.to_N b / 16)) (String (digit (Byte.to_N b mod 16)) (bytesToHex rest))
  end.

(** [s.slice(2)]. *)
Definition slice2 (s : string) : string := Js.slice 2 s.

(** [hexToBytes] of @noble/hashes: throws on an odd length and on a
    character that is not a hexadecimal digit.  The library is not part of
    the repository; the two texts below stand for its messages. *)
Fixpoint noble_hexToBytes (s : string) : Result (list byte) :=
  match s with
  | EmptyString => Ok []
  | String _ EmptyString => Throw "padded hex string expected"
  | String c1 (String c2 rest) =>
      match nibble c1, nibble c2 with
      | Some hi, Some lo =>
          bs <- noble_hexToBytes rest ;; Ok (byte_of_nibbles hi lo :: bs)
      | _, _ => Throw "invalid byte sequence"
      end
  end.

(** [hexToBytes] of ethereum-cryptography/utils: a leading "0x" is dropped
    before decoding. *)
Definition hexToBytes (s : string) : Result (list byte) :=
  noble_hexToBytes (if String.prefix "0x" s then slice2 s else s).

(** [Buffer.from(s, 'hex')]: decodes pairs of digits and stops, without an
    error, at the first pair that is not hexadecimal or at a last single
    character. *)
Fixpoint Buffer_from_hex (s : string) : list byte :=
  match s with
  | String c1 (String c2 rest) =>
      match nibble c1, nibble c2 with
      | Some hi, Some lo => byte_of_nibbles hi lo :: Buffer_from_hex rest
      | _, _ => []
      end
  | _ => []
  end.

(** [n.toString(16).padStart(64, '0')] for a bigint [n]. *)
Definition bigint_hex64 (n : N) : string :=
  let h := HexadecimalString.NilZero.string_of_uint (N.to_hex_uint n) in
  string_of_list_ascii (repeat "0"%char (64 - String.length h)) ++ h.

End Hex.

(** The primitives of ethereum-cryptography and of node:crypto. *)
Record Signature : Type := { sig_r : N; sig_s : N; sig_recovery : N }.

Class Crypto : Type := {
  keccak256 : list byte -> list byte;
  (** [secp256k1.getPublicKey(key)]; [None] when it throws. *)
  secp256k1_getPublicKey : list byte -> option (list byte);
  (** [secp256k1.sign(msg, key)]; [None] when it throws. *)
  secp256k1_sign : list byte -> list byte -> option Signature;
  (** An aes-256-gcm cipher run over the whole plaintext: ciphertext and
      authentication tag; [None] when [createCipheriv] rejects the key or
      the iv. *)
  gcm_encrypt : list byte -> list byte -> list byte -> option (list byte * list byte);
  (** An aes-256-gcm decipher given key, iv, tag and ciphertext; [None]
      when [createDecipheriv], [setAuthTag] or [final] throws. *)
  gcm_decrypt : list byte -> list byte -> list byte -> list byte -> option (list byte);
}.

(** ** [src/services/proof-generator.ts] *)

Module ProofGenerator.
Import Js.
Section Generator.
Context {N : NumberOps} {C : Crypto}.

(** The one-character string holding a double quote. *)
Definition dquote : string := String (ascii_of_N 34) EmptyString.

(** [QuoteJSONString], one character at a time. *)
Definition quote_char (c : ascii) : string :=
  let n := N_of_ascii c in
  if (n =? 34)%N then "\" ++ dquote
  else if (n =? 92)%N then "\\"
  else if (n =? 8)%N then "\b"
  else if (n =? 9)%N then "\t"
  else if (n =? 10)%N then "\n"
  else if (n =? 12)%N then "\f"
  else if (n =? 13)%N then "\r"
  else if (n <? 32)%N then
    "\u00" ++ String (Hex.digit (n / 16)) (String (Hex.digit (n mod 16)) "")
  else String c "".

(** The escape of a lone surrogate, from the last two of its three bytes:
    a backslash, u and the four digits of the code unit. *)
Definition quote_surrogate (d e : ascii) : string :=
  let u := ((N_of_ascii d mod 64) * 64 + N_of_ascii e mod 64)%N in
  "\ud" ++ String (Hex.digit (u / 256))
             (String (Hex.digit ((u / 16) mod 16)) (String (Hex.digit (u mod 16)) "")).

Fixpoint quote_body (s : string) : string :=
  match s with
  | EmptyString => ""
  | String c rest =>
      match rest with
      | String d (String e rest') =>
          if is_surrogate c d then quote_surrogate d e ++ quote_body rest'
          else quote_char c ++ quote_body rest
      | _ => quote_char c ++ quote_body rest
      end
  end.

Definition quote (s : string) : string := dquote ++ quote_body s ++ dquote.

(** The members of an object that [JSON.stringify] emits when its replacer
    is the array [K]: for each name of [K], in the order of [K], the own
    property of that name, if it has one and its value serializes. *)
Fixpoint emit_members (K : list string) (o : list (string * option string)) : list string :=
  match K with
  | [] => []
  | k :: rest =>
      match assoc k o with
      | Some (Some text) => (quote k ++ ":" ++ text) :: emit_members rest o
      | _ => emit_members rest o
      end
  end.

(** [SerializeJSONProperty] with no indentation; [None] is [undefined].
    [K] is the property list of an array replacer: when there is one it
    applies to the objects of every depth ([K] is meant not to name a
    member of [Object.prototype]); without one an object emits its own
    properties in their order. *)
Fixpoint SerializeJSONProperty (K : option (list string)) (v : JsValue) : option string :=
  match v with
  | JNull => Some "null"
  | JBool true => Some "true"
  | JBool false => Some "false"
  | JNum n => Some (if num_isFinite n then num_toString n else "null")
  | JStr s => Some (quote s)
  | JArr items =>
      Some ("[" ++ join ","
                    (map (fun x => match SerializeJSONProperty K x with
                                   | Some text => text
                                   | None => "null"
                                   end) items)
                ++ "]")
  | JObj members =>
      let serialized :=
        (fix go (ms : list (string * JsValue)) : list (string * option string) :=
           match ms with
           | [] => []
           | (k, x) :: rest => (k, SerializeJSONProperty K x) :: go rest
           end) members in
      let names := match K with
                   | Some ks => ks
                   | None => map fst members
                   end in
      Some ("{" ++ join "," (emit_members names serialized) ++ "}")
  | JNative k => if String.eqb k "__proto__" then Some "{}" else None
  end.

(** [JSON.stringify(value, K)] and [JSON.stringify(value)], for a [value]
    that is an object or an array. *)
Definition JSON_stringify (value : JsValue) (K : option (list string)) : string :=
  match SerializeJSONProperty K value with
  | Some text => text
  | None => "undefined"
  end.

(** [names.sort()]: ascending by code unit. *)
Fixpoint insert_sorted (k : string) (sorted : list string) : list string :=
  match sorted with
  | [] => [k]
  | k' :: rest => if String.leb k k' then k :: sorted else k' :: insert_sorted k rest
  end.

Definition sort (names : list string) : list string :=
  fold_right insert_sorted [] names.

Definition condition_value (c : Condition.t) : JsValue :=
  JObj [ ("field", JStr (Condition.field c));
         ("op", JStr (Condition.op c));
         ("value", Condition.value c) ].

Definition eval_result_value (r : EvalResult.t) : JsValue :=
  JObj [ ("field", JStr (EvalResult.field r));
         ("op", JStr (EvalResult.op r));
         ("expected", EvalResult.expected r);
         ("actual", EvalResult.actual r);
         ("pass", JBool (EvalResult.pass r)) ].

(** The object literal [payload]; [now] is the value of [Date.now()]. *)
Definition payload (agentId ruleId : string) (conditions : list Condition.t)
    (actionData : JsObject) (evaluation : list EvalResult.t) (ruleMet : bool)
    (nonce : number) (now : Z) : JsObject :=
  [ ("v", JNum (num_of_Z 1));
    ("agent", JStr agentId);
    ("rule", JStr ruleId);
    ("conditions", JArr (map condition_value conditions));
    ("action", JObj actionData);
    ("eval", JArr (map eval_result_value evaluation));
    ("met", JBool ruleMet);
    ("nonce", JNum nonce);
    ("ts", JNum (num_of_Z (now / 1000))) ].

Definition buildProofPayload (agentId ruleId : string) (conditions : list Condition.t)
    (actionData : JsObject) (evaluation : list EvalResult.t) (ruleMet : bool)
    (nonce : number) (now : Z) : string :=
  let p := payload agentId ruleId conditions actionData evaluation ruleMet nonce now in
  JSON_stringify (JObj p) (Some (sort (map fst p))).

Definition hashPayload (normalized : string) : string :=
  "0x" ++ Hex.bytesToHex (keccak256 (list_byte_of_string normalized)).

(** [loadSigningKey], given the value of [ECDSA_PRIVATE_KEY] and the content
    of [_privateKey]: how the call ends, and the content of [_privateKey]
    after it.  The decoded key is assigned before the curve is asked about
    it, and stays assigned when the curve refuses it. *)
Definition loadSigningKey (env : option string) (_privateKey : option (list byte))
  : Result unit * option (list byte) :=
  match env with
  | None | Some EmptyString =>
      (Throw "ECDSA_PRIVATE_KEY not set in environment", _privateKey)
  | Some keyHex =>
      match Hex.hexToBytes keyHex with
      | Throw m => (Throw m, _privateKey)
      | Ok key =>
          match secp256k1_getPublicKey key with
          | Some _ => (Ok tt, Some key)
          | None =>
              (Throw "ECDSA_PRIVATE_KEY is not a valid secp256k1 private key", Some key)
          end
      end
  end.

Definition signProof (_privateKey : option (list byte)) (proofHash : string)
  : Result string :=
  match _privateKey with
  | None => Throw "Signing key not loaded"
  | Some key =>
      msgBytes <- Hex.hexToBytes (Hex.slice2 proofHash) ;;
      sig <- of_option "secp256k1.sign" (secp256k1_sign msgBytes key) ;;
      let r := Hex.bigint_hex64 (sig_r sig) in
      let s := Hex.bigint_hex64 (sig_s sig) in
      let v := if (sig_recovery sig =? 0)%N then "1b" else "1c" in
      Ok ("0x" ++ r ++ s ++ v)
  end.

(** [loadEncryptionKey], given the value of [ENCRYPTION_KEY]. *)
Definition loadEncryptionKey (env : option string) : Result (list byte) :=
  match env with
  | None => Throw "ENCRYPTION_KEY must be 64 hex characters (32 bytes)"
  | Some keyHex =>
      if Nat.eqb (Js.length keyHex) 64 then Ok (Hex.Buffer_from_hex keyHex)
      else Throw "ENCRYPTION_KEY must be 64 hex characters (32 bytes)"
  end.

(** [encrypt]; [iv] is the result of [randomBytes(12)].  The cipher is fed
    the UTF-8 form of the plaintext, a lone surrogate as U+FFFD. *)
Definition encrypt (_encryptionKey : option (list byte)) (iv : list byte)
    (plaintext : string) : Result string :=
  match _encryptionKey with
  | None => Throw "Encryption key not loaded"
  | Some key =>
      sealed <- of_option "aes-256-gcm"
                  (gcm_encrypt key iv
                     (list_byte_of_string (Js.toWellFormed plaintext))) ;;
      let encrypted := Hex.bytesToHex (fst sealed) in
      let tag := Hex.bytesToHex (snd sealed) in
      Ok (Hex.bytesToHex iv ++ ":" ++ tag ++ ":" ++ encrypted)
  end.

(** [s.split(':')]. *)
Fixpoint split_colon (s : string) : list string :=
  match s with
  | EmptyString => [""]
  | String c rest =>
      if Ascii.eqb c ":"%char then "" :: split_colon rest
      else match split_colon rest with
           | p :: ps => String c p :: ps
           | [] => [String c ""]
           end
  end.

(** [decipher.update(text, 'hex', ..)] decodes its input as
    [Buffer.from] does, after refusing a text of odd length. *)
Definition update_hex (text : string) : Result (list byte) :=
  if Nat.even (Js.length text) then Ok (Hex.Buffer_from_hex text)
  else Throw "The argument 'encoding' is invalid for data of odd length".

Definition decrypt (_encryptionKey : option (list byte)) (encrypted : string)
  : Result string :=
  match _encryptionKey with
  | None => Throw "Encryption key not loaded"
  | Some key =>
      match split_colon encrypted with
      | [ivHex; tagHex; ciphertext] =>
          body <- update_hex ciphertext ;;
          opened <- of_option "aes-256-gcm"
                      (gcm_decrypt key (Hex.Buffer_from_hex ivHex)
                                   (Hex.Buffer_from_hex tagHex) body) ;;
          Ok (string_of_list_byte opened)
      | _ => Throw "Invalid encrypted format"
      end
  end.

Record GeneratedProof : Type := {
  proof_hash : string;
  signature_encrypted : string;
  gp_nonce : number;
  timestamp : Z
}.

(** The keys the process holds: [_privateKey] and [_encryptionKey]. *)
Record Keys : Type := {
  _privateKey : option (list byte);
  _encryptionKey : option (list byte)
}.

(** [generateProof]; [now] is what [Date.now()] returns when the payload is
    built, [iv] what [randomBytes(12)] returns, and [now_end] what
    [Date.now()] returns when the result is put together. *)
Definition generateProof (keys : Keys) (now : Z) (iv : list byte) (now_end : Z)
    (agentId ruleId : string) (conditions : list Condition.t)
    (actionData : JsObject) (evaluation : list EvalResult.t) (ruleMet : bool)
    (nonce : number) : Result GeneratedProof :=
  let p := buildProofPayload agentId ruleId conditions actionData evaluation
                             ruleMet nonce now in
  let proofHash := hashPayload p in
  signature <- signProof (_privateKey keys) proofHash ;;
  signatureEncrypted <- encrypt (_encryptionKey keys) iv signature ;;
  Ok {| proof_hash := proofHash;
        signature_encrypted := signatureEncrypted;
        gp_nonce := nonce;
        timestamp := now_end / 1000 |}.

End Generator.
End ProofGenerator.

(** ** [src/jobs/batch-proofs.ts] *)

Module BatchProofs.
Section Merkle.
Context {C : Crypto}.

(** [target.set(source, offset)] on a [Uint8Array]. *)
Definition Uint8Array_set (target source : list byte) (offset : nat)
  : Result (list byte) :=
  if Nat.ltb (List.length target) (offset + List.length source)
  then Throw "RangeError: offset is out of bounds"
  else Ok (firstn offset target ++ source
           ++ skipn (offset + List.length source) target)%list.

(** The body of the [if (i + 1 < layer.length)] branch: order the pair by
    the hex strings, lay both out in a 64-byte buffer, hash it. *)
Definition hash_pair (x y : list byte) : Result (list byte) :=
  let ab := if String.leb (Hex.bytesToHex x) (Hex.bytesToHex y)
            then (x, y) else (y, x) in
  c1 <- Uint8Array_set (repeat x00 64) (fst ab) 0 ;;
  combined <- Uint8Array_set c1 (snd ab) 32 ;;
  Ok (keccak256 combined).

(** The [for (i = 0; i < layer.length; i += 2)] loop. *)
Fixpoint next_layer (layer : list (list byte)) : Result (list (list byte)) :=
  match layer with
  | x :: y :: rest =>
      node <- hash_pair x y ;;
      more <- next_layer rest ;;
      Ok (node :: more)
  | [x] => Ok [x]
  | [] => Ok []
  end.

(** The [while (layer.length > 1)] loop: it stops on a layer of fewer than
    two nodes. *)
Equations? reduce (layer : list (list byte)) : Result (list (list byte))
  by wf (List.length layer) lt :=
  reduce [] := Ok [];
  reduce [x] := Ok [x];
  reduce (x :: y :: rest) with inspect (next_layer (x :: y :: rest)) => {
    | exist _ (Ok nextLayer) _ := reduce nextLayer;
    | exist _ (Throw m) _ := Throw m }.
Proof.
  assert (shorter : forall l n, next_layer l = Ok n -> List.length n <= List.length l).
  { fix IH 1. intros [|a [|b r]] n H; simpl in H.
    - inversion H. apply le_n.
    - inversion H. apply le_n.
    - destruct (hash_pair a b); simpl in H; [|discriminate].
      destruct (next_layer r) as [more|] eqn:E; simpl in H; [|discriminate].
      inversion H. simpl. specialize (IH r more E). lia. }
  match goal with
  | E : next_layer (x :: y :: rest) = Ok nextLayer |- _ => simpl in E
  end.
  destruct (hash_pair x y); simpl in *; [|discriminate].
  destruct (next_layer rest) as [more|] eqn:E'; simpl in *; [|discriminate].
  match goal with
  | E : Ok _ = Ok nextLayer |- _ => inversion E
  end.
  simpl. specialize (shorter rest more E'). lia.
Qed.

(** [leaves.map(l => hexToBytes(l.slice(2)))]. *)
Fixpoint decode_leaves (leaves : list string) : Result (list (list byte)) :=
  match leaves with
  | [] => Ok []
  | l :: rest =>
      b <- Hex.hexToBytes (Hex.slice2 l) ;;
      bs <- decode_leaves rest ;;
      Ok (b :: bs)
  end.

Definition computeMerkleRoot (leaves : list string) : Result string :=
  match leaves with
  | [] => Throw "No leaves"
  | [leaf] => Ok leaf
  | _ =>
      layer <- decode_leaves leaves ;;
      final <- reduce layer ;;
      match final with
      | root :: _ => Ok ("0x" ++ Hex.bytesToHex root)
      | [] => Throw "TypeError"
      end
  end.

End Merkle.
End BatchProofs.

(** ** [src/utils/tiers.ts] *)

Module Tiers.

Record TierConfig : Type := {
  name : string;
  display_name : string;
  base_fee : Q;
  monthly_limit : Z;
  overage_rate : Q;
  features : list string
}.

(** The table [TIERS].  It is read as [TIERS[user.tier]]; the column
    [users.tier] carries a CHECK constraint that admits the four names
    below only. *)
Definition TIERS : list (string * TierConfig) :=
  [ ("free",
     {| name := "free"; display_name := "Free";
        base_fee := 0%Q; monthly_limit := 10%Z; overage_rate := 0%Q;
        features := ["API access"; "Up to 10 proofs/month"; "Basic dashboard"] |});
    ("starter",
     {| name := "starter"; display_name := "Starter";
        base_fee := (999 # 100)%Q; monthly_limit := 1000%Z; overage_rate := (15 # 1000)%Q;
        features := ["API access"; "1,000 proofs/month"; "Dashboard & analytics";
                     "Email support"] |});
    ("growth",
     {| name := "growth"; display_name := "Growth";
        base_fee := 99%Q; monthly_limit := 10000%Z; overage_rate := (12 # 1000)%Q;
        features := ["API access"; "10,000 proofs/month"; "Dashboard & analytics";
                     "Custom guardrails"; "Webhook integrations";
                     "Priority support"] |});
    ("enterprise",
     {| name := "enterprise"; display_name := "Enterprise";
        base_fee := 0%Q; monthly_limit := 100000%Z; overage_rate := 0%Q;
        features := ["API access"; "25K / 50K / 100K+ proofs/month";
                     "Volume discounts"; "Custom guardrails";
                     "Webhook integrations"; "Dedicated support";
                     "SLA guarantee"; "On-premise option"] |}) ].

End Tiers.

(** ** The tables of [autoMigrate] and the statements [/api/prove] runs *)

Module UserRow.
Record t : Type := mk { id : string; tier : string; used_proofs_this_month : Z }.
End UserRow.

Module AgentRow.
Record t : Type := mk { id : string; user_id : string; status : string; proof_nonce : Z }.
End AgentRow.

Module RuleRow.
Section Def.
Context {N : NumberOps}.
Record t : Type := mk {
  id : string;
  agent_id : string;
  conditions : Js.JsValue;
  status : string;
  name : string
}.
End Def.
End RuleRow.

Module ProofRow.
Record t : Type := mk {
  id : string;
  agent_id : string;
  rule_id : string;
  action_data : string;
  evaluation : string;
  rule_met : bool;
  decision_summary : string;
  proof_hash : string;
  signature_encrypted : string;
  nonce : Z;
  proof_cost : Q;
  created_at : Z
}.
End ProofRow.

(** ** Column types of the proofs table *)

Module Column.

(** The integer nearest to [q], a tie going away from zero. *)
Definition round_half_away (q : Q) : Z :=
  let n := Qnum q in
  let d := Zpos (Qden q) in
  (Z.sgn n * ((2 * Z.abs n + d) / (2 * d)))%Z.

(** A value written to a DECIMAL(10,6) column: rounded to six decimals,
    refused when it needs more than four digits before the point. *)
Definition DECIMAL_10_6 (q : Q) : Result Q :=
  let micro := round_half_away (q * 1000000)%Q in
  if (10000000000 <=? Z.abs micro)%Z then Throw "numeric field overflow"
  else Ok (micro # 1000000)%Q.

(** The escapes that matter to JSONB, told by their four digits: the one of
    U+0000, the one of a high surrogate (d8.. to db..) and the one of a low
    surrogate (dc.. to df..). *)
Inductive Escape : Type := Nul | High | Low | Other.

Definition escape_kind (digits : string) : Escape :=
  match digits with
  | String a (String b (String c (String d _))) =>
      match Hex.nibble a, Hex.nibble b, Hex.nibble c, Hex.nibble d with
      | Some 0%N, Some 0%N, Some 0%N, Some 0%N => Nul
      | Some 13%N, Some n, Some _, Some _ =>
          if (n <? 8)%N then Other else if (n <? 12)%N then High else Low
      | _, _, _, _ => Other
      end
  | _ => Other
  end.

(** Whether JSONB refuses a JSON text for its escapes: it refuses the
    escape of U+0000, and the escape of a surrogate that is not one of a
    pair, high then low.  A backslash escapes the character after it;
    [skip] characters are passed over first, and [after_high] says that
    the escape of a high surrogate has just been read. *)
Fixpoint refuses (skip : nat) (after_high : bool) (text : string) : bool :=
  match text with
  | EmptyString => after_high
  | String c rest =>
      match skip with
      | S k => refuses k after_high rest
      | O =>
          if (N_of_ascii c =? 92)%N then
            match rest with
            | String d digits =>
                if (N_of_ascii d =? 117)%N then
                  match escape_kind digits with
                  | Nul => true
                  | High => after_high || refuses 5 true rest
                  | Low => negb after_high || refuses 5 false rest
                  | Other => after_high || refuses 5 false rest
                  end
                else after_high || refuses 1 false rest
            | EmptyString => after_high
            end
          else after_high || refuses 0 false rest
      end
  end.

Definition JSONB (text : string) : Result string :=
  if refuses 0 false text
  then Throw "unsupported Unicode escape sequence"
  else Ok text.

(** [Number(text).toFixed(4)] for the text of a DECIMAL(10,6) value.  The
    decimal is rounded as such: for the six-decimal values that are not
    halfway between two four-decimal ones, which is what the tiers give,
    the double nearest to it rounds the same way. *)
Definition toFixed4 (q : Q) : string :=
  let k := round_half_away ((Z.abs (Qnum q) # Qden q) * 10000)%Q in
  let frac := Js.show_Z (k mod 10000) in
  (if (Qnum q <? 0)%Z then "-" else "")
  ++ Js.show_Z (k / 10000) ++ "."
  ++ string_of_list_ascii (repeat "0"%char (4 - String.length frac)) ++ frac.

End Column.

Module Db.
Section Tables.
Context {N : NumberOps}.

Record Database : Type := {
  users : list UserRow.t;
  agents : list AgentRow.t;
  rules : list RuleRow.t;
  proofs : list ProofRow.t
}.

(** The largest value of an INT column. *)
Definition INT_MAX : Z := 2147483647%Z.

(** [SELECT .. FROM rules WHERE id = $1] through [queryOne]: the first row,
    or [null]. *)
Definition select_rule (db : Database) (rule_id : string) : option RuleRow.t :=
  find (fun r => String.eqb (RuleRow.id r) rule_id) (rules db).

Definition bump_nonce (a : AgentRow.t) : AgentRow.t :=
  AgentRow.mk (AgentRow.id a) (AgentRow.user_id a) (AgentRow.status a)
              (AgentRow.proof_nonce a + 1)%Z.

(** [UPDATE agents SET proof_nonce = proof_nonce + 1 WHERE id = $1
    RETURNING proof_nonce]: the returned rows and the new table, or the
    error "integer out of range". *)
Definition update_agent_nonce (db : Database) (agent_id : string)
  : Result (list Z * Database) :=
  let hit := fun a => String.eqb (AgentRow.id a) agent_id in
  if existsb (fun a => hit a && (INT_MAX <? AgentRow.proof_nonce a + 1)%Z) (agents db)
  then Throw "integer out of range"
  else
    let agents' := map (fun a => if hit a then bump_nonce a else a) (agents db) in
    Ok (map AgentRow.proof_nonce (filter hit agents'),
        {| users := users db; agents := agents'; rules := rules db;
           proofs := proofs db |}).

(** The row as the table holds it: [proof_cost] is a DECIMAL(10,6). *)
Definition stored (row : ProofRow.t) (cost : Q) : ProofRow.t :=
  ProofRow.mk (ProofRow.id row) (ProofRow.agent_id row) (ProofRow.rule_id row)
    (ProofRow.action_data row) (ProofRow.evaluation row) (ProofRow.rule_met row)
    (ProofRow.decision_summary row) (ProofRow.proof_hash row)
    (ProofRow.signature_encrypted row) (ProofRow.nonce row) cost
    (ProofRow.created_at row).

(** [INSERT INTO proofs (..) VALUES (..) RETURNING ..]: the values are
    converted to the types of their columns (JSONB, DECIMAL), then the
    primary key, the UNIQUE constraint on [proof_hash], the two foreign
    keys and the range of the INT column are checked. *)
Definition insert_proof (db : Database) (row : ProofRow.t)
  : Result (ProofRow.t * Database) :=
  action_data <- Column.JSONB (ProofRow.action_data row) ;;
  evaluation <- Column.JSONB (ProofRow.evaluation row) ;;
  cost <- Column.DECIMAL_10_6 (ProofRow.proof_cost row) ;;
  if existsb (fun p => String.eqb (ProofRow.id p) (ProofRow.id row)) (proofs db)
  then Throw "duplicate key value violates unique constraint proofs_pkey"
  else if existsb (fun p => String.eqb (ProofRow.proof_hash p) (ProofRow.proof_hash row))
                  (proofs db)
  then Throw "duplicate key value violates unique constraint proofs_proof_hash_key"
  else if negb (existsb (fun a => String.eqb (AgentRow.id a) (ProofRow.agent_id row))
                        (agents db))
  then Throw "violates foreign key constraint proofs_agent_id_fkey"
  else if negb (existsb (fun r => String.eqb (RuleRow.id r) (ProofRow.rule_id row))
                        (rules db))
  then Throw "violates foreign key constraint proofs_rule_id_fkey"
  else if (INT_MAX <? ProofRow.nonce row)%Z || (ProofRow.nonce row <? - INT_MAX - 1)%Z
  then Throw "integer out of range"
  else Ok (stored row cost,
           {| users := users db; agents := agents db; rules := rules db;
              proofs := (proofs db ++ [stored row cost])%list |}).

Definition bump_used (u : UserRow.t) : UserRow.t :=
  UserRow.mk (UserRow.id u) (UserRow.tier u) (UserRow.used_proofs_this_month u + 1)%Z.

(** [UPDATE users SET used_proofs_this_month = used_proofs_this_month + 1
    WHERE id = $1]. *)
Definition update_user_used (db : Database) (user_id : string) : Result Database :=
  let hit := fun u => String.eqb (UserRow.id u) user_id in
  if existsb (fun u => hit u && (INT_MAX <? UserRow.used_proofs_this_month u + 1)%Z)
             (users db)
  then Throw "integer out of range"
  else Ok {| users := map (fun u => if hit u then bump_used u else u) (users db);
             agents := agents db; rules := rules db; proofs := proofs db |}.

(** [transaction(fn)] of [src/db.ts].  BEGIN gives [fn] a working copy of
    the committed state; COMMIT makes the copy the committed state; when
    [fn] throws, ROLLBACK discards the copy and the error is thrown on. *)
Definition transaction {A : Type} (db : Database)
    (fn : Database -> Result (A * Database)) : Result A * Database :=
  match fn db with
  | Ok (result, working) => (Ok result, working)
  | Throw m => (Throw m, db)
  end.

End Tables.
End Db.

(** ** [src/routes/prove.ts]: POST /api/prove *)

Module Prove.
Import Js.
Section Route.
Context {N : NumberOps} {C : Crypto}.

(** What the handler reads from the request: the outcome of
    [ProveSchema.safeParse(req.body)] and the two rows the [requireApiKey]
    hook attached. *)
Record ProveBody : Type := { rule_id : string; action_data : JsObject }.

Record Request : Type := {
  parsed : Result ProveBody;
  agent : AgentRow.t;
  user : UserRow.t
}.

(** What the environment supplies during the call: [Date.now()] at its
    two reads in [generateProof], [randomBytes(12)], and the row defaults
    [gen_random_uuid()] and [NOW()]. *)
Record Env : Type := {
  now : Z;
  iv : list byte;
  now_end : Z;
  uuid : string;
  db_now : Z
}.

Inductive Reply : Type :=
| Error (status : nat) (code : string) (error : string) (details : list (string * Z))
| Created (proof_id proof_hash : string) (rule_met : bool)
          (evaluation : list EvalResult.t) (summary : string) (cost : string)
          (created_at : Z).

(** The cast of a stored rule to [Condition[]].  On a list that
    [validateConditions] accepted every member read here exists. *)
Definition as_condition (c : JsValue) : Condition.t :=
  Condition.mk
    (match member c "field" with Some (JStr s) => s | _ => "" end)
    (match member c "op" with Some (JStr s) => s | _ => "" end)
    (match member c "value" with Some v => v | None => JNull end).

Definition as_conditions (conditions : JsValue) : list Condition.t :=
  match conditions with
  | JArr cs => map as_condition cs
  | _ => []
  end.

(** [costPerProof]. *)
Definition costPerProof (u : UserRow.t) : Q :=
  if String.eqb (UserRow.tier u) "free" then 0%Q
  else
    let t := assoc (UserRow.tier u) Tiers.TIERS in
    let fee := match t with
               | Some c => if Qeq_bool (Tiers.base_fee c) 0%Q then (999 # 100)%Q
                           else Tiers.base_fee c
               | None => (999 # 100)%Q
               end in
    let limit := match t with
                 | Some c => if (Tiers.monthly_limit c =? 0)%Z then 1000%Z
                             else Tiers.monthly_limit c
                 | None => 1000%Z
                 end in
    (fee / inject_Z limit)%Q.

(** The function handed to [transaction]. *)
Definition issue (keys : ProofGenerator.Keys) (env : Env) (req : Request)
    (body : ProveBody) (rule : RuleRow.t) (ruleEval : RuleEngine.RuleEvaluation)
    (working : Db.Database) : Result (ProofRow.t * Db.Database) :=
  updated <- Db.update_agent_nonce working (AgentRow.id (agent req)) ;;
  nonce <- of_option "TypeError: Cannot read properties of undefined"
             (hd_error (fst updated)) ;;
  generated <- ProofGenerator.generateProof keys (now env) (iv env) (now_end env)
                 (AgentRow.id (agent req)) (RuleRow.id rule)
                 (as_conditions (RuleRow.conditions rule)) (action_data body)
                 (RuleEngine.evaluation ruleEval) (RuleEngine.rule_met ruleEval)
                 (num_of_Z nonce) ;;
  inserted <- Db.insert_proof (snd updated)
                (ProofRow.mk (uuid env) (AgentRow.id (agent req)) (RuleRow.id rule)
                   (ProofGenerator.JSON_stringify (JObj (action_data body)) None)
                   (ProofGenerator.JSON_stringify
                      (JArr (map ProofGenerator.eval_result_value
                                 (RuleEngine.evaluation ruleEval))) None)
                   (RuleEngine.rule_met ruleEval)
                   (RuleEngine.summary ruleEval)
                   (ProofGenerator.proof_hash generated)
                   (ProofGenerator.signature_encrypted generated)
                   nonce (costPerProof (user req)) (db_now env)) ;;
  counted <- Db.update_user_used (snd inserted) (UserRow.id (user req)) ;;
  Ok (fst inserted, counted).

(** The handler of POST /api/prove: the reply and the database after the
    request.  An exception that leaves the handler (from
    [validateConditions], from [evaluateRule] or from the transaction)
    reaches [errorHandler], which answers 500 INTERNAL_ERROR. *)
Definition prove (keys : ProofGenerator.Keys) (db : Db.Database) (env : Env)
    (req : Request) : Reply * Db.Database :=
  match parsed req with
  | Throw message => (Error 400 "VALIDATION_ERROR" message [], db)
  | Ok body =>
    match assoc (UserRow.tier (user req)) Tiers.TIERS with
    | None => (Error 500 "INTERNAL_ERROR" "Invalid tier" [], db)
    | Some tier =>
      if String.eqb (UserRow.tier (user req)) "free"
         && (Tiers.monthly_limit tier <=? UserRow.used_proofs_this_month (user req))%Z
      then (Error 402 "QUOTA_EXCEEDED"
                  "Free tier proof limit reached. Upgrade to continue."
                  [("limit", Tiers.monthly_limit tier);
                   ("used", UserRow.used_proofs_this_month (user req))], db)
      else
        match Db.select_rule db (rule_id body) with
        | None => (Error 404 "RULE_NOT_FOUND" "Rule not found" [], db)
        | Some rule =>
          if negb (String.eqb (RuleRow.agent_id rule) (AgentRow.id (agent req)))
          then (Error 403 "RULE_MISMATCH" "Rule does not belong to this agent" [], db)
          else if negb (String.eqb (RuleRow.status rule) "active")
          then (Error 403 "RULE_ARCHIVED" "Rule is archived" [], db)
          else
            match RuleEngine.validateConditions (RuleRow.conditions rule) with
            | RuleEngine.TypeError =>
                (Error 500 "INTERNAL_ERROR" "Internal server error" [], db)
            | RuleEngine.Invalid _ =>
                (Error 500 "RULE_CORRUPT" "Rule conditions corrupted" [], db)
            | RuleEngine.Valid =>
                match RuleEngine.evaluateRule (as_conditions (RuleRow.conditions rule))
                                              (action_data body) with
                | Throw _ =>
                    (Error 500 "INTERNAL_ERROR" "Internal server error" [], db)
                | Ok ruleEval =>
                    match Db.transaction db (issue keys env req body rule ruleEval) with
                    | (Throw _, db') =>
                        (Error 500 "INTERNAL_ERROR" "Internal server error" [], db')
                    | (Ok proof, db') =>
                        (Created (ProofRow.id proof) (ProofRow.proof_hash proof)
                                 (ProofRow.rule_met proof)
                                 (RuleEngine.evaluation ruleEval)
                                 (ProofRow.decision_summary proof)
                                 ("$" ++ Column.toFixed4 (ProofRow.proof_cost proof))
                                 (ProofRow.created_at proof), db')
                    end
                end
            end
        end
    end
  end.

(** Requests served one after the other. *)
Fixpoint serve (keys : ProofGenerator.Keys) (db : Db.Database)
    (calls : list (Env * Request)) : list Reply * Db.Database :=
  match calls with
  | [] => ([], db)
  | (env, req) :: rest =>
      let '(reply, db1) := prove keys db env req in
      let '(replies, db2) := serve keys db1 rest in
      (reply :: replies, db2)
  end.

Definition is_created (r : Reply) : bool :=
  match r with
  | Created _ _ _ _ _ _ _ => true
  | Error _ _ _ _ => false
  end.

End Route.
End Prove.

(** ** [contracts/VouchRegistry.sol] and [contracts/RuleRegistry.sol] *)

(** What the two contracts use of Solidity 0.8.  A [uint256] and an
    [address] are natural numbers; arithmetic is checked and panics on
    overflow.  A [bytes32] is a list of 32 bytes, read as a big-endian
    number by [<=].  A call that reverts throws, and the caller keeps the
    state of before. *)
Module Solidity.

Definition MAX_UINT256 : N := (2 ^ 256 - 1)%N.

Definition require (condition : bool) (reason : string) : Result unit :=
  if condition then Ok tt else Throw reason.

Definition bytes32_value (b : list byte) : N :=
  fold_left (fun acc x => (acc * 256 + Byte.to_N x)%N) b 0%N.

Definition bytes32_le (a b : list byte) : bool :=
  (bytes32_value a <=? bytes32_value b)%N.

Fixpoint bytes32_eqb (a b : list byte) : bool :=
  match a, b with
  | [], [] => true
  | x :: a', y :: b' => Byte.eqb x y && bytes32_eqb a' b'
  | _, _ => false
  end.

(** [m[key] = value] on a [mapping(bytes32 => V)] and on a
    [mapping(uint256 => V)]. *)
Definition store {V : Type} (m : list byte -> V) (key : list byte) (value : V)
  : list byte -> V :=
  fun k => if bytes32_eqb k key then value else m k.

Definition store_at {V : Type} (m : N -> V) (key : N) (value : V) : N -> V :=
  fun k => if (k =? key)%N then value else m k.

End Solidity.

Module VouchRegistry.
Import Solidity.
Section Contract.
Context {C : Crypto}.

Record Batch : Type := {
  merkleRoot : list byte;
  proofCount : N;
  timestamp : N
}.

Record State : Type := {
  owner : N;
  proofExists : list byte -> bool;
  batchCount : N;
  batches : N -> Batch
}.

Inductive Event : Type :=
| BatchRegistered (batchId : N) (merkleRoot : list byte) (proofCount : N)
| ProofRegistered (proofHash : list byte).

Definition constructor (msg_sender : N) : State :=
  {| owner := msg_sender;
     proofExists := fun _ => false;
     batchCount := 0%N;
     batches := fun _ => {| merkleRoot := repeat x00 32; proofCount := 0%N;
                            timestamp := 0%N |} |}.

Definition onlyOwner (s : State) (msg_sender : N) : Result unit :=
  require (msg_sender =? owner s)%N "Unauthorized".

(** The [for] loop of [registerBatch]. *)
Fixpoint register_each (exists_ : list byte -> bool) (proofHashes : list (list byte))
  : Result ((list byte -> bool) * list Event) :=
  match proofHashes with
  | [] => Ok (exists_, [])
  | h :: rest =>
      checked <- require (negb (exists_ h)) "Duplicate proof" ;;
      more <- register_each (store exists_ h true) rest ;;
      Ok (fst more, ProofRegistered h :: snd more)
  end.

Definition registerBatch (s : State) (msg_sender block_timestamp : N)
    (root : list byte) (count : N) (proofHashes : list (list byte))
  : Result (State * list Event) :=
  authorized <- onlyOwner s msg_sender ;;
  c1 <- require (N.of_nat (List.length proofHashes) =? count)%N "Count mismatch" ;;
  c2 <- require (0 <? count)%N "Empty batch" ;;
  c3 <- require (count <=? 500)%N "Batch too large" ;;
  let batchId := batchCount s in
  c4 <- require (batchCount s <? MAX_UINT256)%N "Panic(0x11)" ;;
  let batches' := store_at (batches s) batchId
                    {| merkleRoot := root; proofCount := count;
                       timestamp := block_timestamp |} in
  registered <- register_each (proofExists s) proofHashes ;;
  Ok ({| owner := owner s;
         proofExists := fst registered;
         batchCount := (batchCount s + 1)%N;
         batches := batches' |},
      (snd registered ++ [BatchRegistered batchId root count])%list).

Definition exists_ (s : State) (proofHash : list byte) : bool :=
  proofExists s proofHash.

(** One round of the loop of [verifyInclusion]. *)
Definition climb (leaf sibling : list byte) : list byte :=
  if bytes32_le leaf sibling
  then keccak256 (leaf ++ sibling)%list
  else keccak256 (sibling ++ leaf)%list.

Definition verifyInclusion (s : State) (proofHash : list byte)
    (merkleProof : list (list byte)) (batchId : N) : Result bool :=
  found <- require (batchId <? batchCount s)%N "Batch not found" ;;
  let root := merkleRoot (batches s batchId) in
  let leaf := fold_left climb merkleProof proofHash in
  Ok (bytes32_eqb leaf root).

Definition getBatch (s : State) (batchId : N) : Result (list byte * N * N) :=
  found <- require (batchId <? batchCount s)%N "Batch not found" ;;
  let b := batches s batchId in
  Ok (merkleRoot b, proofCount b, timestamp b).

End Contract.
End VouchRegistry.

Module RuleRegistry.
Import Solidity.

Record State : Type := {
  owner : N;
  ruleExists : list byte -> bool;
  ruleVersion : list byte -> N
}.

Inductive Event : Type :=
| RuleAnchored (ruleHash : list byte) (version : N).

Definition constructor (msg_sender : N) : State :=
  {| owner := msg_sender; ruleExists := fun _ => false; ruleVersion := fun _ => 0%N |}.

Definition onlyOwner (s : State) (msg_sender : N) : Result unit :=
  require (msg_sender =? owner s)%N "Unauthorized".

Definition anchorRule (s : State) (msg_sender : N) (ruleHash : list byte) (version : N)
  : Result (State * list Event) :=
  authorized <- onlyOwner s msg_sender ;;
  Ok ({| owner := owner s;
         ruleExists := store (ruleExists s) ruleHash true;
         ruleVersion := store (ruleVersion s) ruleHash version |},
      [RuleAnchored ruleHash version]).

Definition exists_ (s : State) (ruleHash : list byte) : bool := ruleExists s ruleHash.

Definition getVersion (s : State) (ruleHash : list byte) : Result N :=
  found <- require (ruleExists s ruleHash) "Rule not found" ;;
  Ok (ruleVersion s ruleHash).

(** Transactions sent to the contract one after the other: a reverted one
    leaves the state as it was. *)
Fixpoint anchor_all (s : State) (calls : list (N * list byte * N)) : State :=
  match calls with
  | [] => s
  | (msg_sender, ruleHash, version) :: rest =>
      match anchorRule s msg_sender ruleHash version with
      | Ok (s', _) => anchor_all s' rest
      | Throw _ => anchor_all s rest
      end
  end.

End RuleRegistry.

(** ** [src/services/auth.ts]: API keys *)

Module Auth.
Section ApiKeys.

(** [createHash('sha256').update(bytes).digest()]. *)
Variable sha256 : list byte -> list byte.

Definition API_KEY_PREFIX : string := "sk_live_".

Record ApiKey : Type := { plaintext : string; hash : string; prefix : string }.

Definition hashApiKey (key : string) : string :=
  Hex.bytesToHex (sha256 (list_byte_of_string key)).

(** [generateApiKey]; [random_bytes] is what [randomBytes(32)] returns
    during the call. *)
Definition generateApiKey (random_bytes : list byte) : ApiKey :=
  let random := Hex.bytesToHex random_bytes in
  let plaintext := API_KEY_PREFIX ++ random in
  {| plaintext := plaintext;
     hash := hashApiKey plaintext;
     prefix := API_KEY_PREFIX ++ String.substring 0 4 random ++ "..." |}.

End ApiKeys.
End Auth.

(** ** [scripts/generate-keys.ts] *)

Module GenerateKeys.
Section Script.
Context {C : Crypto}.

(** The values the script prints for the [.env] file. *)
Record Printed : Type := {
  ECDSA_PRIVATE_KEY : string;
  public_key : string;
  ENCRYPTION_KEY : string
}.

(** The first two parts of the script; the arguments are what the two
    calls of [randomBytes(32)] return. *)
Definition run (ecdsaPrivateKey aesKey : list byte) : Result Printed :=
  ecdsaPublicKey <- of_option "invalid private key"
                      (secp256k1_getPublicKey ecdsaPrivateKey) ;;
  Ok {| ECDSA_PRIVATE_KEY := Hex.bytesToHex ecdsaPrivateKey;
        public_key := "0x" ++ Hex.bytesToHex ecdsaPublicKey;
        ENCRYPTION_KEY := Hex.bytesToHex aesKey |}.

End Script.
End GenerateKeys.

(** ** [src/middleware/auth.ts]: the API key hook, and the route with it *)

Module Middleware.
Section ApiKey.
Context {N : NumberOps}.

(** [createHash('sha256')], and the column [api_key_hash] of the agents
    table, which no statement of these routes updates, by agent id. *)
Variable sha256 : list byte -> list byte.
Variable api_key_hash : string -> string.

(** [s.slice(n)]. *)
Fixpoint slice (n : nat) (s : string) : string :=
  match n, s with
  | O, _ => s
  | S n', String _ rest => slice n' rest
  | S _, EmptyString => EmptyString
  end.

(** [requireApiKey]: the reply it sends, or the agent and the user it
    attaches to the request. *)
Definition requireApiKey (db : Db.Database) (authorization : option string)
  : Prove.Reply + AgentRow.t * UserRow.t :=
  match authorization with
  | None => inl (Prove.Error 401 "AUTH_MISSING" "Missing API key" [])
  | Some auth =>
    if negb (String.prefix "Bearer " auth)
    then inl (Prove.Error 401 "AUTH_MISSING" "Missing API key" [])
    else
      let apiKey := slice 7 auth in
      if negb (String.prefix "sk_live_" apiKey)
      then inl (Prove.Error 401 "AUTH_INVALID_KEY" "Invalid API key format" [])
      else
        let keyHash := Auth.hashApiKey sha256 apiKey in
        match find (fun a => String.eqb (api_key_hash (AgentRow.id a)) keyHash)
                   (Db.agents db) with
        | None => inl (Prove.Error 401 "AUTH_INVALID_KEY" "Invalid API key" [])
        | Some agent =>
          if negb (String.eqb (AgentRow.status agent) "active")
          then inl (Prove.Error 403 "AGENT_SUSPENDED" "Agent is suspended" [])
          else
            match find (fun u => String.eqb (UserRow.id u) (AgentRow.user_id agent))
                       (Db.users db) with
            | None => inl (Prove.Error 401 "AUTH_INVALID_KEY" "Invalid API key" [])
            | Some user => inr (agent, user)
            end
        end
  end.

End ApiKey.
End Middleware.

Module ProveRoute.
Section Route.
Context {N : NumberOps} {C : Crypto}.
Variable sha256 : list byte -> list byte.
Variable api_key_hash : string -> string.

(** An HTTP request to POST /api/prove: the Authorization header, the
    outcome of parsing the body, and what the environment supplies while
    it is served. *)
Record Call : Type := {
  env : Prove.Env;
  authorization : option string;
  body : Result Prove.ProveBody
}.

(** The route with its [preHandler]: a reply sent by the hook ends the
    request. *)
Definition handle (keys : ProofGenerator.Keys) (db : Db.Database) (call : Call)
  : Prove.Reply * Db.Database :=
  match Middleware.requireApiKey sha256 api_key_hash db (authorization call) with
  | inl reply => (reply, db)
  | inr (agent, user) =>
      Prove.prove keys db (env call)
        {| Prove.parsed := body call; Prove.agent := agent; Prove.user := user |}
  end.

(** Requests served one after the other. *)
Fixpoint handle_all (keys : ProofGenerator.Keys) (db : Db.Database)
    (calls : list Call) : list Prove.Reply * Db.Database :=
  match calls with
  | [] => ([], db)
  | call :: rest =>
      let '(reply, db1) := handle keys db call in
      let '(replies, db2) := handle_all keys db1 rest in
      (reply :: replies, db2)
  end.

End Route.
End ProveRoute.

(** ** A runtime to execute the model on concrete inputs *)

Module Sample.

(** Numbers restricted to the integers ([None] is NaN): the operations of
    [NumberOps] as JavaScript performs them on integer values. *)
Definition IntegerNumbers : NumberOps :=
  {| number := option Z;
     num_of_Z := Some;
     num_equal := fun a b =>
       match a, b with
       | Some x, Some y => (x =? y)%Z
       | _, _ => false
       end;
     num_lessThan := fun a b =>
       match a, b with
       | Some x, Some y => Some (x <? y)%Z
       | _, _ => None
       end;
     num_isNaN := fun a => match a with Some _ => false | None => true end;
     num_isFinite := fun a => match a with Some _ => true | None => false end;
     num_toString := fun a =>
       match a with
       | Some x => Js.show_Z x
       | None => "NaN"
       end;
     StringToNumber := fun s =>
       if String.eqb s "" then Some 0%Z
       else option_map Z.of_int (DecimalString.NilZero.int_of_string s) |}.

(** The integers with the two infinite values and NaN: what the
    comparisons and [isFinite] make of the values that a JSON number such
    as 1e999 brings in. *)
Inductive Extended : Type :=
| Finite (z : Z)
| PlusInfinity
| MinusInfinity
| NotANumber.

Definition ExtendedNumbers : NumberOps :=
  {| number := Extended;
     num_of_Z := Finite;
     num_equal := fun a b =>
       match a, b with
       | Finite x, Finite y => (x =? y)%Z
       | PlusInfinity, PlusInfinity => true
       | MinusInfinity, MinusInfinity => true
       | _, _ => false
       end;
     num_lessThan := fun a b =>
       match a, b with
       | NotANumber, _ | _, NotANumber => None
       | Finite x, Finite y => Some (x <? y)%Z
       | MinusInfinity, MinusInfinity => Some false
       | MinusInfinity, _ => Some true
       | _, MinusInfinity => Some false
       | PlusInfinity, _ => Some false
       | _, PlusInfinity => Some true
       end;
     num_isNaN := fun a => match a with NotANumber => true | _ => false end;
     num_isFinite := fun a => match a with Finite _ => true | _ => false end;
     num_toString := fun a =>
       match a with
       | Finite x => Js.show_Z x
       | PlusInfinity => "Infinity"
       | MinusInfinity => "-Infinity"
       | NotANumber => "NaN"
       end;
     StringToNumber := fun s =>
       if String.eqb s "" then Finite 0
       else if String.eqb s "Infinity" then PlusInfinity
       else if String.eqb s "-Infinity" then MinusInfinity
       else match DecimalString.NilZero.int_of_string s with
            | Some i => Finite (Z.of_int i)
            | None => NotANumber
            end |}.

(** A 32-byte value computed from the input: the input's length and the
    sum of its bytes, spread over 32 positions. *)
Definition digest32 (bs : list byte) : list byte :=
  let total := fold_left (fun acc b => (acc + Byte.to_N b)%N) bs (N.of_nat (List.length bs)) in
  map (fun i => Hex.byte_of_nibbles 0 ((total + N.of_nat i) mod 16)%N) (seq 0 32).

(** Stand-ins for the cryptographic primitives, with their interface: a
    32-byte hash, a signature for every key, and a cipher whose tag is a
    function of key, iv and ciphertext and whose decipher checks it. *)
Definition SimpleCrypto : Crypto :=
  {| keccak256 := digest32;
     secp256k1_getPublicKey := fun key =>
       if Nat.eqb (List.length key) 32 then Some key else None;
     secp256k1_sign := fun msg key =>
       if Nat.eqb (List.length key) 32 && Nat.eqb (List.length msg) 32
       then Some {| sig_r := 1%N; sig_s := 2%N; sig_recovery := 0%N |}
       else None;
     gcm_encrypt := fun key iv plaintext =>
       if Nat.eqb (List.length key) 32 && negb (Nat.eqb (List.length iv) 0)
       then Some (plaintext, firstn 16 (digest32 (key ++ iv ++ plaintext)%list))
       else None;
     gcm_decrypt := fun key iv tag ciphertext =>
       if Nat.eqb (List.length key) 32 && negb (Nat.eqb (List.length iv) 0)
          && String.eqb (Hex.bytesToHex tag)
               (Hex.bytesToHex (firstn 16 (digest32 (key ++ iv ++ ciphertext)%list)))
       then Some ciphertext
       else None |}.

End Sample.

(* ===================================================================== *)
(** * Part II.  The vocabulary of the specification                       *)
(* ===================================================================== *)

Section Vocabulary.
Context {N : NumberOps} {C : Crypto}.
Import Js.

(** The specification's vocabulary for one condition [c]. *)
Definition field_ok (c : JsValue) : Prop :=
  exists s, member c "field" = Some (JStr s) /\ s <> "".

Definition operator_ok (c : JsValue) : Prop :=
  exists s, member c "op" = Some (JStr s) /\ In s RuleEngine.VALID_OPS.

Definition value_present (c : JsValue) : Prop :=
  exists v, member c "value" = Some v.

Definition list_ok (c : JsValue) : Prop :=
  member c "op" = Some (JStr "IN") \/ member c "op" = Some (JStr "NOT IN") ->
  exists items, member c "value" = Some (JArr items).

Definition number_ok (c : JsValue) : Prop :=
  (exists s, member c "op" = Some (JStr s) /\ In s ["<"; "<="; ">"; ">="]) ->
  exists n, member c "value" = Some (JNum n).

Definition well_formed (c : JsValue) : Prop :=
  field_ok c /\ operator_ok c /\ value_present c /\ list_ok c /\ number_ok c.


(** A value that can be converted to text: it is not an object with a
    member [toString] of its own, nor an array that holds such an object at
    some depth. *)
Fixpoint printable (v : JsValue) : bool :=
  match v with
  | JArr items =>
      (fix all (xs : list JsValue) : bool :=
         match xs with
         | [] => true
         | x :: rest => printable x && all rest
         end) items
  | JObj members =>
      match assoc "toString" members with
      | Some _ => false
      | None => true
      end
  | _ => true
  end.


(** The message for the first violation of the condition at index [i], the
    violations being tried in the order the specification lists them. *)
Inductive first_violation (i : nat) (c : JsValue) : string -> Prop :=
| bad_field :
    ~ field_ok c ->
    first_violation i c
      ("Condition " ++ show_nat i ++ ": 'field' must be a non-empty string")
| bad_operator (text : string) :
    field_ok c -> ~ operator_ok c -> template (member c "op") = Ok text ->
    first_violation i c
      ("Condition " ++ show_nat i ++ ": invalid operator '" ++ text
       ++ "'. Valid: =, !=, <, <=, >, >=, IN, NOT IN, CONTAINS, NOT CONTAINS")
| no_value :
    field_ok c -> operator_ok c -> ~ value_present c ->
    first_violation i c ("Condition " ++ show_nat i ++ ": 'value' is required")
| not_a_list (op : string) :
    field_ok c -> operator_ok c -> value_present c -> ~ list_ok c ->
    member c "op" = Some (JStr op) ->
    first_violation i c
      ("Condition " ++ show_nat i ++ ": '" ++ op ++ "' operator requires an array value")
| not_a_number (op : string) :
    field_ok c -> operator_ok c -> value_present c -> list_ok c -> ~ number_ok c ->
    member c "op" = Some (JStr op) ->
    first_violation i c
      ("Condition " ++ show_nat i ++ ": '" ++ op ++ "' operator requires a numeric value").

(** Equality of type and value, read on the structure of the two values:
    the same kind of value and, for a boolean, number or string, the same
    value, for an array the same elements in the same order, for an object
    the same members. *)
Fixpoint same_type_and_value (a b : JsValue) : bool :=
  match a, b with
  | JNull, JNull => true
  | JBool x, JBool y => Bool.eqb x y
  | JNum x, JNum y => num_equal x y
  | JStr x, JStr y => String.eqb x y
  | JArr xs, JArr ys =>
      (fix all2 (xs ys : list JsValue) {struct xs} : bool :=
         match xs, ys with
         | [], [] => true
         | x :: xr, y :: yr => same_type_and_value x y && all2 xr yr
         | _, _ => false
         end) xs ys
  | JObj ms, JObj ns =>
      (fix all2 (ms ns : list (string * JsValue)) {struct ms} : bool :=
         match ms, ns with
         | [], [] => true
         | (k, x) :: mr, (l, y) :: nr =>
             String.eqb k l && same_type_and_value x y && all2 mr nr
         | _, _ => false
         end) ms ns
  | JNative k, JNative l => String.eqb k l
  | _, _ => false
  end.

(** A boolean, a number or a string. *)
Definition scalar (v : JsValue) : bool :=
  match v with
  | JBool _ | JNum _ | JStr _ => true
  | _ => false
  end.

(** The replacer of [buildProofPayload]: the nine keys, sorted. *)
Definition payload_keys : list string :=
  ["action"; "agent"; "conditions"; "eval"; "met"; "nonce"; "rule"; "ts"; "v"].

(** The members of an object, serialized one by one. *)
Definition serialize_members (K : option (list string)) (ms : JsObject)
  : list (string * option string) :=
  map (fun kv => (fst kv, ProofGenerator.SerializeJSONProperty K (snd kv))) ms.

(** Byte order: lexicographic on the values of the bytes. *)
Fixpoint bytes_compare (x y : list byte) : comparison :=
  match x, y with
  | [], [] => Eq
  | [], _ :: _ => Lt
  | _ :: _, [] => Gt
  | a :: x', b :: y' =>
      match (Byte.to_N a ?= Byte.to_N b)%N with
      | Eq => bytes_compare x' y'
      | c => c
      end
  end.

Definition bytes_leb (x y : list byte) : bool :=
  match bytes_compare x y with
  | Gt => false
  | _ => true
  end.

(** The comparison of the two digits of [a] with the two digits of [b]. *)
Definition digits_compare (a b : byte) : comparison :=
  match (Hex.digit (Byte.to_N a / 16) ?= Hex.digit (Byte.to_N b / 16))%char with
  | Eq => (Hex.digit (Byte.to_N a mod 16) ?= Hex.digit (Byte.to_N b mod 16))%char
  | c => c
  end.

Definition every_byte : list byte :=
  flat_map (fun n => match Byte.of_N (N.of_nat n) with
                     | Some b => [b]
                     | None => []
                     end) (seq 0 256).

Definition comparison_eqb (c d : comparison) : bool :=
  match c, d with
  | Eq, Eq | Lt, Lt | Gt, Gt => true
  | _, _ => false
  end.

(** The tree of the specification.  A pair is combined by hashing the 64
    bytes made of the smaller node followed by the other one; a level pairs
    its nodes from the left and hands a last single node up unchanged; the
    root is what is left when one node remains. *)
Definition combine (a b : list byte) : list byte :=
  keccak256 (if bytes_leb a b then a ++ b else b ++ a)%list.

Fixpoint level_up (layer : list (list byte)) : list (list byte) :=
  match layer with
  | a :: b :: rest => combine a b :: level_up rest
  | _ => layer
  end.

Fixpoint root_from (fuel : nat) (layer : list (list byte)) : option (list byte) :=
  match layer with
  | [] => None
  | [root] => Some root
  | _ =>
      match fuel with
      | O => None
      | S fuel' => root_from fuel' (level_up layer)
      end
  end.

Definition merkle_root (leaves : list (list byte)) : option (list byte) :=
  root_from (List.length leaves) leaves.

(** The text of a leaf as the proofs table stores it. *)
Definition leaf_text (h : list byte) : string := "0x" ++ Hex.bytesToHex h.

Definition is_node (h : list byte) : Prop := List.length h = 32.

(** What AES-256-GCM provides with a 32-byte key and a 12-byte iv: a
    16-byte tag, and a decipher that, given that very iv, tag and
    ciphertext, returns the plaintext. *)
Definition gcm_contract : Prop :=
  forall key iv plaintext,
    List.length key = 32 -> List.length iv = 12 ->
    exists ciphertext tag,
      gcm_encrypt key iv plaintext = Some (ciphertext, tag)
      /\ List.length tag = 16
      /\ gcm_decrypt key iv tag ciphertext = Some plaintext.

(** A text without lone surrogates. *)
Definition well_formed_text (s : string) : Prop := Js.toWellFormed s = s.

(** The sequence counter of agent [A], and the nonces of its proofs in the
    order of insertion. *)
Definition agent_nonce (db : Db.Database) (A : string) : option Z :=
  option_map AgentRow.proof_nonce
    (find (fun a => String.eqb (AgentRow.id a) A) (Db.agents db)).

Definition nonces_of (db : Db.Database) (A : string) : list Z :=
  map ProofRow.nonce
    (filter (fun p => String.eqb (ProofRow.agent_id p) A) (Db.proofs db)).

(** The monthly counter of the principal [U]. *)
Definition used_by (db : Db.Database) (U : string) : option Z :=
  option_map UserRow.used_proofs_this_month
    (find (fun u => String.eqb (UserRow.id u) U) (Db.users db)).

(** How many of the calls were made by agent [A] and answered 201. *)
Fixpoint issued_to (A : string) (calls : list (Prove.Env * Prove.Request))
    (replies : list Prove.Reply) : nat :=
  match calls, replies with
  | (_, req) :: calls', reply :: replies' =>
      (if String.eqb (AgentRow.id (Prove.agent req)) A && Prove.is_created reply
       then 1 else 0) + issued_to A calls' replies'
  | _, _ => 0
  end.

End Vocabulary.

(** A small database, its agent and rule, and the requests made on it. *)
Section Samples.
#[local] Existing Instance Sample.IntegerNumbers.
#[local] Existing Instance Sample.SimpleCrypto.
Import Js.

Definition sample_keys : ProofGenerator.Keys :=
  {| ProofGenerator._privateKey := Some (repeat x01 32);
     ProofGenerator._encryptionKey := Some (repeat x02 32) |}.

(** The process when [ECDSA_PRIVATE_KEY] was not set at start. *)
Definition keys_without_signing_key : ProofGenerator.Keys :=
  {| ProofGenerator._privateKey := None;
     ProofGenerator._encryptionKey := Some (repeat x02 32) |}.

Definition sample_agent : AgentRow.t := AgentRow.mk "a1" "u1" "active" 0.

Definition sample_rule : RuleRow.t :=
  RuleRow.mk "r1" "a1"
    (JArr [JObj [("field", JStr "x"); ("op", JStr "<="); ("value", JNum (Some 5%Z))]])
    "active" "limit on x".

(** One principal, [tier] and [used] as given, with one agent and one rule. *)
Definition sample_db (tier : string) (used : Z) : Db.Database :=
  {| Db.users := [UserRow.mk "u1" tier used];
     Db.agents := [sample_agent];
     Db.rules := [sample_rule];
     Db.proofs := [] |}.

Definition sample_request (tier : string) (used : Z) : Prove.Request :=
  {| Prove.parsed := Ok {| Prove.rule_id := "r1";
                           Prove.action_data := [("x", JNum (Some 3%Z))] |};
     Prove.agent := sample_agent;
     Prove.user := UserRow.mk "u1" tier used |}.

Definition sample_env (uuid : string) (now : Z) : Prove.Env :=
  {| Prove.now := now; Prove.iv := repeat xab 12; Prove.now_end := (now + 2)%Z;
     Prove.uuid := uuid; Prove.db_now := (now / 1000)%Z |}.

(** The aggregate answer of [evaluateRule], when it returns. *)
Definition met (conditions : list Condition.t) (action : JsObject) : option bool :=
  match RuleEngine.evaluateRule conditions action with
  | Ok e => Some (RuleEngine.rule_met e)
  | Throw _ => None
  end.

(** The condition [f<i> = i] of the test on the size of a rule. *)
Definition numbered_condition (i : nat) : JsValue :=
  JObj [("field", JStr ("f" ++ show_nat i)); ("op", JStr "=");
        ("value", JNum (Some (Z.of_nat i)))].

End Samples.

Section FurtherVocabulary.
Context {N : NumberOps} {C : Crypto}.
Import Js.

(** The operator that states the contrary of [op], for the operators that
    have one among the ten. *)
Definition contrary (op : string) : option string :=
  if String.eqb op "=" then Some "!="
  else if String.eqb op "!=" then Some "="
  else if String.eqb op "<" then Some ">="
  else if String.eqb op ">=" then Some "<"
  else if String.eqb op ">" then Some "<="
  else if String.eqb op "<=" then Some ">"
  else if String.eqb op "IN" then Some "NOT IN"
  else if String.eqb op "NOT IN" then Some "IN"
  else if String.eqb op "CONTAINS" then Some "NOT CONTAINS"
  else if String.eqb op "NOT CONTAINS" then Some "CONTAINS"
  else None.

End FurtherVocabulary.

Section TextVocabulary.

(** A text of lowercase hexadecimal digits. *)
Definition is_lower_hex_digit (c : ascii) : bool :=
  let n := N_of_ascii c in
  ((48 <=? n) && (n <=? 57))%N || ((97 <=? n) && (n <=? 102))%N.

Fixpoint lower_hex (s : string) : bool :=
  match s with
  | EmptyString => true
  | String c rest => is_lower_hex_digit c && lower_hex rest
  end.

(** A text of hexadecimal digits, in either case. *)
Fixpoint all_hex (s : string) : bool :=
  match s with
  | EmptyString => true
  | String c rest =>
      match Hex.nibble c with
      | Some _ => all_hex rest
      | None => false
      end
  end.

(** A text without the byte ED, with which the three bytes of a surrogate
    start. *)
Fixpoint without_surrogates (s : string) : bool :=
  match s with
  | EmptyString => true
  | String c rest => negb (N_of_ascii c =? 237)%N && without_surrogates rest
  end.

End TextVocabulary.

Section InclusionVocabulary.
Context {C : Crypto}.

(** The node paired with the node at position [i] of a level, when there
    is one, and the inclusion path of the leaf at position [i]: the nodes
    it is paired with on the way up. *)
Fixpoint sibling (layer : list (list byte)) (i : nat) : option (list byte) :=
  match layer with
  | a :: b :: rest =>
      match i with
      | 0 => Some b
      | 1 => Some a
      | S (S j) => sibling rest j
      end
  | _ => None
  end.

Fixpoint merkle_path_from (fuel : nat) (layer : list (list byte)) (i : nat)
  : list (list byte) :=
  match layer with
  | [] | [_] => []
  | _ =>
      match fuel with
      | O => []
      | S fuel' =>
          (match sibling layer i with Some s => [s] | None => [] end
           ++ merkle_path_from fuel' (level_up layer) (Nat.div2 i))%list
      end
  end.

Definition merkle_path (leaves : list (list byte)) (i : nat) : list (list byte) :=
  merkle_path_from (List.length leaves) leaves i.

(** The last version that the owner anchored for [h] in a sequence of
    transactions. *)
Fixpoint last_anchored (owner : N) (h : list byte) (calls : list (N * list byte * N))
    (sofar : option N) : option N :=
  match calls with
  | [] => sofar
  | (sender, ruleHash, version) :: rest =>
      last_anchored owner h rest
        (if (sender =? owner)%N && Solidity.bytes32_eqb h ruleHash
         then Some version else sofar)
  end.

End InclusionVocabulary.

Section LedgerVocabulary.
Context {C : Crypto}.

(** [registerBatch] transactions executed one after the other, as
    (sender, block time, root, count, hashes): the state they lead to and
    the hash lists of those that did not revert. *)
Fixpoint register_all (s : VouchRegistry.State)
    (calls : list (N * N * list byte * N * list (list byte)))
  : VouchRegistry.State * list (list (list byte)) :=
  match calls with
  | [] => (s, [])
  | (sender, time, root, count, hashes) :: rest =>
      match VouchRegistry.registerBatch s sender time root count hashes with
      | Ok (s', _) =>
          let '(final, accepted) := register_all s' rest in
          (final, hashes :: accepted)
      | Throw _ => register_all s rest
      end
  end.

End LedgerVocabulary.

Section TableVocabulary.
Context {N : NumberOps}.

(** The tables hold what the constraints of the schema demand: proofs
    with pairwise distinct identifiers and digests, each of an agent and a
    rule that exist. *)
Definition consistent (db : Db.Database) : Prop :=
  NoDup (map ProofRow.id (Db.proofs db))
  /\ NoDup (map ProofRow.proof_hash (Db.proofs db))
  /\ Forall (fun p => In (ProofRow.agent_id p) (map AgentRow.id (Db.agents db))
                      /\ In (ProofRow.rule_id p) (map RuleRow.id (Db.rules db)))
            (Db.proofs db).

End TableVocabulary.

Section QuotaVocabulary.
Context {N : NumberOps}.

(** Users have distinct identifiers, and no free-tier user is counted more
    proofs than the free tier allows in a month. *)
Definition within_free_quota (db : Db.Database) : Prop :=
  NoDup (map UserRow.id (Db.users db))
  /\ Forall (fun u => UserRow.tier u = "free" ->
                      (UserRow.used_proofs_this_month u <= 10)%Z)
            (Db.users db).

End QuotaVocabulary.

(* ===================================================================== *)
(** * Part III.  Properties                                               *)
(* ===================================================================== *)

(** ** Rule evaluation *)

Section RuleEvaluationFacts.
Context {N : NumberOps}.
Import Js.

Lemma filter_split_length {A : Type} (f : A -> bool) (l : list A) :
  List.length l =
  List.length (filter f l) + List.length (filter (fun x => negb (f x)) l).
Proof.
  induction l as [|x l IH]; simpl; [reflexivity|].
  destruct (f x); simpl; lia.
Qed.

(** Induction on a value, with the property at hand for the elements of an
    array and the members of an object. *)
Lemma JsValue_nested_ind (P : JsValue -> Prop) :
  P JNull -> (forall b, P (JBool b)) -> (forall n, P (JNum n)) ->
  (forall s, P (JStr s)) ->
  (forall items, Forall P items -> P (JArr items)) ->
  (forall members, Forall (fun kv => P (snd kv)) members -> P (JObj members)) ->
  (forall k, P (JNative k)) ->
  forall v, P v.
Proof.
  intros Hnull Hbool Hnum Hstr Harr Hobj Hnative.
  fix IH 1. intros [|b|n|s|items|members|k].
  - exact Hnull.
  - apply Hbool.
  - apply Hnum.
  - apply Hstr.
  - apply Harr. revert items. fix IHl 1. intros [|x xs]; constructor;
      [apply IH|apply IHl].
  - apply Hobj. revert members. fix IHl 1. intros [|[k x] ms]; constructor;
      [apply IH|apply IHl].
  - apply Hnative.
Qed.

Lemma ToString_array (items : list JsValue) :
  ToString (JArr items)
  = (parts <- Array_map (fun x => match x with JNull => Ok "" | _ => ToString x end)
                        items ;;
     Ok (join "," parts)).
Proof.
  cbn [ToString]. f_equal.
  induction items as [|x items IH]; [reflexivity|].
  cbn [Array_map]. rewrite <- IH. reflexivity.
Qed.

Lemma printable_array (items : list JsValue) :
  printable (JArr items) = forallb printable items.
Proof.
  cbn [printable]. induction items as [|x items IH]; [reflexivity|].
  cbn [forallb]. rewrite <- IH. reflexivity.
Qed.

Lemma Array_map_all {A B : Type} (f : A -> Result B) (ok : A -> bool)
    (message : string) (l : list A) :
  (forall x, In x l ->
     (ok x = true -> exists y, f x = Ok y)
     /\ (ok x = false -> f x = Throw message)) ->
  (forallb ok l = true -> exists ys, Array_map f l = Ok ys)
  /\ (forallb ok l = false -> Array_map f l = Throw message).
Proof.
  induction l as [|x l IH]; intros H; cbn [forallb Array_map].
  - split; [eauto|discriminate].
  - destruct (H x (or_introl eq_refl)) as [Hx1 Hx0].
    destruct IH as [IH1 IH0]; [intros x' Hx'; apply H; right; exact Hx'|].
    destruct (ok x).
    + destruct (Hx1 eq_refl) as (y & ->). cbn [bind andb]. split.
      * intros Hl. destruct (IH1 Hl) as (ys & ->). cbn [bind]. eauto.
      * intros Hl. rewrite (IH0 Hl). reflexivity.
    + rewrite (Hx0 eq_refl). split; [discriminate|reflexivity].
Qed.

(** [String(v)] returns exactly on the printable values. *)
Lemma ToString_printable (v : JsValue) :
  (printable v = true -> exists s, ToString v = Ok s)
  /\ (printable v = false ->
      ToString v = Throw "TypeError: Cannot convert object to primitive value").
Proof.
  induction v as [|b|n|s|items IH|members _|k] using JsValue_nested_ind.
  - split; [cbn; eauto|discriminate].
  - split; [destruct b; cbn; eauto|discriminate].
  - split; [cbn; eauto|discriminate].
  - split; [cbn; eauto|discriminate].
  - rewrite ToString_array, printable_array.
    rewrite Forall_forall in IH.
    destruct (Array_map_all
                (fun x => match x with JNull => Ok "" | _ => ToString x end)
                printable "TypeError: Cannot convert object to primitive value" items)
      as [H1 H0].
    { intros x Hx. destruct (IH x Hx) as [Hx1 Hx0]. split.
      - intros Hp. destruct x; eauto.
      - intros Hp. destruct x; try discriminate; auto. }
    split.
    + intros Hp. destruct (H1 Hp) as (ys & ->). cbn [bind]. eauto.
    + intros Hp. rewrite (H0 Hp). reflexivity.
  - cbn [printable ToString]. destruct (assoc "toString" members);
      split; try discriminate; eauto.
  - split; [cbn; eauto|discriminate].
Qed.

Lemma ToNumber_printable (v : JsValue) :
  (printable v = true -> exists n, ToNumber v = Ok n)
  /\ (printable v = false ->
      ToNumber v = Throw "TypeError: Cannot convert object to primitive value").
Proof.
  destruct (ToString_printable v) as [H1 H0]. split.
  - intros Hp. destruct (H1 Hp) as (s & Es).
    destruct v as [|[]| | | | |]; cbn [ToNumber]; eauto; rewrite Es; cbn [bind]; eauto.
  - intros Hp. specialize (H0 Hp).
    destruct v; try discriminate; cbn [ToNumber]; rewrite H0; reflexivity.
Qed.

(** The comparison returns when both values are printable. *)
Lemma compare_op_returns (op : string) (actual value : JsValue) :
  printable actual = true -> printable value = true ->
  exists pass, RuleEngine.compare_op op actual value = Ok pass.
Proof.
  intros Ha Hv. unfold RuleEngine.compare_op, RuleEngine.compare_numbers.
  destruct (proj1 (ToNumber_printable actual) Ha) as (a & ->).
  destruct (proj1 (ToNumber_printable value) Hv) as (b & ->).
  destruct (proj1 (ToString_printable value) Hv) as (s & ->).
  cbn [bind].
  repeat match goal with
         | |- context [if ?c then _ else _] => destruct c; eauto
         end;
    destruct actual; eauto.
Qed.

Lemma assoc_In {A : Type} (k : string) (o : list (string * A)) (v : A) :
  assoc k o = Some v -> In (k, v) o.
Proof.
  induction o as [|[k' v'] o IH]; [discriminate|]. cbn [assoc].
  destruct (String.eqb k k') eqn:E.
  - intros H. inversion H; subst. apply String.eqb_eq in E. subst. left. reflexivity.
  - intros H. right. apply IH. exact H.
Qed.

Lemma evaluateCondition_returns (actionData : JsObject) (cond : Condition.t) :
  printable (Condition.value cond) = true ->
  (forall k v, In (k, v) actionData -> printable v = true) ->
  exists r, RuleEngine.evaluateCondition actionData cond = Ok r.
Proof.
  intros Hv Ha. unfold RuleEngine.evaluateCondition, get.
  destruct (assoc (Condition.field cond) actionData) as [actual|] eqn:E.
  - pose proof (Ha _ _ (assoc_In _ _ _ E)) as Hp.
    destruct (compare_op_returns (Condition.op cond) actual (Condition.value cond) Hp Hv)
      as (pass & Ec).
    destruct actual; eauto; rewrite Ec; cbn [bind]; eauto.
  - destruct (inherited (Condition.field cond)); [|eauto].
    destruct (compare_op_returns (Condition.op cond) (JNative (Condition.field cond))
                (Condition.value cond) eq_refl Hv) as (pass & ->).
    cbn [bind]. eauto.
Qed.

Lemma Array_map_length {A B : Type} (f : A -> Result B) (l : list A) (ys : list B) :
  Array_map f l = Ok ys -> List.length ys = List.length l.
Proof.
  revert ys. induction l as [|x l IH]; intros ys H; cbn [Array_map] in H.
  - inversion H. reflexivity.
  - destruct (f x) as [y|]; cbn [bind] in H; [|discriminate].
    destruct (Array_map f l) as [ys'|]; cbn [bind] in H; [|discriminate].
    inversion H. cbn [List.length]. rewrite (IH ys' eq_refl). reflexivity.
Qed.

Lemma Array_map_returns {A B : Type} (f : A -> Result B) (l : list A) :
  (forall x, In x l -> exists y, f x = Ok y) ->
  exists ys, Array_map f l = Ok ys.
Proof.
  induction l as [|x l IH]; intros H; cbn [Array_map]; [eauto|].
  destruct (H x (or_introl eq_refl)) as (y & ->). cbn [bind].
  destruct IH as (ys & ->); [intros x' Hx'; apply H; right; exact Hx'|].
  cbn [bind]. eauto.
Qed.

(** What [evaluateRule] returns, when it returns, is the aggregate of one
    result per condition. *)
Lemma evaluateRule_Ok (conditions : list Condition.t) (actionData : JsObject)
    (e : RuleEngine.RuleEvaluation) :
  RuleEngine.evaluateRule conditions actionData = Ok e ->
  Array_map (RuleEngine.evaluateCondition actionData) conditions
  = Ok (RuleEngine.evaluation e)
  /\ e = RuleEngine.aggregate (RuleEngine.evaluation e)
  /\ List.length (RuleEngine.evaluation e) = List.length conditions.
Proof.
  unfold RuleEngine.evaluateRule. intros H.
  destruct (Array_map _ conditions) as [results|] eqn:E; cbn [bind] in H;
    [|discriminate].
  inversion H; subst e; clear H. cbn [RuleEngine.aggregate RuleEngine.evaluation].
  repeat split. apply (Array_map_length _ _ _ E).
Qed.

(** C5.  [evaluateRule] does not return on every condition list and action
    record: comparing with '<' an action value that is an array holding an
    object with a member [toString] of its own makes [Number(actual)] throw
    a [TypeError], which leaves [evaluateRule]. *)
Theorem evaluateRule_throws_on_conversion :
  RuleEngine.evaluateRule
    [Condition.mk "x" "<" (JNum (num_of_Z 1))]
    [("x", JArr [JObj [("toString", JNum (num_of_Z 1))]])]
  = Throw "TypeError: Cannot convert object to primitive value".
Proof. reflexivity. Qed.

(** X25.  [evaluateRule] returns whenever the values of the conditions and
    of the action record are printable, and whenever it returns there is
    one result per condition, [rule_met] is true exactly when every result
    passes, a list without conditions being the exception ([rule_met] is
    false), and the summary reads "All N condition(s) passed" when the rule
    is met and "K of N condition(s) failed" otherwise, N being the number
    of conditions, K the number of failed results and the plural "s" being
    written when N exceeds one. *)
Theorem evaluateRule_met_and_summary
    (conditions : list Condition.t) (actionData : JsObject) :
  ((forall c, In c conditions -> printable (Condition.value c) = true) ->
   (forall k v, In (k, v) actionData -> printable v = true) ->
   exists e, RuleEngine.evaluateRule conditions actionData = Ok e)
  /\ forall e, RuleEngine.evaluateRule conditions actionData = Ok e ->
       let n := List.length conditions in
       let k := List.length (filter (fun r => negb (EvalResult.pass r))
                                    (RuleEngine.evaluation e)) in
       let s := if Nat.ltb 1 n then "s" else "" in
       List.length (RuleEngine.evaluation e) = n
       /\ (conditions <> [] ->
           (RuleEngine.rule_met e = true <->
            forall r, In r (RuleEngine.evaluation e) -> EvalResult.pass r = true))
       /\ (conditions = [] -> RuleEngine.rule_met e = false)
       /\ (RuleEngine.rule_met e = true ->
           RuleEngine.summary e = "All " ++ show_nat n ++ " condition" ++ s ++ " passed")
       /\ (RuleEngine.rule_met e = false ->
           RuleEngine.summary e =
             show_nat k ++ " of " ++ show_nat n ++ " condition" ++ s ++ " failed").
Proof.
  split.
  - intros Hc Ha. unfold RuleEngine.evaluateRule.
    destruct (Array_map_returns (RuleEngine.evaluateCondition actionData) conditions)
      as (results & ->); [|cbn [bind]; eauto].
    intros c Hin. apply evaluateCondition_returns; [apply Hc; exact Hin|exact Ha].
  - intros e He n k s.
    destruct (evaluateRule_Ok _ _ _ He) as (_ & Hagg & Hlen).
    set (results := RuleEngine.evaluation e) in *.
    assert (Hmet : RuleEngine.rule_met e
                   = Nat.ltb 0 n && forallb EvalResult.pass results).
    { rewrite Hagg. cbn [RuleEngine.aggregate RuleEngine.rule_met].
      fold results. rewrite Hlen. reflexivity. }
    assert (Hsum : RuleEngine.summary e =
              if RuleEngine.rule_met e
              then "All " ++ show_nat n ++ " condition" ++ s ++ " passed"
              else show_nat k ++ " of " ++ show_nat n ++ " condition" ++ s ++ " failed").
    { rewrite Hmet. rewrite Hagg at 1.
      cbn [RuleEngine.aggregate RuleEngine.summary]. fold results.
      unfold RuleEngine.plural. rewrite Hlen. fold n. fold s.
      replace (n - List.length (filter EvalResult.pass results)) with k; [reflexivity|].
      unfold k. pose proof (filter_split_length EvalResult.pass results) as Hs.
      fold n in Hlen. lia. }
    split; [exact Hlen|]. repeat split.
    + intros Hall r Hin. rewrite Hmet in Hall.
      apply andb_true_iff in Hall. destruct Hall as [_ Hall].
      rewrite forallb_forall in Hall. auto.
    + intros Hall. rewrite Hmet. apply andb_true_iff. split.
      * apply Nat.ltb_lt. unfold n. destruct conditions; [congruence|simpl; lia].
      * apply forallb_forall. exact Hall.
    + intros Hnil. rewrite Hmet. unfold n. rewrite Hnil. reflexivity.
    + intros Ht. rewrite Hsum, Ht. reflexivity.
    + intros Hf. rewrite Hsum, Hf. reflexivity.
Qed.

Lemma get_own (o : JsObject) (k : string) (v : JsValue) :
  assoc k o = Some v -> get o k = Some v.
Proof. unfold get. intros ->. reflexivity. Qed.

(** Strict equality is equality of type and value on the booleans, numbers
    and strings, and is false as soon as one side is of another kind (null
    against null apart). *)
Lemma strict_equals_scalar (a b : JsValue) :
  a <> JNull ->
  strict_equals a b = scalar a && same_type_and_value a b.
Proof. intros Hn. destruct a, b; try reflexivity. congruence. Qed.

(** C6.  For a condition whose field the action record holds (with a value
    other than null), both operators return a result; '=' passes exactly
    when the actual value is a boolean, a number or a string and the
    condition's value has the same type and the same value, and '!='
    passes exactly when '=' does not.  No conversion takes place: a string
    never equals a number.  An actual value that is an array or an object
    never passes '=', whatever the condition's value. *)
Theorem evaluateCondition_strict_equality
    (actionData : JsObject) (field : string) (value actual : JsValue) :
  assoc field actionData = Some actual ->
  actual <> JNull ->
  exists r r',
    RuleEngine.evaluateCondition actionData (Condition.mk field "=" value) = Ok r
    /\ RuleEngine.evaluateCondition actionData (Condition.mk field "!=" value) = Ok r'
    /\ EvalResult.actual r = actual /\ EvalResult.actual r' = actual
    /\ EvalResult.pass r = scalar actual && same_type_and_value actual value
    /\ EvalResult.pass r' = negb (EvalResult.pass r)
    /\ (forall s n, actual = JStr s -> value = JNum n -> EvalResult.pass r = false)
    /\ (forall s n, actual = JNum n -> value = JStr s -> EvalResult.pass r = false)
    /\ (scalar actual = false ->
        EvalResult.pass r = false /\ EvalResult.pass r' = true).
Proof.
  intros Hown Hpresent.
  assert (E1 : RuleEngine.evaluateCondition actionData (Condition.mk field "=" value)
               = Ok (EvalResult.mk field "=" value actual (strict_equals actual value))).
  { unfold RuleEngine.evaluateCondition.
    cbn [Condition.field Condition.op Condition.value].
    rewrite (get_own _ _ _ Hown). destruct actual; try reflexivity. congruence. }
  assert (E2 : RuleEngine.evaluateCondition actionData (Condition.mk field "!=" value)
               = Ok (EvalResult.mk field "!=" value actual
                       (negb (strict_equals actual value)))).
  { unfold RuleEngine.evaluateCondition.
    cbn [Condition.field Condition.op Condition.value].
    rewrite (get_own _ _ _ Hown). destruct actual; try reflexivity. congruence. }
  eexists. eexists. split; [exact E1|]. split; [exact E2|].
  cbn [EvalResult.actual EvalResult.pass].
  rewrite (strict_equals_scalar actual value Hpresent).
  split; [reflexivity|]. split; [reflexivity|]. split; [reflexivity|].
  split; [reflexivity|].
  split; [intros s n -> ->; reflexivity|].
  split; [intros s n -> ->; reflexivity|].
  intros ->. split; reflexivity.
Qed.

(** A field that is neither an own property nor a name of
    [Object.prototype], or that holds null, fails with [actual = null]. *)
Lemma evaluateCondition_missing (actionData : JsObject) (cond : Condition.t) :
  (assoc (Condition.field cond) actionData = None
   /\ inherited (Condition.field cond) = false)
  \/ assoc (Condition.field cond) actionData = Some JNull ->
  exists r, RuleEngine.evaluateCondition actionData cond = Ok r
            /\ EvalResult.pass r = false /\ EvalResult.actual r = JNull.
Proof.
  intros H. unfold RuleEngine.evaluateCondition, get.
  destruct H as [[H1 H2]|H1]; rewrite H1; [rewrite H2|]; eexists; repeat split.
Qed.

(** A field the record does not hold but [Object.prototype] defines is
    read as the inherited member: under '!=' the condition passes. *)
Lemma evaluateCondition_inherited (actionData : JsObject) (cond : Condition.t) :
  assoc (Condition.field cond) actionData = None ->
  inherited (Condition.field cond) = true ->
  Condition.op cond = "!=" ->
  exists r, RuleEngine.evaluateCondition actionData cond = Ok r
            /\ EvalResult.pass r = true
            /\ EvalResult.actual r = JNative (Condition.field cond).
Proof.
  intros Hown Hin Hop. unfold RuleEngine.evaluateCondition, get.
  rewrite Hown, Hin, Hop. unfold RuleEngine.compare_op.
  change (String.eqb "!=" "=") with false. change (String.eqb "!=" "!=") with true.
  cbn iota. cbn [bind]. eexists. repeat split.
Qed.

End RuleEvaluationFacts.

Section RuleEvaluationRuns.
#[local] Existing Instance Sample.IntegerNumbers.
Import Js.

(** C6, at an input: the action holds the string "1"; the rule that asks
    for the number 1 is not met, the rule that asks for the string "1"
    is. *)
Lemma evaluateCondition_strict_equality_witness :
  assoc "x" [("x", JStr "1")] = Some (JStr "1")
  /\ JStr "1" <> JNull
  /\ (exists r,
        RuleEngine.evaluateCondition [("x", JStr "1")]
          (Condition.mk "x" "=" (JNum (Some 1%Z))) = Ok r
        /\ EvalResult.pass r = false)
  /\ (exists r,
        RuleEngine.evaluateCondition [("x", JStr "1")]
          (Condition.mk "x" "=" (JStr "1")) = Ok r
        /\ EvalResult.pass r = true).
Proof.
  assert (Hpresent : JStr "1" <> JNull) by discriminate.
  split; [reflexivity|]. split; [exact Hpresent|]. split.
  - destruct (@evaluateCondition_strict_equality Sample.IntegerNumbers
                [("x", JStr "1")] "x" (JNum (num_of_Z 1)) (JStr "1") eq_refl Hpresent)
      as (r & r' & Hr & _ & _ & _ & _ & _ & H & _).
    exists r. split; [exact Hr|].
    exact (H "1" (Some 1%Z) eq_refl eq_refl).
  - destruct (@evaluateCondition_strict_equality Sample.IntegerNumbers
                [("x", JStr "1")] "x" (JStr "1") (JStr "1") eq_refl Hpresent)
      as (r & r' & Hr & _ & _ & _ & Hpass & _).
    exists r. split; [exact Hr|]. rewrite Hpass. reflexivity.
Defined.

(** C6, where the claim fails: the action holds the array [1] and the rule
    asks for the array [1]; the two have the same type and the same value,
    yet '=' does not pass and '!=' does. *)
Lemma equal_arrays_are_not_strictly_equal :
  same_type_and_value (JArr [JNum (Some 1%Z)]) (JArr [JNum (Some 1%Z)]) = true
  /\ option_map EvalResult.pass
       (match RuleEngine.evaluateCondition [("x", JArr [JNum (Some 1%Z)])]
                (Condition.mk "x" "=" (JArr [JNum (Some 1%Z)])) with
        | Ok r => Some r | Throw _ => None end) = Some false
  /\ option_map EvalResult.pass
       (match RuleEngine.evaluateCondition [("x", JArr [JNum (Some 1%Z)])]
                (Condition.mk "x" "!=" (JArr [JNum (Some 1%Z)])) with
        | Ok r => Some r | Throw _ => None end) = Some true.
Proof. repeat split. Qed.

(** X25, at an input: one failing condition out of two. *)
Lemma evaluateRule_met_and_summary_witness :
  let conditions := [Condition.mk "slippage_pct" "<=" (JNum (Some 5%Z));
                     Condition.mk "pool_tvl" ">" (JNum (Some 50000%Z))] in
  let action := [("slippage_pct", JNum (Some 8%Z));
                 ("pool_tvl", JNum (Some 2100000%Z))] in
  exists e, RuleEngine.evaluateRule conditions action = Ok e
            /\ RuleEngine.rule_met e = false
            /\ RuleEngine.summary e = "1 of 2 conditions failed".
Proof.
  intros conditions action.
  destruct (RuleEngine.evaluateRule conditions action) as [e|m] eqn:E;
    [|vm_compute in E; discriminate].
  assert (Hmet : RuleEngine.rule_met e = false)
    by (vm_compute in E; inversion E; reflexivity).
  exists e. split; [reflexivity|]. split; [exact Hmet|].
  destruct (proj2 (evaluateRule_met_and_summary conditions action) e E)
    as (_ & _ & _ & _ & H).
  rewrite (H Hmet). vm_compute in E. inversion E. reflexivity.
Defined.

(** C10.  The field "constructor" is absent from the action record
    [{a: 1}], yet the condition [constructor != "x"] passes, with the
    inherited member as its actual value, and the rule is met. *)
Theorem evaluateRule_inherited_member_passes :
  assoc "constructor" [("a", JNum (Some 1%Z))] = None
  /\ exists e,
       RuleEngine.evaluateRule
         [Condition.mk "constructor" "!=" (JStr "x")]
         [("a", JNum (Some 1%Z))] = Ok e
       /\ map EvalResult.pass (RuleEngine.evaluation e) = [true]
       /\ map EvalResult.actual (RuleEngine.evaluation e) = [JNative "constructor"]
       /\ RuleEngine.rule_met e = true.
Proof. split; [reflexivity|]. eexists. repeat split. Qed.

End RuleEvaluationRuns.

(** ** Validation of a condition list *)

Section ValidationFacts.
Context {N : NumberOps}.
Import Js.

Lemma field_check (c : JsValue) :
  negb (truthy (member c "field"))
  || negb (String.eqb (typeof (member c "field")) "string") = false
  <-> field_ok c.
Proof.
  unfold field_ok.
  destruct (member c "field") as [v|] eqn:E.
  - destruct v; simpl;
      try (split; [try discriminate; rewrite ?orb_true_r; discriminate
                  | intros (s & Hs & _); discriminate]).
    + rewrite orb_false_r, negb_involutive. split.
      * intros H. exists s. split; [reflexivity|].
        intros ->. discriminate.
      * intros (s' & Hs & Hne). inversion Hs; subst s'.
        apply String.eqb_neq. exact Hne.
    + destruct (String.eqb name "__proto__"); simpl; split;
        try discriminate; intros (s & Hs & _); discriminate.
  - simpl. split; [discriminate|]. intros (s & Hs & _). discriminate.
Qed.

Lemma existsb_eqb_In (s : string) (l : list string) :
  existsb (String.eqb s) l = true <-> In s l.
Proof.
  rewrite existsb_exists. split.
  - intros (x & Hin & Heq). apply String.eqb_eq in Heq. subst. exact Hin.
  - intros Hin. exists s. split; [exact Hin|apply String.eqb_refl].
Qed.

Lemma operator_check (c : JsValue) :
  RuleEngine.VALID_OPS_has (member c "op") = true <-> operator_ok c.
Proof.
  unfold operator_ok, RuleEngine.VALID_OPS_has.
  destruct (member c "op") as [[]|];
    try (split; [discriminate|intros (s' & Hs & _); discriminate]).
  rewrite existsb_eqb_In. split.
  - intros H. exists s. auto.
  - intros (s' & Hs & Hin). inversion Hs; subst. exact Hin.
Qed.

Lemma value_check (c : JsValue) :
  match member c "value" with None => true | Some _ => false end = false
  <-> value_present c.
Proof.
  unfold value_present. destruct (member c "value").
  - split; [eauto|reflexivity].
  - split; [discriminate|]. intros (v & Hv). discriminate.
Qed.

Lemma is_str_true (x : option JsValue) (lit : string) :
  RuleEngine.is_str x lit = true <-> x = Some (JStr lit).
Proof.
  unfold RuleEngine.is_str. destruct x as [[]|]; try (split; discriminate).
  rewrite String.eqb_eq. split; [congruence|]. intros H; inversion H; reflexivity.
Qed.

Lemma list_check (c : JsValue) :
  (RuleEngine.is_str (member c "op") "IN" || RuleEngine.is_str (member c "op") "NOT IN")
  && negb (isArray (member c "value")) = false
  <-> list_ok c.
Proof.
  unfold list_ok.
  rewrite andb_false_iff, orb_false_iff, negb_false_iff. split.
  - intros [[H1 H2]|H] Hop.
    + destruct Hop as [Hop|Hop]; apply is_str_true in Hop; congruence.
    + destruct (member c "value") as [[]|]; try discriminate. eauto.
  - intros H.
    destruct (RuleEngine.is_str (member c "op") "IN") eqn:E1.
    { right. apply is_str_true in E1. destruct (H (or_introl E1)) as (items & ->).
      reflexivity. }
    destruct (RuleEngine.is_str (member c "op") "NOT IN") eqn:E2.
    { right. apply is_str_true in E2. destruct (H (or_intror E2)) as (items & ->).
      reflexivity. }
    left. split; reflexivity.
Qed.

Lemma existsb_is_str (x : option JsValue) (l : list string) :
  existsb (RuleEngine.is_str x) l = true <->
  exists s, x = Some (JStr s) /\ In s l.
Proof.
  rewrite existsb_exists. split.
  - intros (s & Hin & Hs). apply is_str_true in Hs. eauto.
  - intros (s & Hs & Hin). exists s. split; [exact Hin|].
    apply is_str_true. exact Hs.
Qed.

Lemma number_check (c : JsValue) :
  existsb (RuleEngine.is_str (member c "op")) ["<"; "<="; ">"; ">="]
  && negb (String.eqb (typeof (member c "value")) "number") = false
  <-> number_ok c.
Proof.
  unfold number_ok.
  rewrite andb_false_iff, negb_false_iff. split.
  - intros [H|H] Hop.
    + apply existsb_is_str in Hop. congruence.
    + destruct (member c "value") as [[]|]; try discriminate; eauto.
      simpl in H. destruct (String.eqb name "__proto__"); discriminate.
  - intros H.
    destruct (existsb (RuleEngine.is_str (member c "op")) ["<"; "<="; ">"; ">="]) eqn:E.
    + right. apply existsb_is_str in E. destruct (H E) as (n & ->). reflexivity.
    + left. reflexivity.
Qed.

Lemma join_VALID_OPS :
  join ", " RuleEngine.VALID_OPS
  = "=, !=, <, <=, >, >=, IN, NOT IN, CONTAINS, NOT CONTAINS".
Proof. reflexivity. Qed.

(** One turn of the loop: it goes on exactly on a well-formed condition;
    on another one it returns the message of the first violation, unless
    printing an unknown operator throws. *)
Lemma check_condition_spec (i : nat) (c : JsValue) :
  c <> JNull ->
  (RuleEngine.check_condition i c = None /\ well_formed c)
  \/ (exists msg, RuleEngine.check_condition i c = Some (RuleEngine.Invalid msg)
                  /\ first_violation i c msg /\ ~ well_formed c)
  \/ (RuleEngine.check_condition i c = Some RuleEngine.TypeError
      /\ ~ well_formed c /\ field_ok c
      /\ exists op, member c "op" = Some op /\ printable op = false).
Proof.
  intros Hnn.
  assert (Hbody : RuleEngine.check_condition i c =
    if negb (truthy (member c "field"))
       || negb (String.eqb (typeof (member c "field")) "string") then
      Some (RuleEngine.Invalid
              ("Condition " ++ show_nat i ++ ": 'field' must be a non-empty string"))
    else if negb (RuleEngine.VALID_OPS_has (member c "op")) then
      Some (RuleEngine.invalid
              (op <- template (member c "op") ;;
               Ok ("Condition " ++ show_nat i ++ ": invalid operator '" ++ op
                   ++ "'. Valid: " ++ join ", " RuleEngine.VALID_OPS)))
    else if match member c "value" with None => true | Some _ => false end then
      Some (RuleEngine.Invalid ("Condition " ++ show_nat i ++ ": 'value' is required"))
    else if (RuleEngine.is_str (member c "op") "IN"
             || RuleEngine.is_str (member c "op") "NOT IN")
            && negb (isArray (member c "value")) then
      Some (RuleEngine.invalid
              (op <- template (member c "op") ;;
               Ok ("Condition " ++ show_nat i ++ ": '" ++ op
                   ++ "' operator requires an array value")))
    else if existsb (RuleEngine.is_str (member c "op")) ["<"; "<="; ">"; ">="]
            && negb (String.eqb (typeof (member c "value")) "number") then
      Some (RuleEngine.invalid
              (op <- template (member c "op") ;;
               Ok ("Condition " ++ show_nat i ++ ": '" ++ op
                   ++ "' operator requires a numeric value")))
    else None).
  { destruct c; try reflexivity. congruence. }
  rewrite Hbody, join_VALID_OPS. clear Hbody.
  destruct (negb (truthy (member c "field"))
            || negb (String.eqb (typeof (member c "field")) "string")) eqn:E1.
  { right. left. eexists. split; [reflexivity|].
    assert (~ field_ok c) by (rewrite <- field_check; congruence).
    split; [apply bad_field; assumption|]. unfold well_formed. tauto. }
  apply field_check in E1.
  destruct (RuleEngine.VALID_OPS_has (member c "op")) eqn:E2; cbn [negb].
  2:{ assert (Hop : ~ operator_ok c) by (rewrite <- operator_check; congruence).
      assert (Hwf : ~ well_formed c) by (unfold well_formed; tauto).
      destruct (template (member c "op")) as [text|m] eqn:Et; cbn [bind RuleEngine.invalid].
      - right. left. eexists. split; [reflexivity|].
        split; [apply (bad_operator i c text); assumption|exact Hwf].
      - right. right. split; [reflexivity|]. split; [exact Hwf|]. split; [exact E1|].
        unfold template in Et. destruct (member c "op") as [op|]; [|discriminate].
        exists op. split; [reflexivity|].
        destruct (printable op) eqn:Hp; [|reflexivity].
        destruct (proj1 (ToString_printable op) Hp) as (s & Es). congruence. }
  apply operator_check in E2.
  destruct E2 as (op & Hop & Hin).
  assert (E2 : operator_ok c) by (exists op; auto).
  assert (Et : template (member c "op") = Ok op) by (rewrite Hop; reflexivity).
  rewrite Et. cbn [bind RuleEngine.invalid].
  destruct (match member c "value" with None => true | Some _ => false end) eqn:E3.
  { right. left. eexists. split; [reflexivity|].
    assert (~ value_present c) by (rewrite <- value_check; congruence).
    split; [apply no_value; assumption|]. unfold well_formed. tauto. }
  apply value_check in E3.
  destruct ((RuleEngine.is_str (member c "op") "IN"
             || RuleEngine.is_str (member c "op") "NOT IN")
            && negb (isArray (member c "value"))) eqn:E4.
  { right. left. eexists. split; [reflexivity|].
    assert (~ list_ok c) by (rewrite <- list_check; congruence).
    split; [apply (not_a_list i c op); assumption|]. unfold well_formed. tauto. }
  apply list_check in E4.
  destruct (existsb (RuleEngine.is_str (member c "op")) ["<"; "<="; ">"; ">="]
            && negb (String.eqb (typeof (member c "value")) "number")) eqn:E5.
  { right. left. eexists. split; [reflexivity|].
    assert (~ number_ok c) by (rewrite <- number_check; congruence).
    split; [apply (not_a_number i c op); assumption|]. unfold well_formed. tauto. }
  apply number_check in E5.
  left. split; [reflexivity|]. unfold well_formed. tauto.
Qed.





Lemma JsValue_null_dec (c : JsValue) : c = JNull \/ c <> JNull.
Proof. destruct c; [left; reflexivity|right; discriminate ..]. Qed.

Lemma null_is_ill_formed : ~ well_formed JNull.
Proof. intros ((s & H & _) & _). discriminate. Qed.

Lemma unprintable_operator_is_unknown (c op : JsValue) :
  member c "op" = Some op -> printable op = false -> ~ operator_ok c.
Proof. intros E Hp (s & Hs & _). rewrite E in Hs. inversion Hs; subst. discriminate. Qed.

Lemma check_from_TypeError (cs : list JsValue) (i : nat) :
  RuleEngine.check_from i cs = RuleEngine.TypeError
  <-> exists pre c post,
        cs = (pre ++ c :: post)%list /\ Forall well_formed pre
        /\ (c = JNull
            \/ (field_ok c
                /\ exists op, member c "op" = Some op /\ printable op = false)).
Proof.
  revert i. induction cs as [|c cs IH]; intros i; cbn [RuleEngine.check_from].
  - split; [discriminate|]. intros (pre & c & post & H & _).
    destruct pre; discriminate.
  - destruct (JsValue_null_dec c) as [->|Hc].
    + cbn [RuleEngine.check_condition]. split; [|reflexivity].
      intros _. exists [], JNull, cs. split; [reflexivity|]. split; [constructor|].
      left. reflexivity.
    + destruct (check_condition_spec i c Hc)
        as [[E W]|[(msg & E & _ & W)|(E & W & Hf & op & Eop & Hp)]]; rewrite E.
      * rewrite IH. split.
        -- intros (pre & c' & post & -> & Hpre & Hc'). exists (c :: pre), c', post.
           split; [reflexivity|]. split; [constructor; assumption|exact Hc'].
        -- intros (pre & c' & post & H & Hpre & Hc'). destruct pre as [|p pre].
           ++ inversion H; subst c' post. exfalso.
              destruct Hc' as [->|(_ & op & Eop & Hp)]; [congruence|].
              destruct W as (_ & Wop & _).
              exact (unprintable_operator_is_unknown c op Eop Hp Wop).
           ++ inversion H; subst. inversion Hpre; subst. eauto 8.
      * split; [discriminate|]. intros (pre & c' & post & H & Hpre & Hc').
        destruct pre as [|p pre]; inversion H; subst.
        -- destruct Hc' as [->|(Hf & op & Eop & Hp)]; [congruence|].
           destruct (RuleEngine.check_condition i c') eqn:Echeck; [|discriminate].
           inversion E; subst.
           destruct (check_condition_spec i c' Hc)
             as [[E' _]|[(msg' & E' & V & _)|(E' & _)]]; try congruence.
           pose proof (unprintable_operator_is_unknown c' op Eop Hp) as Hno.
           inversion V; subst; try contradiction.
           match goal with
           | Ht : template _ = Ok _ |- _ =>
               unfold template in Ht; rewrite Eop in Ht;
               rewrite (proj2 (ToString_printable op) Hp) in Ht; discriminate
           end.
        -- inversion Hpre; contradiction.
      * split; [|reflexivity]. intros _. exists [], c, cs.
        split; [reflexivity|]. split; [constructor|]. right. eauto.
Qed.

(** X6.  [validateConditions] raises a [TypeError] in exactly these
    situations: the list has between 1 and 20 entries and its first entry
    that is not well formed either is null, or has a proper field and an
    operator that cannot be converted to text (an object with a member
    [toString] of its own, or an array holding one).  On every other input
    it returns an answer. *)
Theorem validateConditions_raises_exactly (conditions : JsValue) :
  RuleEngine.validateConditions conditions = RuleEngine.TypeError
  <-> exists pre c post,
        conditions = JArr (pre ++ c :: post)%list
        /\ List.length (pre ++ c :: post)%list <= 20
        /\ Forall well_formed pre
        /\ (c = JNull
            \/ (field_ok c
                /\ exists op, member c "op" = Some op /\ printable op = false)).
Proof.
  unfold RuleEngine.validateConditions. destruct conditions as [| | | |cs| |];
    try (split; [discriminate|intros (pre & c & post & H & _); discriminate]).
  destruct (Nat.eqb (List.length cs) 0) eqn:E0.
  { split; [discriminate|]. intros (pre & c & post & H & _). inversion H; subst.
    apply Nat.eqb_eq in E0. rewrite length_app in E0. simpl in E0. lia. }
  destruct (Nat.ltb 20 (List.length cs)) eqn:E20.
  { split; [discriminate|]. intros (pre & c & post & H & Hlen & _). inversion H; subst.
    apply Nat.ltb_lt in E20. lia. }
  apply Nat.ltb_ge in E20. rewrite check_from_TypeError. split.
  - intros (pre & c & post & -> & Hpre & Hc). exists pre, c, post.
    repeat split; assumption.
  - intros (pre & c & post & H & _ & Hpre & Hc). inversion H; subst. eauto 8.
Qed.

(** A null entry makes the call raise instead of answering, and so does an
    unknown operator that is an object with a member [toString]. *)
Lemma validateConditions_null_entry :
  RuleEngine.validateConditions (JArr [JNull]) = RuleEngine.TypeError
  /\ RuleEngine.validateConditions
       (JArr [JObj [("field", JStr "x");
                    ("op", JObj [("toString", JNum (num_of_Z 1))]);
                    ("value", JNum (num_of_Z 1))]])
     = RuleEngine.TypeError.
Proof. split; reflexivity. Qed.

End ValidationFacts.

Section ValidationRuns.
#[local] Existing Instance Sample.ExtendedNumbers.
Import Js.


End ValidationRuns.

(** ** The canonical payload *)

Section PayloadFacts.
Context {N : NumberOps} {C : Crypto}.
Import Js.

Lemma payload_keys_sorted (agentId ruleId : string) (conditions : list Condition.t)
    (actionData : JsObject) (evaluation : list EvalResult.t) (ruleMet : bool)
    (nonce : number) (now : Z) :
  ProofGenerator.sort
    (map fst (ProofGenerator.payload agentId ruleId conditions actionData
                                     evaluation ruleMet nonce now))
  = payload_keys.
Proof. reflexivity. Qed.

Lemma serialize_object (K : list string) (ms : JsObject) :
  ProofGenerator.SerializeJSONProperty (Some K) (JObj ms)
  = Some ("{" ++ join "," (ProofGenerator.emit_members K (serialize_members (Some K) ms))
          ++ "}").
Proof.
  assert (G : (fix go (l : list (string * JsValue)) : list (string * option string) :=
                 match l with
                 | [] => []
                 | (k, x) :: rest =>
                     (k, ProofGenerator.SerializeJSONProperty (Some K) x) :: go rest
                 end) ms = serialize_members (Some K) ms).
  { induction ms as [|[k v] ms IH]; [reflexivity|].
    rewrite IH. reflexivity. }
  cbn [ProofGenerator.SerializeJSONProperty]. rewrite G. reflexivity.
Qed.

Lemma assoc_serialize_members (K : option (list string)) (ms : JsObject) (k : string) :
  assoc k ms = None -> assoc k (serialize_members K ms) = None.
Proof.
  induction ms as [|[k' v] ms IH]; simpl; [reflexivity|].
  destruct (String.eqb k k'); [discriminate|exact IH].
Qed.

Lemma emit_members_none (K : list string) (o : list (string * option string)) :
  (forall k, In k K -> assoc k o = None) ->
  ProofGenerator.emit_members K o = [].
Proof.
  induction K as [|k K IH]; intros H; simpl; [reflexivity|].
  rewrite (H k (or_introl eq_refl)). apply IH.
  intros k' Hk'. apply H. right. exact Hk'.
Qed.

(** A condition and an evaluation result have no member named like a
    payload key: each serializes to the empty object. *)
Lemma condition_serialized (c : Condition.t) :
  ProofGenerator.SerializeJSONProperty (Some payload_keys)
    (ProofGenerator.condition_value c) = Some "{}".
Proof. reflexivity. Qed.

Lemma eval_result_serialized (r : EvalResult.t) :
  ProofGenerator.SerializeJSONProperty (Some payload_keys)
    (ProofGenerator.eval_result_value r) = Some "{}".
Proof. reflexivity. Qed.

Lemma action_serialized (actionData : JsObject) :
  (forall k, In k payload_keys -> assoc k actionData = None) ->
  ProofGenerator.SerializeJSONProperty (Some payload_keys) (JObj actionData)
  = Some "{}".
Proof.
  intros H. rewrite serialize_object, emit_members_none; [reflexivity|].
  intros k Hk. apply assoc_serialize_members. apply H. exact Hk.
Qed.

Lemma map_const_repeat {A B : Type} (f : A -> B) (b : B) (l : list A) :
  (forall a, f a = b) -> map f l = repeat b (List.length l).
Proof.
  intros H. induction l as [|a l IH]; simpl; [reflexivity|].
  rewrite H, IH. reflexivity.
Qed.

(** The text [buildProofPayload] returns when no member of the action
    record is named like a payload key: of the conditions and of the
    evaluation only the number of entries is left, of the action record
    nothing. *)
Lemma buildProofPayload_text (agentId ruleId : string) (conditions : list Condition.t)
    (actionData : JsObject) (evaluation : list EvalResult.t) (ruleMet : bool)
    (nonce : number) (now : Z) :
  (forall k, In k payload_keys -> assoc k actionData = None) ->
  ProofGenerator.buildProofPayload agentId ruleId conditions actionData evaluation
                                   ruleMet nonce now
  = "{" ++ join ","
      [ ProofGenerator.quote "action" ++ ":" ++ "{}";
        ProofGenerator.quote "agent" ++ ":" ++ ProofGenerator.quote agentId;
        ProofGenerator.quote "conditions" ++ ":"
          ++ "[" ++ join "," (repeat "{}" (List.length conditions)) ++ "]";
        ProofGenerator.quote "eval" ++ ":"
          ++ "[" ++ join "," (repeat "{}" (List.length evaluation)) ++ "]";
        ProofGenerator.quote "met" ++ ":" ++ (if ruleMet then "true" else "false");
        ProofGenerator.quote "nonce" ++ ":"
          ++ (if num_isFinite nonce then num_toString nonce else "null");
        ProofGenerator.quote "rule" ++ ":" ++ ProofGenerator.quote ruleId;
        ProofGenerator.quote "ts" ++ ":"
          ++ (if num_isFinite (num_of_Z (now / 1000))
              then num_toString (num_of_Z (now / 1000)) else "null");
        ProofGenerator.quote "v" ++ ":"
          ++ (if num_isFinite (num_of_Z 1) then num_toString (num_of_Z 1) else "null") ]
     ++ "}".
Proof.
  intros Hkeys.
  unfold ProofGenerator.buildProofPayload, ProofGenerator.JSON_stringify.
  rewrite payload_keys_sorted, serialize_object.
  unfold ProofGenerator.payload, serialize_members.
  cbn [map fst snd].
  rewrite (action_serialized actionData Hkeys).
  assert (Hc : ProofGenerator.SerializeJSONProperty (Some payload_keys)
                 (JArr (map ProofGenerator.condition_value conditions))
               = Some ("[" ++ join "," (repeat "{}" (List.length conditions)) ++ "]")).
  { cbn [ProofGenerator.SerializeJSONProperty]. rewrite map_map.
    rewrite (map_const_repeat _ "{}"); [reflexivity|].
    intros c. rewrite condition_serialized. reflexivity. }
  assert (He : ProofGenerator.SerializeJSONProperty (Some payload_keys)
                 (JArr (map ProofGenerator.eval_result_value evaluation))
               = Some ("[" ++ join "," (repeat "{}" (List.length evaluation)) ++ "]")).
  { cbn [ProofGenerator.SerializeJSONProperty]. rewrite map_map.
    rewrite (map_const_repeat _ "{}"); [reflexivity|].
    intros r. rewrite eval_result_serialized. reflexivity. }
  rewrite Hc, He.
  destruct ruleMet; reflexivity.
Qed.

(** The payload is a function of its inputs and of the clock. *)
Lemma buildProofPayload_deterministic (agentId ruleId : string)
    (conditions : list Condition.t) (actionData : JsObject)
    (evaluation : list EvalResult.t) (ruleMet : bool) (nonce : number) (now now' : Z) :
  (now / 1000 = now' / 1000)%Z ->
  ProofGenerator.buildProofPayload agentId ruleId conditions actionData evaluation
                                   ruleMet nonce now
  = ProofGenerator.buildProofPayload agentId ruleId conditions actionData evaluation
                                     ruleMet nonce now'.
Proof.
  intros H. unfold ProofGenerator.buildProofPayload, ProofGenerator.payload.
  rewrite H. reflexivity.
Qed.

End PayloadFacts.

Section PayloadRuns.
#[local] Existing Instance Sample.IntegerNumbers.
#[local] Existing Instance Sample.SimpleCrypto.
Import Js.

(** C1.  The payload built for the rule [x <= 5] on the action [{x: 3}]
    holds neither the action's entry nor any member of the condition or of
    its evaluation result, and a different rule on a different action
    yields the same bytes. *)
Theorem buildProofPayload_omits_nested_inputs :
  let q := ProofGenerator.quote in
  let built :=
    ProofGenerator.buildProofPayload "a1" "r1"
      [Condition.mk "x" "<=" (JNum (Some 5%Z))]
      [("x", JNum (Some 3%Z))]
      [EvalResult.mk "x" "<=" (JNum (Some 5%Z)) (JNum (Some 3%Z)) true]
      true (Some 1%Z) 1700000000123 in
  built = "{" ++ q "action" ++ ":{}," ++ q "agent" ++ ":" ++ q "a1" ++ ","
          ++ q "conditions" ++ ":[{}]," ++ q "eval" ++ ":[{}],"
          ++ q "met" ++ ":true," ++ q "nonce" ++ ":1,"
          ++ q "rule" ++ ":" ++ q "r1" ++ "," ++ q "ts" ++ ":1700000000,"
          ++ q "v" ++ ":1}"
  /\ built =
     ProofGenerator.buildProofPayload "a1" "r1"
       [Condition.mk "y" "CONTAINS" (JStr "z")]
       [("y", JStr "w")]
       [EvalResult.mk "y" "CONTAINS" (JStr "z") (JStr "w") false]
       true (Some 1%Z) 1700000000123.
Proof. split; reflexivity. Qed.

End PayloadRuns.

(** ** Hexadecimal text *)

Section HexFacts.

(** Decoding the two digits of a byte gives the byte back. *)
Lemma decode_encoded_byte (b : byte) :
  Hex.nibble (Hex.digit (Byte.to_N b / 16)) = Some (Byte.to_N b / 16)%N
  /\ Hex.nibble (Hex.digit (Byte.to_N b mod 16)) = Some (Byte.to_N b mod 16)%N
  /\ Hex.byte_of_nibbles (Byte.to_N b / 16) (Byte.to_N b mod 16) = b.
Proof. destruct b; repeat split. Qed.

Lemma noble_hexToBytes_bytesToHex (bs : list byte) :
  Hex.noble_hexToBytes (Hex.bytesToHex bs) = Ok bs.
Proof.
  induction bs as [|b bs IH]; [reflexivity|].
  destruct (decode_encoded_byte b) as (H1 & H2 & H3).
  cbn [Hex.bytesToHex Hex.noble_hexToBytes]. rewrite H1, H2, IH. cbn [bind].
  rewrite H3. reflexivity.
Qed.

(** The second digit of a byte is not the letter x. *)
Lemma bytesToHex_no_prefix (bs : list byte) :
  String.prefix "0x" (Hex.bytesToHex bs) = false.
Proof.
  destruct bs as [|b bs]; [reflexivity|].
  cbn [Hex.bytesToHex String.prefix].
  destruct (ascii_dec _ _); [|reflexivity].
  destruct b; try reflexivity.
Qed.

Lemma hexToBytes_bytesToHex (bs : list byte) :
  Hex.hexToBytes (Hex.bytesToHex bs) = Ok bs.
Proof.
  unfold Hex.hexToBytes. rewrite bytesToHex_no_prefix.
  apply noble_hexToBytes_bytesToHex.
Qed.

Lemma Buffer_from_hex_bytesToHex (bs : list byte) :
  Hex.Buffer_from_hex (Hex.bytesToHex bs) = bs.
Proof.
  induction bs as [|b bs IH]; [reflexivity|].
  destruct (decode_encoded_byte b) as (H1 & H2 & H3).
  cbn [Hex.bytesToHex Hex.Buffer_from_hex]. rewrite H1, H2, IH, H3. reflexivity.
Qed.

Lemma bytesToHex_length (bs : list byte) :
  String.length (Hex.bytesToHex bs) = 2 * List.length bs.
Proof. induction bs as [|b bs IH]; simpl; [reflexivity|]. rewrite IH. lia. Qed.

Lemma in_every_byte (b : byte) : In b every_byte.
Proof.
  unfold every_byte. apply in_flat_map.
  exists (N.to_nat (Byte.to_N b)). split.
  - apply in_seq. pose proof (Byte.to_N_bounded b). lia.
  - rewrite N2Nat.id, Byte.of_to_N. left. reflexivity.
Qed.

Lemma digits_compare_table :
  forallb (fun a =>
    forallb (fun b =>
      comparison_eqb (digits_compare a b) (Byte.to_N a ?= Byte.to_N b)%N)
      every_byte) every_byte = true.
Proof. vm_compute. reflexivity. Qed.

Lemma digits_compare_spec (a b : byte) :
  digits_compare a b = (Byte.to_N a ?= Byte.to_N b)%N.
Proof.
  pose proof digits_compare_table as T.
  rewrite forallb_forall in T. specialize (T a (in_every_byte a)).
  rewrite forallb_forall in T. specialize (T b (in_every_byte b)).
  destruct (digits_compare a b), (Byte.to_N a ?= Byte.to_N b)%N;
    try reflexivity; discriminate.
Qed.

(** The order of the hex strings is the order of the bytes. *)
Lemma compare_bytesToHex (x y : list byte) :
  String.compare (Hex.bytesToHex x) (Hex.bytesToHex y) = bytes_compare x y.
Proof.
  revert y. induction x as [|a x IH]; intros [|b y]; try reflexivity.
  cbn [Hex.bytesToHex String.compare bytes_compare].
  rewrite <- digits_compare_spec. unfold digits_compare.
  destruct (Hex.digit (Byte.to_N a / 16) ?= Hex.digit (Byte.to_N b / 16))%char;
    try reflexivity.
  destruct (Hex.digit (Byte.to_N a mod 16) ?= Hex.digit (Byte.to_N b mod 16))%char;
    try reflexivity.
  apply IH.
Qed.

Lemma leb_bytesToHex (x y : list byte) :
  String.leb (Hex.bytesToHex x) (Hex.bytesToHex y) = bytes_leb x y.
Proof. unfold String.leb, bytes_leb. rewrite compare_bytesToHex. reflexivity. Qed.

End HexFacts.

(** ** The Merkle root *)

Section MerkleFacts.
Context {C : Crypto}.

Lemma next_layer_length (layer next : list (list byte)) :
  BatchProofs.next_layer layer = Ok next ->
  List.length next = Nat.div2 (S (List.length layer)).
Proof.
  revert next.
  induction layer as [layer IH] using (well_founded_induction
    (Wf_nat.well_founded_ltof _ (@List.length (list byte)))).
  intros next H.
  destruct layer as [|x [|y rest]]; simpl in H.
  - inversion H; reflexivity.
  - inversion H; reflexivity.
  - destruct (BatchProofs.hash_pair x y) as [node|]; simpl in H; [|discriminate].
    destruct (BatchProofs.next_layer rest) as [more|] eqn:E; simpl in H; [|discriminate].
    inversion H; subst next; clear H.
    simpl. f_equal.
    rewrite (IH rest) with (next := more); [reflexivity| |exact E].
    unfold Wf_nat.ltof; simpl; lia.
Qed.

Lemma div2_S_lt (n : nat) : 1 < n -> Nat.div2 (S n) < n.
Proof.
  intros H. destruct n as [|[|n]]; [lia|lia|].
  change (Nat.div2 (S (S (S n)))) with (S (Nat.div2 (S n))).
  pose proof (Nat.lt_div2 (S n)). lia.
Qed.

Lemma set_both_halves (a b : list byte) :
  is_node a -> is_node b ->
  (c1 <- BatchProofs.Uint8Array_set (repeat x00 64) a 0 ;;
   BatchProofs.Uint8Array_set c1 b 32) = Ok (a ++ b)%list.
Proof.
  unfold is_node. intros Ha Hb.
  do 32 (destruct a as [|? a]; [discriminate|]). destruct a; [|discriminate].
  do 32 (destruct b as [|? b]; [discriminate|]). destruct b; [|discriminate].
  reflexivity.
Qed.

Lemma hash_pair_combine (a b : list byte) :
  is_node a -> is_node b ->
  BatchProofs.hash_pair a b = Ok (combine a b).
Proof.
  intros Ha Hb. unfold BatchProofs.hash_pair, combine.
  rewrite leb_bytesToHex.
  destruct (bytes_leb a b); cbn [fst snd].
  - pose proof (set_both_halves a b Ha Hb) as H.
    destruct (BatchProofs.Uint8Array_set (repeat x00 64) a 0) as [c1|m];
      cbn [bind] in *; [|discriminate].
    rewrite H. reflexivity.
  - pose proof (set_both_halves b a Hb Ha) as H.
    destruct (BatchProofs.Uint8Array_set (repeat x00 64) b 0) as [c1|m];
      cbn [bind] in *; [|discriminate].
    rewrite H. reflexivity.
Qed.

Section WithDigestLength.
Hypothesis keccak256_length : forall bs, List.length (keccak256 bs) = 32.

Lemma next_layer_level_up (layer : list (list byte)) :
  Forall is_node layer ->
  BatchProofs.next_layer layer = Ok (level_up layer)
  /\ Forall is_node (level_up layer).
Proof.
  induction layer as [layer IH] using (well_founded_induction
    (Wf_nat.well_founded_ltof _ (@List.length (list byte)))).
  intros Hn. destruct layer as [|a [|b rest]].
  - split; [reflexivity|constructor].
  - split; [reflexivity|exact Hn].
  - inversion Hn as [|? ? Ha Hn']; subst. inversion Hn' as [|? ? Hb Hrest]; subst.
    destruct (IH rest) as [E F]; [unfold Wf_nat.ltof; simpl; lia|exact Hrest|].
    cbn [BatchProofs.next_layer level_up].
    rewrite (hash_pair_combine a b Ha Hb). cbn [bind]. rewrite E. cbn [bind].
    split; [reflexivity|].
    constructor; [apply keccak256_length|exact F].
Qed.

Lemma level_up_length (layer : list (list byte)) :
  List.length (level_up layer) = Nat.div2 (S (List.length layer)).
Proof.
  induction layer as [layer IH] using (well_founded_induction
    (Wf_nat.well_founded_ltof _ (@List.length (list byte)))).
  destruct layer as [|a [|b rest]]; try reflexivity.
  cbn [level_up List.length Nat.div2]. rewrite IH; [reflexivity|].
  unfold Wf_nat.ltof; simpl; lia.
Qed.

Lemma reduce_step (x y : list byte) (rest : list (list byte)) :
  BatchProofs.reduce (x :: y :: rest)
  = match BatchProofs.next_layer (x :: y :: rest) with
    | Ok nextLayer => BatchProofs.reduce nextLayer
    | Throw m => Throw m
    end.
Proof.
  rewrite BatchProofs.reduce_equation_3.
  set (e := inspect _). destruct e as [[nextLayer|m] E].
  - transitivity (BatchProofs.reduce nextLayer); [reflexivity|].
    rewrite E. reflexivity.
  - transitivity (@Throw (list (list byte)) m); [reflexivity|].
    rewrite E. reflexivity.
Qed.

(** The loop ends on the root of the specification's tree. *)
Lemma reduce_root (fuel : nat) (layer : list (list byte)) :
  layer <> [] -> List.length layer <= fuel -> Forall is_node layer ->
  exists root, root_from fuel layer = Some root
               /\ BatchProofs.reduce layer = Ok [root].
Proof.
  revert layer. induction fuel as [|fuel IH]; intros layer Hne Hlen Hn.
  - destruct layer; [congruence|simpl in Hlen; lia].
  - destruct layer as [|x [|y rest]]; [congruence| |].
    + exists x. split; [reflexivity|]. apply BatchProofs.reduce_equation_2.
    + destruct (next_layer_level_up _ Hn) as [E F].
      rewrite reduce_step, E.
      cbn [root_from].
      apply IH; [| |exact F].
      * cbn [level_up]. discriminate.
      * rewrite level_up_length.
        pose proof (div2_S_lt (List.length (x :: y :: rest))) as D.
        simpl in D, Hlen |- *. lia.
Qed.

Lemma slice2_0x (s : string) : Hex.slice2 ("0x" ++ s) = s.
Proof. reflexivity. Qed.

Lemma decode_leaf_texts (hs : list (list byte)) :
  BatchProofs.decode_leaves (map leaf_text hs) = Ok hs.
Proof.
  induction hs as [|h hs IH]; [reflexivity|].
  cbn [map BatchProofs.decode_leaves]. unfold leaf_text at 1.
  rewrite slice2_0x, hexToBytes_bytesToHex. cbn [bind].
  rewrite IH. reflexivity.
Qed.

(** C7.  On a non-empty list of 32-byte leaves [computeMerkleRoot] returns
    the root of the specification's tree (pairs ordered by byte order and
    hashed over their 64 bytes, an odd last node handed up unchanged); a
    single leaf is its own root; and for three leaves h1 < h2 < h3 the root
    is H(H(h1, h2), h3), H being the ordered combination. *)
Theorem computeMerkleRoot_spec (hs : list (list byte)) :
  hs <> [] -> Forall is_node hs ->
  (exists root, merkle_root hs = Some root
                /\ BatchProofs.computeMerkleRoot (map leaf_text hs)
                   = Ok (leaf_text root))
  /\ (forall h, hs = [h] ->
        BatchProofs.computeMerkleRoot (map leaf_text hs) = Ok (leaf_text h))
  /\ (forall h1 h2 h3, hs = [h1; h2; h3] ->
        bytes_compare h1 h2 = Lt -> bytes_compare h2 h3 = Lt ->
        BatchProofs.computeMerkleRoot (map leaf_text hs)
        = Ok (leaf_text (combine (keccak256 (h1 ++ h2)%list) h3))).
Proof.
  intros Hne Hn.
  assert (Hroot : exists root, merkle_root hs = Some root
                /\ BatchProofs.computeMerkleRoot (map leaf_text hs)
                   = Ok (leaf_text root)).
  { destruct (reduce_root (List.length hs) hs Hne (le_n _) Hn) as (root & R & E).
    exists root. split; [exact R|].
    destruct hs as [|h [|h' hs']]; [congruence| |].
    - simpl in R. inversion R. reflexivity.
    - unfold BatchProofs.computeMerkleRoot.
      cbn [map]. change (leaf_text h :: leaf_text h' :: map leaf_text hs')
        with (map leaf_text (h :: h' :: hs')).
      rewrite decode_leaf_texts. cbn [bind]. rewrite E. reflexivity. }
  split; [exact Hroot|]. split.
  - intros h ->. reflexivity.
  - intros h1 h2 h3 -> H12 H23.
    destruct Hroot as (root & R & E). rewrite E. do 2 f_equal.
    unfold merkle_root in R. cbn [List.length root_from level_up] in R.
    unfold combine at 2 in R. unfold bytes_leb in R. rewrite H12 in R.
    inversion R. reflexivity.
Qed.

End WithDigestLength.
End MerkleFacts.

(** ** The envelope cipher *)

Section CipherFacts.
Context {C : Crypto}.

Lemma digits_are_not_colons (b : byte) :
  Ascii.eqb (Hex.digit (Byte.to_N b / 16)) ":" = false
  /\ Ascii.eqb (Hex.digit (Byte.to_N b mod 16)) ":" = false.
Proof. destruct b; split; reflexivity. Qed.

Lemma split_colon_nonempty (s : string) :
  exists p ps, ProofGenerator.split_colon s = p :: ps.
Proof.
  induction s as [|c s (p & ps & IH)]; simpl; [eauto|].
  destruct (Ascii.eqb c ":"); [eauto|]. rewrite IH. eauto.
Qed.

Lemma split_colon_hex (bs : list byte) (rest : string) :
  ProofGenerator.split_colon (Hex.bytesToHex bs ++ rest)
  = match ProofGenerator.split_colon rest with
    | p :: ps => (Hex.bytesToHex bs ++ p) :: ps
    | [] => [Hex.bytesToHex bs]
    end.
Proof.
  induction bs as [|b bs IH]; cbn [Hex.bytesToHex append].
  - destruct (split_colon_nonempty rest) as (p & ps & ->). reflexivity.
  - destruct (digits_are_not_colons b) as [H1 H2].
    cbn [ProofGenerator.split_colon]. rewrite H1, H2, IH.
    destruct (split_colon_nonempty rest) as (p & ps & ->). reflexivity.
Qed.

Lemma split_colon_hex_end (bs : list byte) :
  ProofGenerator.split_colon (Hex.bytesToHex bs) = [Hex.bytesToHex bs].
Proof.
  pose proof (split_colon_hex bs "") as H.
  assert (E : forall s, s ++ "" = s)
    by (induction s as [|c s IHs]; simpl; congruence).
  rewrite E in H. cbn [ProofGenerator.split_colon] in H. rewrite E in H. exact H.
Qed.

Lemma split_colon_stored (iv tag body : list byte) :
  ProofGenerator.split_colon
    (Hex.bytesToHex iv ++ ":" ++ Hex.bytesToHex tag ++ ":" ++ Hex.bytesToHex body)
  = [Hex.bytesToHex iv; Hex.bytesToHex tag; Hex.bytesToHex body].
Proof.
  assert (Colon : forall rest, ProofGenerator.split_colon (":" ++ rest)
                               = "" :: ProofGenerator.split_colon rest)
    by reflexivity.
  assert (E : forall s, s ++ "" = s)
    by (induction s as [|c s IHs]; simpl; congruence).
  rewrite split_colon_hex, Colon, split_colon_hex, Colon, split_colon_hex_end.
  rewrite !E. reflexivity.
Qed.

Lemma digits_are_one_unit (b : byte) :
  forall rest,
    Js.length_from 0 (String (Hex.digit (Byte.to_N b / 16))
                        (String (Hex.digit (Byte.to_N b mod 16)) rest))
    = 2 + Js.length_from 0 rest.
Proof. destruct b; reflexivity. Qed.

(** The digits of a hex text are one code unit each. *)
Lemma Js_length_bytesToHex (bs : list byte) :
  Js.length (Hex.bytesToHex bs) = 2 * List.length bs.
Proof.
  unfold Js.length. induction bs as [|b bs IH]; [reflexivity|].
  cbn [Hex.bytesToHex List.length]. rewrite digits_are_one_unit, IH. lia.
Qed.

Lemma update_hex_bytesToHex (bs : list byte) :
  ProofGenerator.update_hex (Hex.bytesToHex bs) = Ok bs.
Proof.
  unfold ProofGenerator.update_hex.
  rewrite Js_length_bytesToHex, Buffer_from_hex_bytesToHex.
  assert (Nat.even (2 * List.length bs) = true) as ->; [|reflexivity].
  apply Nat.even_spec. exists (List.length bs). reflexivity.
Qed.

(** [loadEncryptionKey] turns the 64 digits of a 32-byte key into that key. *)
Lemma loadEncryptionKey_hex (key : list byte) :
  List.length key = 32 ->
  ProofGenerator.loadEncryptionKey (Some (Hex.bytesToHex key)) = Ok key.
Proof.
  intros H. unfold ProofGenerator.loadEncryptionKey.
  rewrite Js_length_bytesToHex, H, Buffer_from_hex_bytesToHex. reflexivity.
Qed.

(** A stored form that [decrypt] accepts. *)
Lemma decrypt_stored (key iv tag body plaintext : list byte) :
  gcm_decrypt key iv tag body = Some plaintext ->
  ProofGenerator.decrypt (Some key)
    (Hex.bytesToHex iv ++ ":" ++ Hex.bytesToHex tag ++ ":" ++ Hex.bytesToHex body)
  = Ok (string_of_list_byte plaintext).
Proof.
  intros H. unfold ProofGenerator.decrypt.
  rewrite split_colon_stored, update_hex_bytesToHex. cbn [bind].
  rewrite !Buffer_from_hex_bytesToHex, H. reflexivity.
Qed.

(** C9, as the code has it.  With a 32-byte key loaded and the 12 bytes of
    [randomBytes(12)], [encrypt] returns hex(iv):hex(tag):hex(ciphertext)
    with a 16-byte tag, the ciphertext being the one of the string's UTF-8
    form; [decrypt] turns that text back into the string with U+FFFD in
    the place of every lone surrogate, which is the string itself when it
    has none; and [decrypt] throws on a text that does not split into
    exactly three parts at its colons. *)
Theorem decrypt_encrypt_roundtrip (key iv : list byte) (s : string) :
  gcm_contract ->
  List.length key = 32 -> List.length iv = 12 ->
  (exists ciphertext tag stored,
      gcm_encrypt key iv (list_byte_of_string (Js.toWellFormed s))
      = Some (ciphertext, tag)
      /\ List.length tag = 16
      /\ stored = Hex.bytesToHex iv ++ ":" ++ Hex.bytesToHex tag ++ ":"
                  ++ Hex.bytesToHex ciphertext
      /\ ProofGenerator.encrypt (Some key) iv s = Ok stored
      /\ ProofGenerator.decrypt (Some key) stored = Ok (Js.toWellFormed s)
      /\ (well_formed_text s -> ProofGenerator.decrypt (Some key) stored = Ok s))
  /\ (forall text,
        List.length (ProofGenerator.split_colon text) <> 3 ->
        ProofGenerator.decrypt (Some key) text = Throw "Invalid encrypted format").
Proof.
  intros Hgcm Hkey Hiv. split.
  - destruct (Hgcm key iv (list_byte_of_string (Js.toWellFormed s)) Hkey Hiv)
      as (ciphertext & tag & He & Ht & Hd).
    exists ciphertext, tag. eexists. split; [exact He|]. split; [exact Ht|].
    split; [reflexivity|].
    assert (D : ProofGenerator.decrypt (Some key)
                  (Hex.bytesToHex iv ++ ":" ++ Hex.bytesToHex tag ++ ":"
                   ++ Hex.bytesToHex ciphertext) = Ok (Js.toWellFormed s)).
    { rewrite (decrypt_stored _ _ _ _ _ Hd).
      rewrite string_of_list_byte_of_string. reflexivity. }
    split; [|split; [exact D|]].
    + unfold ProofGenerator.encrypt. rewrite He. reflexivity.
    + intros W. rewrite D. unfold well_formed_text in W. rewrite W. reflexivity.
  - intros text Hparts. unfold ProofGenerator.decrypt.
    destruct (ProofGenerator.split_colon text) as [|p1 [|p2 [|p3 [|p4 ps]]]];
      try reflexivity.
    simpl in Hparts. congruence.
Qed.

(** Upper-casing the first digit of a stored form whose iv starts with the
    byte ab changes the text, not what [decrypt] returns. *)
Lemma decrypt_upper_case_digit (key iv' tag body plaintext : list byte) :
  gcm_decrypt key (xab :: iv') tag body = Some plaintext ->
  ProofGenerator.decrypt (Some key)
    ("Ab" ++ Hex.bytesToHex iv' ++ ":" ++ Hex.bytesToHex tag ++ ":"
     ++ Hex.bytesToHex body)
  = Ok (string_of_list_byte plaintext).
Proof.
  intros H. unfold ProofGenerator.decrypt.
  pose proof (split_colon_stored iv' tag body) as S.
  assert (Ab : forall rest, ProofGenerator.split_colon ("Ab" ++ rest)
                 = match ProofGenerator.split_colon rest with
                   | p :: ps => ("Ab" ++ p) :: ps
                   | [] => ["Ab"]
                   end).
  { intros rest. cbn [append ProofGenerator.split_colon].
    change (Ascii.eqb "A" ":") with false. change (Ascii.eqb "b" ":") with false.
    cbn iota. destruct (ProofGenerator.split_colon rest); reflexivity. }
  rewrite Ab, S.
  rewrite update_hex_bytesToHex. cbn [bind append].
  change (Hex.Buffer_from_hex (String "A" (String "b" (Hex.bytesToHex iv'))))
    with (xab :: Hex.Buffer_from_hex (Hex.bytesToHex iv')).
  rewrite !Buffer_from_hex_bytesToHex, H. reflexivity.
Qed.

End CipherFacts.

Section CipherRuns.
#[local] Existing Instance Sample.SimpleCrypto.

Lemma SimpleCrypto_contract : gcm_contract.
Proof.
  intros key iv plaintext Hkey Hiv.
  exists plaintext, (firstn 16 (Sample.digest32 (key ++ iv ++ plaintext)%list)).
  cbn [gcm_encrypt gcm_decrypt Sample.SimpleCrypto].
  rewrite Hkey, Hiv. cbn [Nat.eqb andb negb].
  rewrite String.eqb_refl. repeat split.
Qed.

Lemma SimpleCrypto_digest_length (bs : list byte) :
  List.length (@keccak256 Sample.SimpleCrypto bs) = 32.
Proof. cbn [keccak256 Sample.SimpleCrypto]. unfold Sample.digest32.
  rewrite length_map, length_seq. reflexivity. Qed.

(** C9 as stated fails: the stored form of "0x12" under the iv ab..ab and
    the same text with its first digit in upper case differ in one byte,
    and [decrypt] returns "0x12" for both. *)
Lemma decrypt_accepts_altered_text :
  let key := repeat x01 32 in
  let stored := "abababababababababababab:0f000102030405060708090a0b0c0d0e:30783132" in
  let altered := "Abababababababababababab:0f000102030405060708090a0b0c0d0e:30783132" in
  ProofGenerator.encrypt (Some key) (repeat xab 12) "0x12" = Ok stored
  /\ altered <> stored
  /\ String.length altered = String.length stored
  /\ ProofGenerator.decrypt (Some key) stored = Ok "0x12"
  /\ ProofGenerator.decrypt (Some key) altered = Ok "0x12".
Proof. repeat split. discriminate. Qed.

(** A lone surrogate does not come back: the string made of the code unit
    D800 alone is encrypted as U+FFFD, and that is what [decrypt]
    returns. *)
Lemma decrypt_encrypt_lone_surrogate :
  let key := repeat x01 32 in
  let s := String (ascii_of_N 237) (String (ascii_of_N 160) (String (ascii_of_N 128) "")) in
  let replacement :=
    String (ascii_of_N 239) (String (ascii_of_N 191) (String (ascii_of_N 189) "")) in
  Js.length s = 1
  /\ exists stored,
       ProofGenerator.encrypt (Some key) (repeat xab 12) s = Ok stored
       /\ ProofGenerator.decrypt (Some key) stored = Ok replacement
       /\ replacement <> s.
Proof.
  split; [reflexivity|]. eexists. split; [reflexivity|]. split; [reflexivity|].
  discriminate.
Qed.

(** C9 as the code has it, at an input. *)
Lemma decrypt_encrypt_roundtrip_witness :
  gcm_contract
  /\ List.length (repeat x01 32) = 32 /\ List.length (repeat xab 12) = 12
  /\ well_formed_text "0x12"
  /\ exists stored,
       ProofGenerator.encrypt (Some (repeat x01 32)) (repeat xab 12) "0x12" = Ok stored
       /\ ProofGenerator.decrypt (Some (repeat x01 32)) stored = Ok "0x12".
Proof.
  split; [exact SimpleCrypto_contract|]. split; [reflexivity|]. split; [reflexivity|].
  split; [reflexivity|].
  destruct (decrypt_encrypt_roundtrip (repeat x01 32) (repeat xab 12) "0x12"
              SimpleCrypto_contract eq_refl eq_refl)
    as ((ciphertext & tag & stored & _ & _ & _ & He & _ & Hd) & _).
  exists stored. split; [exact He|exact (Hd eq_refl)].
Defined.

End CipherRuns.

(** ** Issuing an attestation *)

Section ProveFacts.
Context {N : NumberOps} {C : Crypto}.
Import Js.

Lemma update_agent_nonce_effect (db db' : Db.Database) (id : string) (rows : list Z) :
  Db.update_agent_nonce db id = Ok (rows, db') ->
  Db.users db' = Db.users db /\ Db.rules db' = Db.rules db
  /\ Db.proofs db' = Db.proofs db
  /\ hd_error rows = option_map (fun n => n + 1)%Z (agent_nonce db id)
  /\ (forall A, agent_nonce db' A
                = if String.eqb A id
                  then option_map (fun n => n + 1)%Z (agent_nonce db A)
                  else agent_nonce db A).
Proof.
  unfold Db.update_agent_nonce.
  destruct (existsb _ (Db.agents db)); [discriminate|].
  intros H. inversion H; subst; clear H. cbn [Db.users Db.rules Db.proofs Db.agents].
  repeat split.
  - unfold agent_nonce. induction (Db.agents db) as [|a l IH]; [reflexivity|].
    cbn [map filter find].
    destruct (String.eqb (AgentRow.id a) id) eqn:E.
    + cbn [Db.bump_nonce AgentRow.id]. rewrite E. reflexivity.
    + rewrite E. exact IH.
  - intros A. unfold agent_nonce. cbn [Db.agents].
    induction (Db.agents db) as [|a l IH]; cbn [map find].
    + destruct (String.eqb A id); reflexivity.
    + destruct (String.eqb (AgentRow.id a) id) eqn:E.
      * cbn [Db.bump_nonce AgentRow.id].
        destruct (String.eqb (AgentRow.id a) A) eqn:EA.
        -- apply String.eqb_eq in E, EA. subst.
           rewrite String.eqb_refl. reflexivity.
        -- exact IH.
      * destruct (String.eqb (AgentRow.id a) A) eqn:EA; [|exact IH].
        apply String.eqb_eq in EA. subst A. rewrite E. reflexivity.
Qed.

Lemma insert_proof_effect (db db' : Db.Database) (row row' : ProofRow.t) :
  Db.insert_proof db row = Ok (row', db') ->
  (exists cost, Column.DECIMAL_10_6 (ProofRow.proof_cost row) = Ok cost
                /\ row' = Db.stored row cost)
  /\ Db.users db' = Db.users db /\ Db.agents db' = Db.agents db
  /\ Db.rules db' = Db.rules db /\ Db.proofs db' = (Db.proofs db ++ [row'])%list
  /\ existsb (fun p => String.eqb (ProofRow.proof_hash p) (ProofRow.proof_hash row))
             (Db.proofs db) = false.
Proof.
  unfold Db.insert_proof.
  destruct (Column.JSONB (ProofRow.action_data row)); cbn [bind]; [|discriminate].
  destruct (Column.JSONB (ProofRow.evaluation row)); cbn [bind]; [|discriminate].
  destruct (Column.DECIMAL_10_6 (ProofRow.proof_cost row)) as [cost|]; cbn [bind];
    [|discriminate].
  destruct (existsb _ (Db.proofs db)); [discriminate|].
  destruct (existsb _ (Db.proofs db)) eqn:Hash; [discriminate|].
  destruct (negb _); [discriminate|].
  destruct (negb _); [discriminate|].
  destruct (_ || _); [discriminate|].
  intros H. inversion H; subst. repeat split. eauto.
Qed.

Lemma update_user_used_effect (db db' : Db.Database) (id : string) :
  Db.update_user_used db id = Ok db' ->
  Db.agents db' = Db.agents db /\ Db.rules db' = Db.rules db
  /\ Db.proofs db' = Db.proofs db
  /\ (forall U, used_by db' U
                = if String.eqb U id
                  then option_map (fun n => n + 1)%Z (used_by db U)
                  else used_by db U).
Proof.
  unfold Db.update_user_used.
  destruct (existsb _ (Db.users db)); [discriminate|].
  intros H. inversion H; subst; clear H. cbn [Db.users Db.rules Db.proofs Db.agents].
  repeat split.
  intros U. unfold used_by. cbn [Db.users].
  induction (Db.users db) as [|u l IH]; cbn [map find].
  - destruct (String.eqb U id); reflexivity.
  - destruct (String.eqb (UserRow.id u) id) eqn:E.
    + cbn [Db.bump_used UserRow.id].
      destruct (String.eqb (UserRow.id u) U) eqn:EU.
      * apply String.eqb_eq in E, EU. subst.
        rewrite String.eqb_refl. reflexivity.
      * exact IH.
    + destruct (String.eqb (UserRow.id u) U) eqn:EU; [|exact IH].
      apply String.eqb_eq in EU. subst U. rewrite E. reflexivity.
Qed.

(** What a run of the atomic section that does not throw has done. *)
Lemma issue_effect (keys : ProofGenerator.Keys) (env : Prove.Env) (req : Prove.Request)
    (body : Prove.ProveBody) (rule : RuleRow.t) (ruleEval : RuleEngine.RuleEvaluation)
    (db db' : Db.Database) (row : ProofRow.t) :
  Prove.issue keys env req body rule ruleEval db = Ok (row, db') ->
  Db.rules db' = Db.rules db
  /\ Db.proofs db' = (Db.proofs db ++ [row])%list
  /\ ProofRow.agent_id row = AgentRow.id (Prove.agent req)
  /\ Some (ProofRow.nonce row)
     = option_map (fun n => n + 1)%Z (agent_nonce db (AgentRow.id (Prove.agent req)))
  /\ (forall A, agent_nonce db' A
                = if String.eqb A (AgentRow.id (Prove.agent req))
                  then option_map (fun n => n + 1)%Z (agent_nonce db A)
                  else agent_nonce db A)
  /\ (forall U, used_by db' U
                = if String.eqb U (UserRow.id (Prove.user req))
                  then option_map (fun n => n + 1)%Z (used_by db U)
                  else used_by db U)
  /\ existsb (fun p => String.eqb (ProofRow.proof_hash p) (ProofRow.proof_hash row))
             (Db.proofs db) = false.
Proof.
  unfold Prove.issue. intros H.
  destruct (Db.update_agent_nonce db (AgentRow.id (Prove.agent req)))
    as [[rows db1]|] eqn:E1; cbn [bind] in H; [|discriminate].
  destruct (update_agent_nonce_effect _ _ _ _ E1) as (U1 & R1 & P1 & Hd & A1).
  cbn [fst snd] in H.
  destruct (hd_error rows) as [nonce|] eqn:Hrows; cbn [of_option bind] in H;
    [|discriminate].
  destruct (ProofGenerator.generateProof _ _ _ _ _ _ _ _ _ _) as [generated|];
    cbn [bind] in H; [|discriminate].
  destruct (Db.insert_proof db1 _) as [[row1 db2]|] eqn:E2; cbn [bind] in H;
    [|discriminate].
  destruct (insert_proof_effect _ _ _ _ E2)
    as ((cost & _ & ->) & U2 & A2 & R2 & P2 & Hash).
  cbn [fst snd] in H.
  destruct (Db.update_user_used db2 _) as [db3|] eqn:E3; cbn [bind] in H;
    [|discriminate].
  destruct (update_user_used_effect _ _ _ E3) as (A3 & R3 & P3 & Us3).
  inversion H; subst row db'; clear H.
  cbn [Db.stored ProofRow.agent_id ProofRow.nonce ProofRow.proof_hash] in *.
  repeat split.
  - congruence.
  - rewrite P3, P2, P1. reflexivity.
  - rewrite <- Hd. reflexivity.
  - intros A. unfold agent_nonce. rewrite A3, A2. apply A1.
  - intros U. rewrite Us3. unfold used_by. rewrite U2, U1. reflexivity.
  - rewrite <- P1. exact Hash.
Qed.

(** The handler changes the database only by a committed run of the
    atomic section. *)
Lemma prove_cases (keys : ProofGenerator.Keys) (db : Db.Database) (env : Prove.Env)
    (req : Prove.Request) :
  (Prove.is_created (fst (Prove.prove keys db env req)) = false
   /\ snd (Prove.prove keys db env req) = db)
  \/ (exists body rule ruleEval row,
        Prove.issue keys env req body rule ruleEval db
          = Ok (row, snd (Prove.prove keys db env req))
        /\ Prove.is_created (fst (Prove.prove keys db env req)) = true).
Proof.
  unfold Prove.prove.
  destruct (Prove.parsed req) as [body|]; [|left; split; reflexivity].
  destruct (assoc _ Tiers.TIERS) as [tier|]; [|left; split; reflexivity].
  destruct (_ && _); [left; split; reflexivity|].
  destruct (Db.select_rule db _) as [rule|]; [|left; split; reflexivity].
  destruct (negb _); [left; split; reflexivity|].
  destruct (negb _); [left; split; reflexivity|].
  destruct (RuleEngine.validateConditions _); try (left; split; reflexivity).
  destruct (RuleEngine.evaluateRule _ _) as [ruleEval|]; [|left; split; reflexivity].
  unfold Db.transaction.
  destruct (Prove.issue keys env req body rule ruleEval db) as [[row db']|] eqn:E.
  - right. exists body, rule, ruleEval, row. split; [exact E|reflexivity].
  - left. split; reflexivity.
Qed.

(** A digest that a stored proof already carries makes the insertion, and
    with it the atomic section, throw. *)
Lemma insert_proof_digest_collision (db : Db.Database) (row : ProofRow.t) :
  existsb (fun p => String.eqb (ProofRow.proof_hash p) (ProofRow.proof_hash row))
          (Db.proofs db) = true ->
  exists m, Db.insert_proof db row = Throw m.
Proof.
  intros H. unfold Db.insert_proof.
  destruct (Column.JSONB (ProofRow.action_data row)); cbn [bind]; [|eauto].
  destruct (Column.JSONB (ProofRow.evaluation row)); cbn [bind]; [|eauto].
  destruct (Column.DECIMAL_10_6 (ProofRow.proof_cost row)); cbn [bind]; [|eauto].
  destruct (existsb (fun p => String.eqb (ProofRow.id p) (ProofRow.id row))
                    (Db.proofs db)); [eauto|].
  rewrite H. eauto.
Qed.

(** A request that is not answered 201 leaves the database as it was. *)
Lemma prove_unchanged_unless_created (keys : ProofGenerator.Keys)
    (db : Db.Database) (env : Prove.Env) (req : Prove.Request) :
  Prove.is_created (fst (Prove.prove keys db env req)) = false ->
  snd (Prove.prove keys db env req) = db.
Proof.
  intros H.
  destruct (prove_cases keys db env req) as [[_ E]|(? & ? & ? & ? & _ & E)].
  - exact E.
  - congruence.
Qed.

(** C4.  When a request has passed the checks that precede the atomic
    section and a step of the section throws (the counter update, the
    proof generation, the insertion - a second row with the same digest
    included - or the usage update), the reply is 500 and the database is
    the one of before: no proof row, no consumed sequence number, no
    usage unit. *)
Theorem prove_rollback (keys : ProofGenerator.Keys) (db : Db.Database) (env : Prove.Env)
    (req : Prove.Request) (body : Prove.ProveBody) (tier : Tiers.TierConfig)
    (rule : RuleRow.t) (ruleEval : RuleEngine.RuleEvaluation) (m : string) :
  Prove.parsed req = Ok body ->
  assoc (UserRow.tier (Prove.user req)) Tiers.TIERS = Some tier ->
  String.eqb (UserRow.tier (Prove.user req)) "free"
  && (Tiers.monthly_limit tier <=? UserRow.used_proofs_this_month (Prove.user req))%Z
  = false ->
  Db.select_rule db (Prove.rule_id body) = Some rule ->
  RuleRow.agent_id rule = AgentRow.id (Prove.agent req) ->
  RuleRow.status rule = "active" ->
  RuleEngine.validateConditions (RuleRow.conditions rule) = RuleEngine.Valid ->
  RuleEngine.evaluateRule (Prove.as_conditions (RuleRow.conditions rule))
                          (Prove.action_data body) = Ok ruleEval ->
  Prove.issue keys env req body rule ruleEval db = Throw m ->
  let after := snd (Prove.prove keys db env req) in
  fst (Prove.prove keys db env req)
  = Prove.Error 500 "INTERNAL_ERROR" "Internal server error" []
  /\ after = db
  /\ Db.proofs after = Db.proofs db
  /\ (forall A, agent_nonce after A = agent_nonce db A)
  /\ (forall U, used_by after U = used_by db U).
Proof.
  intros Hp Ht Hq Hr Ha Hs Hv He Hi.
  assert (E : Prove.prove keys db env req
              = (Prove.Error 500 "INTERNAL_ERROR" "Internal server error" [], db)).
  { unfold Prove.prove.
    rewrite Hp, Ht, Hq, Hr, Ha, Hs, String.eqb_refl, Hv, He. cbn [negb].
    unfold Db.transaction. rewrite Hi. reflexivity. }
  rewrite E. repeat split.
Qed.

(** Each step of the atomic section that throws makes the section throw. *)
Lemma issue_throws (keys : ProofGenerator.Keys) (env : Prove.Env) (req : Prove.Request)
    (body : Prove.ProveBody) (rule : RuleRow.t) (ruleEval : RuleEngine.RuleEvaluation)
    (db : Db.Database) :
  let id := AgentRow.id (Prove.agent req) in
  (forall m, Db.update_agent_nonce db id = Throw m ->
             Prove.issue keys env req body rule ruleEval db = Throw m)
  /\ (forall rows db1 nonce m,
        Db.update_agent_nonce db id = Ok (rows, db1) ->
        hd_error rows = Some nonce ->
        ProofGenerator.generateProof keys (Prove.now env) (Prove.iv env)
          (Prove.now_end env) id (RuleRow.id rule) (Prove.as_conditions (RuleRow.conditions rule))
          (Prove.action_data body) (RuleEngine.evaluation ruleEval)
          (RuleEngine.rule_met ruleEval) (num_of_Z nonce) = Throw m ->
        Prove.issue keys env req body rule ruleEval db = Throw m)
  /\ (forall rows db1 nonce generated,
        Db.update_agent_nonce db id = Ok (rows, db1) ->
        hd_error rows = Some nonce ->
        ProofGenerator.generateProof keys (Prove.now env) (Prove.iv env)
          (Prove.now_end env) id (RuleRow.id rule) (Prove.as_conditions (RuleRow.conditions rule))
          (Prove.action_data body) (RuleEngine.evaluation ruleEval)
          (RuleEngine.rule_met ruleEval) (num_of_Z nonce) = Ok generated ->
        existsb (fun p => String.eqb (ProofRow.proof_hash p)
                                     (ProofGenerator.proof_hash generated))
                (Db.proofs db) = true ->
        exists m, Prove.issue keys env req body rule ruleEval db = Throw m).
Proof.
  intros id. unfold Prove.issue. fold id. repeat split.
  - intros m ->. reflexivity.
  - intros rows db1 nonce m -> Hn. cbn [bind fst snd]. rewrite Hn.
    cbn [of_option bind]. intros ->. reflexivity.
  - intros rows db1 nonce generated E1 Hn Hg Hash.
    rewrite E1. cbn [bind fst snd]. rewrite Hn. cbn [of_option bind].
    rewrite Hg. cbn [bind].
    destruct (update_agent_nonce_effect _ _ _ _ E1) as (_ & _ & P1 & _).
    match goal with
    | |- context [Db.insert_proof db1 ?row] =>
        destruct (insert_proof_digest_collision db1 row) as (m & ->)
    end.
    + rewrite P1. exact Hash.
    + exists m. reflexivity.
Qed.

Lemma TIERS_free :
  exists tier, assoc "free" Tiers.TIERS = Some tier
               /\ Tiers.monthly_limit tier = 10%Z.
Proof. eexists. split; reflexivity. Qed.

(** C2, as the code has it.  A caller on the free tier whose monthly
    counter has reached the tier's limit (10) is refused with 402
    QUOTA_EXCEEDED and the database is left as it was: no proof row, no
    consumed sequence number.  The counter of a caller on another tier is
    not compared with a limit: no request of such a caller is refused for
    quota. *)
Theorem prove_quota (keys : ProofGenerator.Keys) (db : Db.Database) (env : Prove.Env)
    (req : Prove.Request) (body : Prove.ProveBody) :
  Prove.parsed req = Ok body ->
  let used := UserRow.used_proofs_this_month (Prove.user req) in
  (UserRow.tier (Prove.user req) = "free" -> (10 <= used)%Z ->
     Prove.prove keys db env req
     = (Prove.Error 402 "QUOTA_EXCEEDED"
          "Free tier proof limit reached. Upgrade to continue."
          [("limit", 10%Z); ("used", used)], db))
  /\ (UserRow.tier (Prove.user req) <> "free" ->
      forall code error details,
        fst (Prove.prove keys db env req) <> Prove.Error 402 code error details).
Proof.
  intros Hp used. split.
  - intros Ht Hu. unfold Prove.prove. rewrite Hp, Ht.
    destruct TIERS_free as (tier & -> & ->).
    change (String.eqb "free" "free") with true. cbn [andb].
    fold used.
    assert ((10 <=? used)%Z = true) as -> by (apply Z.leb_le; exact Hu).
    reflexivity.
  - intros Ht code error details. unfold Prove.prove. rewrite Hp.
    destruct (assoc _ Tiers.TIERS) as [tier|]; [|discriminate].
    assert (String.eqb (UserRow.tier (Prove.user req)) "free" = false) as ->
      by (apply String.eqb_neq; exact Ht).
    cbn [andb].
    destruct (Db.select_rule db _) as [rule|]; [|discriminate].
    destruct (negb _); [discriminate|].
    destruct (negb _); [discriminate|].
    destruct (RuleEngine.validateConditions _); try discriminate.
    destruct (RuleEngine.evaluateRule _ _); [|discriminate].
    destruct (Db.transaction _ _) as [[proof|] db']; discriminate.
Qed.

Lemma nonces_of_insert (db db' : Db.Database) (row : ProofRow.t) (A : string) :
  Db.proofs db' = (Db.proofs db ++ [row])%list ->
  nonces_of db' A
  = (nonces_of db A
     ++ if String.eqb (ProofRow.agent_id row) A then [ProofRow.nonce row] else [])%list.
Proof.
  intros H. unfold nonces_of. rewrite H, filter_app, map_app. cbn [filter].
  destruct (String.eqb (ProofRow.agent_id row) A); reflexivity.
Qed.

(** The counter of an agent and the nonces of its proofs move together. *)
Lemma serve_counts (keys : ProofGenerator.Keys) (A : string)
    (calls : list (Prove.Env * Prove.Request)) :
  forall (db : Db.Database) (n : nat),
    agent_nonce db A = Some (Z.of_nat n) ->
    nonces_of db A = map Z.of_nat (seq 1 n) ->
    let k := issued_to A calls (fst (Prove.serve keys db calls)) in
    agent_nonce (snd (Prove.serve keys db calls)) A = Some (Z.of_nat (n + k))
    /\ nonces_of (snd (Prove.serve keys db calls)) A = map Z.of_nat (seq 1 (n + k)).
Proof.
  induction calls as [|[env req] calls IH]; intros db n Hn Hs.
  - cbn [Prove.serve issued_to fst snd]. rewrite Nat.add_0_r. split; assumption.
  - cbn [Prove.serve].
    pose proof (prove_cases keys db env req) as Hcases.
    destruct (Prove.prove keys db env req) as [reply db1] eqn:Ep.
    cbn [fst snd] in Hcases.
    destruct (Prove.serve keys db1 calls) as [replies db2] eqn:Es.
    cbn [fst snd issued_to].
    destruct Hcases as [[Hc ->]|(body & rule & ruleEval & row & Hi & Hc)].
    + rewrite Hc, andb_false_r. cbn [Nat.add].
      specialize (IH db n Hn Hs). rewrite Es in IH. exact IH.
    + destruct (issue_effect _ _ _ _ _ _ _ _ _ Hi)
        as (_ & Hp & Hid & Hrow & Ha & _ & _).
      rewrite Hc, andb_true_r.
      pose proof (nonces_of_insert db db1 row A Hp) as Hins.
      rewrite Hid in Hins. specialize (Ha A).
      rewrite (String.eqb_sym A) in Ha.
      destruct (String.eqb (AgentRow.id (Prove.agent req)) A) eqn:E.
      * apply String.eqb_eq in E. rewrite E in Hrow. rewrite Hn in Hrow, Ha.
        cbn [option_map] in Hrow, Ha. inversion Hrow as [Hrow'].
        assert (Hn1 : agent_nonce db1 A = Some (Z.of_nat (S n)))
          by (rewrite Ha; f_equal; lia).
        assert (Hs1 : nonces_of db1 A = map Z.of_nat (seq 1 (S n))).
        { rewrite Hins, Hs, Hrow', seq_S, map_app. cbn [map]. do 3 f_equal. lia. }
        specialize (IH db1 (S n) Hn1 Hs1). rewrite Es in IH. cbn [fst snd] in IH.
        replace (n + (1 + issued_to A calls replies))
          with (S n + issued_to A calls replies) by lia.
        exact IH.
      * rewrite app_nil_r in Hins. rewrite <- Ha in Hn. rewrite <- Hins in Hs.
        specialize (IH db1 n Hn Hs). rewrite Es in IH. exact IH.
Qed.

(** C3.  Starting from an agent whose counter is 0 and that has no proof,
    after any sequence of requests of which k were successful issuances
    for this agent, the nonces of the agent's proofs are 1, ..., k in this
    order and its [proof_nonce] is k. *)
Theorem nonces_contiguous (keys : ProofGenerator.Keys) (A : string)
    (db : Db.Database) (calls : list (Prove.Env * Prove.Request)) :
  agent_nonce db A = Some 0%Z ->
  nonces_of db A = [] ->
  let after := snd (Prove.serve keys db calls) in
  let k := issued_to A calls (fst (Prove.serve keys db calls)) in
  nonces_of after A = map Z.of_nat (seq 1 k)
  /\ NoDup (nonces_of after A)
  /\ (forall i, In i (nonces_of after A) <-> (1 <= i <= Z.of_nat k)%Z)
  /\ agent_nonce after A = Some (Z.of_nat k).
Proof.
  intros Hn Hs after k.
  destruct (serve_counts keys A calls db 0 Hn Hs) as [Ha Hl].
  cbn [Nat.add] in Ha, Hl. fold after k in Ha, Hl.
  split; [exact Hl|]. split; [|split; [|exact Ha]].
  - rewrite Hl. apply Injective_map_NoDup; [|apply seq_NoDup].
    intros x y H. apply Nat2Z.inj. exact H.
  - intros i. rewrite Hl, in_map_iff. split.
    + intros (x & <- & Hx). apply in_seq in Hx. lia.
    + intros Hi. exists (Z.to_nat i). split; [lia|]. apply in_seq. lia.
Qed.

End ProveFacts.

(** ** Runs on a small database *)

Section ProveRuns.
#[local] Existing Instance Sample.IntegerNumbers.
#[local] Existing Instance Sample.SimpleCrypto.
Import Js.

(** C2 as stated fails: a principal on the starter tier whose counter has
    reached the tier's limit of 1000 is served; a proof row is inserted
    with nonce 1 and the agent's counter is advanced. *)
Lemma prove_serves_paid_tier_at_limit :
  let reply_db := Prove.prove sample_keys (sample_db "starter" 1000)
                    (sample_env "p1" 1700000000123)
                    (sample_request "starter" 1000) in
  option_map Tiers.monthly_limit (assoc "starter" Tiers.TIERS) = Some 1000%Z
  /\ Prove.is_created (fst reply_db) = true
  /\ nonces_of (snd reply_db) "a1" = [1%Z]
  /\ agent_nonce (snd reply_db) "a1" = Some 1%Z
  /\ used_by (snd reply_db) "u1" = Some 1001%Z.
Proof. cbv zeta. repeat split; vm_compute; reflexivity. Qed.

(** C2 as the code has it, at an input: the free tier with 10 issued. *)
Lemma prove_quota_witness :
  UserRow.tier (Prove.user (sample_request "free" 10)) = "free"
  /\ (10 <= UserRow.used_proofs_this_month (Prove.user (sample_request "free" 10)))%Z
  /\ Prove.prove sample_keys (sample_db "free" 10) (sample_env "p1" 1700000000123)
                 (sample_request "free" 10)
     = (Prove.Error 402 "QUOTA_EXCEEDED"
          "Free tier proof limit reached. Upgrade to continue."
          [("limit", 10%Z); ("used", 10%Z)], sample_db "free" 10).
Proof.
  split; [reflexivity|]. split; [cbn; lia|].
  refine (proj1 (prove_quota sample_keys (sample_db "free" 10)
                   (sample_env "p1" 1700000000123) (sample_request "free" 10)
                   _ eq_refl) eq_refl _).
  cbn. lia.
Defined.

(** C3, at an input: two issuances for the agent a1. *)
Lemma nonces_contiguous_witness :
  let calls := [ (sample_env "p1" 1700000000123, sample_request "starter" 0);
                 (sample_env "p2" 1700000001123, sample_request "starter" 1) ] in
  agent_nonce (sample_db "starter" 0) "a1" = Some 0%Z
  /\ nonces_of (sample_db "starter" 0) "a1" = []
  /\ issued_to "a1" calls (fst (Prove.serve sample_keys (sample_db "starter" 0) calls)) = 2
  /\ nonces_of (snd (Prove.serve sample_keys (sample_db "starter" 0) calls)) "a1"
     = [1%Z; 2%Z].
Proof.
  intros calls. split; [reflexivity|]. split; [reflexivity|].
  assert (K : issued_to "a1" calls
                (fst (Prove.serve sample_keys (sample_db "starter" 0) calls)) = 2)
    by (vm_compute; reflexivity).
  split; [exact K|].
  pose proof (nonces_contiguous sample_keys "a1" (sample_db "starter" 0) calls
                eq_refl eq_refl) as H.
  cbv zeta in H. rewrite K in H. exact (proj1 H).
Defined.

(** C4, at an input: the signing key is missing, so the proof generation
    throws after the counter update. *)
Lemma prove_rollback_witness :
  exists ruleEval,
    RuleEngine.evaluateRule (Prove.as_conditions (RuleRow.conditions sample_rule))
                            [("x", JNum (Some 3%Z))] = Ok ruleEval
    /\ Prove.issue keys_without_signing_key (sample_env "p1" 1700000000123)
         (sample_request "starter" 0)
         {| Prove.rule_id := "r1"; Prove.action_data := [("x", JNum (Some 3%Z))] |}
         sample_rule ruleEval (sample_db "starter" 0)
       = Throw "Signing key not loaded"
    /\ Prove.prove keys_without_signing_key (sample_db "starter" 0)
                   (sample_env "p1" 1700000000123) (sample_request "starter" 0)
       = (Prove.Error 500 "INTERNAL_ERROR" "Internal server error" [],
          sample_db "starter" 0).
Proof.
  eexists. split; [reflexivity|]. split; [reflexivity|].
  pose proof (prove_rollback keys_without_signing_key (sample_db "starter" 0)
                (sample_env "p1" 1700000000123) (sample_request "starter" 0)
                {| Prove.rule_id := "r1";
                   Prove.action_data := [("x", JNum (Some 3%Z))] |}
                {| Tiers.name := "starter"; Tiers.display_name := "Starter";
                   Tiers.base_fee := (999 # 100)%Q; Tiers.monthly_limit := 1000%Z;
                   Tiers.overage_rate := (15 # 1000)%Q;
                   Tiers.features := ["API access"; "1,000 proofs/month";
                                      "Dashboard & analytics"; "Email support"] |}
                sample_rule _ "Signing key not loaded"
                eq_refl eq_refl eq_refl eq_refl eq_refl eq_refl eq_refl eq_refl
                eq_refl) as H.
  cbv zeta in H. destruct H as (H1 & H2 & _).
  rewrite (surjective_pairing (Prove.prove _ _ _ _)), H1, H2. reflexivity.
Defined.

(** A second row with the digest of a stored one: the agents ab and ba,
    with the rules r12 and r21, get the same digest from [digest32]; the
    second issuance is rolled back. *)
Example prove_digest_collision :
  let rule := fun id agent =>
    RuleRow.mk id agent
      (JArr [JObj [("field", JStr "x"); ("op", JStr "<=");
                   ("value", JNum (Some 5%Z))]]) "active" "limit on x" in
  let db := {| Db.users := [UserRow.mk "u1" "starter" 0];
               Db.agents := [AgentRow.mk "ab" "u1" "active" 0;
                             AgentRow.mk "ba" "u1" "active" 0];
               Db.rules := [rule "r12" "ab"; rule "r21" "ba"];
               Db.proofs := [] |} in
  let request := fun agent rule_id =>
    {| Prove.parsed := Ok {| Prove.rule_id := rule_id;
                             Prove.action_data := [("x", JNum (Some 3%Z))] |};
       Prove.agent := AgentRow.mk agent "u1" "active" 0;
       Prove.user := UserRow.mk "u1" "starter" 0 |} in
  let first := Prove.prove sample_keys db (sample_env "p1" 1700000000123)
                           (request "ab" "r12") in
  let second := Prove.prove sample_keys (snd first) (sample_env "p2" 1700000000123)
                            (request "ba" "r21") in
  Prove.is_created (fst first) = true
  /\ fst second = Prove.Error 500 "INTERNAL_ERROR" "Internal server error" []
  /\ snd second = snd first
  /\ agent_nonce (snd second) "ba" = Some 0%Z.
Proof. cbv zeta. repeat split; vm_compute; reflexivity. Qed.

End ProveRuns.

Section MoreRuns.
#[local] Existing Instance Sample.IntegerNumbers.
#[local] Existing Instance Sample.SimpleCrypto.
Import Js.

(** C7, at an input: three leaves in ascending byte order. *)
Lemma computeMerkleRoot_spec_witness :
  let h1 := repeat x01 32 in
  let h2 := repeat x02 32 in
  let h3 := repeat x03 32 in
  (forall bs, List.length (keccak256 bs) = 32)
  /\ [h1; h2; h3] <> [] /\ Forall is_node [h1; h2; h3]
  /\ bytes_compare h1 h2 = Lt /\ bytes_compare h2 h3 = Lt
  /\ BatchProofs.computeMerkleRoot [leaf_text h1; leaf_text h2; leaf_text h3]
     = Ok (leaf_text (combine (keccak256 (h1 ++ h2)%list) h3)).
Proof.
  intros h1 h2 h3.
  assert (Hn : Forall is_node [h1; h2; h3]) by (repeat constructor).
  assert (Hne : [h1; h2; h3] <> []) by discriminate.
  split; [exact SimpleCrypto_digest_length|].
  split; [exact Hne|]. split; [exact Hn|].
  split; [reflexivity|]. split; [reflexivity|].
  exact (proj2 (proj2 (computeMerkleRoot_spec SimpleCrypto_digest_length
                         [h1; h2; h3] Hne Hn))
               h1 h2 h3 eq_refl eq_refl eq_refl).
Defined.


End MoreRuns.

(** ** The repository's unit tests, on the model *)

Section UnitTests.
#[local] Existing Instance Sample.IntegerNumbers.
#[local] Existing Instance Sample.SimpleCrypto.
Import Js.

Example test_fails_on_missing_field :
  exists e,
    RuleEngine.evaluateRule [Condition.mk "amount" "<=" (JNum (Some 10000%Z))] []
    = Ok e
    /\ RuleEngine.rule_met e = false
    /\ map EvalResult.actual (RuleEngine.evaluation e) = [JNull]
    /\ map EvalResult.pass (RuleEngine.evaluation e) = [false].
Proof. eexists. split; [reflexivity|]. repeat split. Qed.

Example test_equality_operator :
  met [Condition.mk "status" "=" (JStr "active")] [("status", JStr "active")] = Some true.
Proof. reflexivity. Qed.

Example test_not_equal_operator :
  met [Condition.mk "scope" "!=" (JStr "production")] [("scope", JStr "staging")] = Some true.
Proof. reflexivity. Qed.

Example test_IN_operator :
  met [Condition.mk "day" "IN" (JArr [JStr "Mon"; JStr "Tue"; JStr "Wed"])]
      [("day", JStr "Tue")] = Some true.
Proof. reflexivity. Qed.

Example test_NOT_IN_operator :
  met [Condition.mk "action" "NOT IN" (JArr [JStr "delete"; JStr "drop"])]
      [("action", JStr "select")] = Some true.
Proof. reflexivity. Qed.

Example test_CONTAINS_operator :
  met [Condition.mk "message" "CONTAINS" (JStr "approved")]
      [("message", JStr "Transaction approved by system")] = Some true.
Proof. reflexivity. Qed.

Example test_NOT_CONTAINS_operator :
  met [Condition.mk "output" "NOT CONTAINS" (JStr "SSN")]
      [("output", JStr "User name: John Doe")] = Some true.
Proof. reflexivity. Qed.

Example test_zero_value :
  met [Condition.mk "amount" ">=" (JNum (Some 0%Z))] [("amount", JNum (Some 0%Z))] = Some true.
Proof. reflexivity. Qed.

Example test_accepts_valid_conditions :
  RuleEngine.validateConditions
    (JArr [JObj [("field", JStr "x"); ("op", JStr "<="); ("value", JNum (Some 5%Z))]])
  = RuleEngine.Valid.
Proof. reflexivity. Qed.

Example test_rejects_empty_array :
  RuleEngine.validateConditions (JArr [])
  = RuleEngine.Invalid "Conditions must be a non-empty array".
Proof. reflexivity. Qed.

Example test_rejects_invalid_operator :
  RuleEngine.validateConditions
    (JArr [JObj [("field", JStr "x"); ("op", JStr "LIKE"); ("value", JNum (Some 5%Z))]])
  = RuleEngine.Invalid
      "Condition 0: invalid operator 'LIKE'. Valid: =, !=, <, <=, >, >=, IN, NOT IN, CONTAINS, NOT CONTAINS".
Proof. reflexivity. Qed.

Example test_rejects_IN_with_non_array :
  RuleEngine.validateConditions
    (JArr [JObj [("field", JStr "x"); ("op", JStr "IN"); ("value", JStr "not-array")]])
  = RuleEngine.Invalid "Condition 0: 'IN' operator requires an array value".
Proof. reflexivity. Qed.

Example test_rejects_numeric_op_with_string :
  RuleEngine.validateConditions
    (JArr [JObj [("field", JStr "x"); ("op", JStr "<"); ("value", JStr "not-a-number")]])
  = RuleEngine.Invalid "Condition 0: '<' operator requires a numeric value".
Proof. reflexivity. Qed.

Example test_condition_count_boundaries :
  RuleEngine.validateConditions (JArr (map numbered_condition (seq 0 20)))
  = RuleEngine.Valid
  /\ RuleEngine.validateConditions (JArr (map numbered_condition (seq 0 21)))
     = RuleEngine.Invalid "Maximum 20 conditions per rule".
Proof. split; vm_compute; reflexivity. Qed.

Example test_payload_is_deterministic :
  ProofGenerator.buildProofPayload "a1" "r1" [] [] [] true (Some 1%Z) 1700000000123
  = ProofGenerator.buildProofPayload "a1" "r1" [] [] [] true (Some 1%Z) 1700000000123.
Proof. reflexivity. Qed.

Example test_encrypted_format :
  option_map (map String.length)
    (match ProofGenerator.encrypt (Some (repeat x01 32)) (repeat xab 12) "test" with
     | Ok text => Some (ProofGenerator.split_colon text)
     | Throw _ => None
     end)
  = Some [24; 32; 8].
Proof. vm_compute. reflexivity. Qed.

End UnitTests.

(** ** More about rule evaluation *)

Section RuleEvaluationMore.
Context {N : NumberOps}.
Import Js.

(** [map] over two lists put end to end visits the first list, then the
    second, and stops at the first call that throws. *)
Lemma Array_map_app {A B : Type} (f : A -> Result B) (l1 l2 : list A) :
  Array_map f (l1 ++ l2)%list
  = (ys1 <- Array_map f l1 ;; ys2 <- Array_map f l2 ;; Ok (ys1 ++ ys2)%list).
Proof.
  induction l1 as [|x l1 IH]; cbn [app Array_map bind].
  - destruct (Array_map f l2); reflexivity.
  - destruct (f x) as [y|m]; cbn [bind]; [|reflexivity].
    rewrite IH. destruct (Array_map f l1) as [ys1|m]; cbn [bind]; [|reflexivity].
    destruct (Array_map f l2); reflexivity.
Qed.

Lemma Array_map_In {A B : Type} (f : A -> Result B) (l : list A) (ys : list B) (x : A) :
  Array_map f l = Ok ys -> In x l -> exists y, f x = Ok y /\ In y ys.
Proof.
  revert ys. induction l as [|a l IH]; intros ys H Hin; [destruct Hin|].
  cbn [Array_map] in H.
  destruct (f a) as [y|] eqn:Ea; cbn [bind] in H; [|discriminate].
  destruct (Array_map f l) as [ys'|]; cbn [bind] in H; [|discriminate].
  inversion H; subst ys. destruct Hin as [->|Hin].
  - exists y. split; [exact Ea|left; reflexivity].
  - destruct (IH ys' eq_refl Hin) as (y' & E & Hy). exists y'.
    split; [exact E|right; exact Hy].
Qed.

Lemma rule_met_aggregate (results : list EvalResult.t) :
  RuleEngine.rule_met (RuleEngine.aggregate results)
  = match results with
    | [] => false
    | _ => forallb EvalResult.pass results
    end.
Proof. destruct results; reflexivity. Qed.

(** X3.  Conditions are a conjunction, evaluated in their order.  When the
    evaluations of two lists return, the evaluation of the two lists put
    end to end returns their results put end to end and, both lists
    holding a condition, the rule is met exactly when both parts are.
    When one of them throws, so does the evaluation of the whole, with the
    exception of the first list if that one throws. *)
Theorem evaluateRule_app (c1 c2 : list Condition.t) (actionData : JsObject) :
  match RuleEngine.evaluateRule c1 actionData,
        RuleEngine.evaluateRule c2 actionData with
  | Ok e1, Ok e2 =>
      exists e,
        RuleEngine.evaluateRule (c1 ++ c2)%list actionData = Ok e
        /\ RuleEngine.evaluation e
           = (RuleEngine.evaluation e1 ++ RuleEngine.evaluation e2)%list
        /\ (c1 <> [] -> c2 <> [] ->
            RuleEngine.rule_met e
            = RuleEngine.rule_met e1 && RuleEngine.rule_met e2)
  | Ok _, Throw m => RuleEngine.evaluateRule (c1 ++ c2)%list actionData = Throw m
  | Throw m, _ => RuleEngine.evaluateRule (c1 ++ c2)%list actionData = Throw m
  end.
Proof.
  unfold RuleEngine.evaluateRule. rewrite Array_map_app.
  destruct (Array_map (RuleEngine.evaluateCondition actionData) c1) as [r1|m] eqn:E1;
    cbn [bind]; [|reflexivity].
  destruct (Array_map (RuleEngine.evaluateCondition actionData) c2) as [r2|m] eqn:E2;
    cbn [bind]; [|reflexivity].
  eexists. split; [reflexivity|]. split; [reflexivity|].
  intros H1 H2. rewrite !rule_met_aggregate.
  apply Array_map_length in E1, E2.
  destruct r1 as [|x xs]; [destruct c1; [congruence|discriminate]|].
  destruct r2 as [|y ys]; [destruct c2; [congruence|discriminate]|].
  cbn [app]. change (x :: (xs ++ y :: ys)%list) with ((x :: xs) ++ y :: ys)%list.
  apply forallb_app.
Qed.

Lemma compare_op_contrary (op op' : string) (actual value : JsValue) :
  contrary op = Some op' ->
  match RuleEngine.compare_op op actual value,
        RuleEngine.compare_op op' actual value with
  | Ok pass, Ok pass' => pass && pass' = false
  | Throw m, Throw m' => m = m'
  | _, _ => False
  end.
Proof.
  unfold contrary.
  repeat match goal with
  | |- (if String.eqb op ?lit then _ else _) = _ -> _ =>
      let E := fresh "E" in
      destruct (String.eqb op lit) eqn:E;
      [ apply String.eqb_eq in E; subst op; intros H; inversion H; subst op';
        unfold RuleEngine.compare_op;
        repeat match goal with
        | |- context [String.eqb ?a ?b] =>
            let v := eval vm_compute in (String.eqb a b) in
            change (String.eqb a b) with v
        end; cbn iota
      | ]
  end; try discriminate;
  try (unfold RuleEngine.compare_numbers;
       destruct (ToNumber actual) as [a|]; cbn [bind]; [|reflexivity];
       destruct (ToNumber value) as [b|]; cbn [bind]; [|reflexivity];
       unfold lt, ge, gt, le;
       repeat match goal with
              | |- context [num_lessThan ?x ?y] => destruct (num_lessThan x y) as [[]|]
              end; reflexivity).
  - apply andb_negb_r.
  - apply andb_negb_l.
  - destruct value; try reflexivity. apply andb_negb_r.
  - destruct value; try reflexivity. apply andb_negb_l.
  - destruct actual; try reflexivity.
    destruct (ToString value); cbn [bind]; [apply andb_negb_r|reflexivity].
  - destruct actual; try reflexivity.
    destruct (ToString value); cbn [bind]; [apply andb_negb_l|reflexivity].
Qed.

(** X4.  No action record satisfies a condition and its contrary.  For the
    same field and value, the evaluations under an operator and under the
    operator that states the contrary ('=' and '!=', '<' and '>=', '>' and
    '<=', IN and NOT IN, CONTAINS and NOT CONTAINS) return together or
    throw the same exception, and when they return the two results never
    both pass. *)
Theorem contrary_conditions_never_both_pass
    (actionData : JsObject) (field op op' : string) (value : JsValue) :
  contrary op = Some op' ->
  match RuleEngine.evaluateCondition actionData (Condition.mk field op value),
        RuleEngine.evaluateCondition actionData (Condition.mk field op' value) with
  | Ok r, Ok r' => EvalResult.pass r && EvalResult.pass r' = false
  | Throw m, Throw m' => m = m'
  | _, _ => False
  end.
Proof.
  intros H. unfold RuleEngine.evaluateCondition. cbn [Condition.field].
  destruct (get actionData field) as [actual|]; [|reflexivity].
  pose proof (compare_op_contrary op op' actual value H) as Hc.
  destruct actual; try reflexivity; cbn [Condition.op Condition.value];
    destruct (RuleEngine.compare_op op _ value);
    destruct (RuleEngine.compare_op op' _ value); cbn [bind EvalResult.pass];
    exact Hc.
Qed.

(** X5.  A rule with a condition on a field that the action record does
    not hold (and that is not a name of [Object.prototype]) is never met,
    whatever the other conditions and the operator: an evaluation that
    returns says the rule is not met, and the evaluation does return when
    no value of the rule or of the record holds an object with a member
    [toString]. *)
Theorem absent_field_fails_rule
    (conditions : list Condition.t) (actionData : JsObject) (c : Condition.t) :
  In c conditions ->
  assoc (Condition.field c) actionData = None ->
  inherited (Condition.field c) = false ->
  (forall e, RuleEngine.evaluateRule conditions actionData = Ok e ->
             RuleEngine.rule_met e = false)
  /\ ((forall c', In c' conditions -> printable (Condition.value c') = true) ->
      (forall k v, In (k, v) actionData -> printable v = true) ->
      exists e, RuleEngine.evaluateRule conditions actionData = Ok e
                /\ RuleEngine.rule_met e = false).
Proof.
  intros Hin Hown Hinh.
  assert (Hfalse : forall e, RuleEngine.evaluateRule conditions actionData = Ok e ->
                             RuleEngine.rule_met e = false).
  { intros e He. destruct (evaluateRule_Ok _ _ _ He) as (Hmap & -> & _).
    rewrite rule_met_aggregate.
    destruct (Array_map_In _ _ _ c Hmap Hin) as (r & Er & Hr).
    destruct (evaluateCondition_missing actionData c (or_introl (conj Hown Hinh)))
      as (r' & Er' & Hpass & _).
    assert (r' = r) by congruence. subst r'.
    destruct (RuleEngine.evaluation e) as [|x xs]; [reflexivity|].
    apply not_true_is_false. intros Hall.
    rewrite forallb_forall in Hall. specialize (Hall r Hr). congruence. }
  split; [exact Hfalse|].
  intros Hv Ha.
  destruct (Array_map_returns (RuleEngine.evaluateCondition actionData) conditions)
    as (results & E).
  { intros x Hx. apply evaluateCondition_returns; [apply Hv; exact Hx|exact Ha]. }
  exists (RuleEngine.aggregate results).
  assert (He : RuleEngine.evaluateRule conditions actionData
               = Ok (RuleEngine.aggregate results)).
  { unfold RuleEngine.evaluateRule. rewrite E. reflexivity. }
  split; [exact He|exact (Hfalse _ He)].
Qed.

End RuleEvaluationMore.

Section RuleEvaluationMoreRuns.
#[local] Existing Instance Sample.IntegerNumbers.
Import Js.

Lemma evaluateRule_app_witness :
  let c1 := [Condition.mk "x" "<=" (JNum (Some 5%Z))] in
  let c2 := [Condition.mk "y" "=" (JStr "a")] in
  let action := [("x", JNum (Some 3%Z)); ("y", JStr "b")] in
  c1 <> [] /\ c2 <> []
  /\ met c1 action = Some true /\ met c2 action = Some false
  /\ met (c1 ++ c2)%list action = Some false.
Proof.
  intros c1 c2 action.
  assert (H1 : c1 <> []) by discriminate.
  assert (H2 : c2 <> []) by discriminate.
  split; [exact H1|]. split; [exact H2|].
  split; [reflexivity|]. split; [reflexivity|].
  pose proof (evaluateRule_app c1 c2 action) as H.
  change (RuleEngine.evaluateRule c1 action)
    with (Ok (RuleEngine.aggregate
                [EvalResult.mk "x" "<=" (JNum (Some 5%Z)) (JNum (Some 3%Z)) true]))
    in H.
  change (RuleEngine.evaluateRule c2 action)
    with (Ok (RuleEngine.aggregate
                [EvalResult.mk "y" "=" (JStr "a") (JStr "b") false]))
    in H.
  cbv iota beta in H. destruct H as (e & He & _ & Hmet).
  unfold met. rewrite He, (Hmet H1 H2). reflexivity.
Defined.

Lemma contrary_conditions_never_both_pass_witness :
  contrary "<" = Some ">="
  /\ exists r r',
       RuleEngine.evaluateCondition [("x", JNum (Some 3%Z))]
         (Condition.mk "x" "<" (JNum (Some 5%Z))) = Ok r
       /\ RuleEngine.evaluateCondition [("x", JNum (Some 3%Z))]
            (Condition.mk "x" ">=" (JNum (Some 5%Z))) = Ok r'
       /\ EvalResult.pass r = true
       /\ EvalResult.pass r && EvalResult.pass r' = false.
Proof.
  split; [reflexivity|]. eexists. eexists.
  split; [reflexivity|]. split; [reflexivity|]. split; [reflexivity|].
  exact (@contrary_conditions_never_both_pass Sample.IntegerNumbers
           [("x", JNum (num_of_Z 3))] "x" "<" ">=" (JNum (num_of_Z 5)) eq_refl).
Defined.

Lemma absent_field_fails_rule_witness :
  let c := Condition.mk "amount" "!=" (JNum (Some 0%Z)) in
  let conditions := [Condition.mk "x" "<=" (JNum (Some 5%Z)); c] in
  In c conditions
  /\ assoc (Condition.field c) [("x", JNum (Some 3%Z))] = None
  /\ inherited (Condition.field c) = false
  /\ met conditions [("x", JNum (Some 3%Z))] = Some false.
Proof.
  intros c conditions.
  assert (Hin : In c conditions) by (right; left; reflexivity).
  split; [exact Hin|]. split; [reflexivity|]. split; [reflexivity|].
  destruct (@absent_field_fails_rule Sample.IntegerNumbers conditions
              [("x", JNum (num_of_Z 3))] c Hin eq_refl eq_refl) as [H _].
  unfold met.
  destruct (RuleEngine.evaluateRule conditions _) as [e|] eqn:E; [|discriminate E].
  rewrite (H e eq_refl). reflexivity.
Defined.

End RuleEvaluationMoreRuns.

(** ** More about the proof generator *)

Section GeneratorMore.
Context {N : NumberOps} {C : Crypto}.
Import Js.

Lemma digits_are_lower_hex (b : byte) :
  is_lower_hex_digit (Hex.digit (Byte.to_N b / 16)) = true
  /\ is_lower_hex_digit (Hex.digit (Byte.to_N b mod 16)) = true.
Proof. destruct b; split; reflexivity. Qed.

Lemma bytesToHex_lower_hex (bs : list byte) : lower_hex (Hex.bytesToHex bs) = true.
Proof.
  induction bs as [|b bs IH]; [reflexivity|].
  destruct (digits_are_lower_hex b) as [H1 H2].
  cbn [Hex.bytesToHex lower_hex]. rewrite H1, H2, IH. reflexivity.
Qed.


Lemma string_pairs_ind (P : string -> Prop) :
  P "" -> (forall c, P (String c "")) ->
  (forall c1 c2 s, P s -> P (String c1 (String c2 s))) ->
  forall s, P s.
Proof.
  intros H0 H1 H2. fix IH 1. intros [|c1 [|c2 s]]; [exact H0|apply H1|].
  apply H2. apply IH.
Qed.

Lemma all_hex_cons2 (c1 c2 : ascii) (s : string) :
  all_hex (String c1 (String c2 s))
  = match Hex.nibble c1, Hex.nibble c2 with
    | Some _, Some _ => all_hex s
    | _, _ => false
    end.
Proof. cbn [all_hex]. destruct (Hex.nibble c1), (Hex.nibble c2); reflexivity. Qed.

Lemma nibble_is_one_unit (c : ascii) (v : BinNums.N) (rest : string) :
  Hex.nibble c = Some v ->
  Js.length_from 0 (String c rest) = 1 + Js.length_from 0 rest.
Proof.
  destruct c as [[] [] [] [] [] [] [] []]; intros H;
    first [discriminate H | reflexivity].
Qed.

Lemma length_from_positive (c : ascii) (rest : string) :
  0 < Js.length_from 0 (String c rest).
Proof.
  cbn [Js.length_from]. destruct (Js.is_continuation c); [lia|].
  unfold Js.utf16_units. destruct (_ <? _)%N; lia.
Qed.

(** What [Buffer.from(s, 'hex')] yields: at most one byte for two code
    units, and that many exactly when the text, of even length, is made of
    hexadecimal digits only. *)
Lemma Buffer_from_hex_length (s : string) :
  2 * List.length (Hex.Buffer_from_hex s) <= Js.length s
  /\ (Nat.even (Js.length s) = true ->
      (2 * List.length (Hex.Buffer_from_hex s) = Js.length s
       <-> all_hex s = true)).
Proof.
  unfold Js.length.
  induction s as [|c|c1 c2 s [IH1 IH2]] using string_pairs_ind.
  - split; [apply le_n|]. intros _. split; reflexivity.
  - split; [cbn; lia|]. intros E. pose proof (length_from_positive c "") as P.
    cbn [Hex.Buffer_from_hex List.length]. split.
    + intros H. lia.
    + cbn [all_hex]. destruct (Hex.nibble c) as [v|] eqn:En; [|discriminate].
      rewrite (nibble_is_one_unit c v "" En) in E. discriminate.
  - rewrite all_hex_cons2. cbn [Hex.Buffer_from_hex].
    pose proof (length_from_positive c1 (String c2 s)) as P.
    destruct (Hex.nibble c1) as [v1|] eqn:E1;
      [|split; [cbn [List.length]; lia|];
        intros _; split; [cbn [List.length]; lia|discriminate]].
    rewrite (nibble_is_one_unit c1 v1 _ E1).
    destruct (Hex.nibble c2) as [v2|] eqn:E2;
      [|split; [cbn [List.length]; lia|];
        intros _; split; [cbn [List.length]; lia|discriminate]].
    rewrite (nibble_is_one_unit c2 v2 _ E2). cbn [List.length].
    split; [lia|]. intros E. cbn [Nat.add Nat.even] in E. specialize (IH2 E).
    rewrite <- IH2. lia.
Qed.

(** X8.  [loadEncryptionKey] checks the length of [ENCRYPTION_KEY] only:
    it succeeds exactly on a value of 64 code units ([keyHex.length]), and
    the key it loads has 32 bytes exactly when these are all hexadecimal
    digits; otherwise the key is shorter. *)
Theorem loadEncryptionKey_length (env : option string) :
  ((exists key, ProofGenerator.loadEncryptionKey env = Ok key)
   <-> exists keyHex, env = Some keyHex /\ Js.length keyHex = 64)
  /\ (forall keyHex key,
        env = Some keyHex -> ProofGenerator.loadEncryptionKey env = Ok key ->
        List.length key <= 32
        /\ (List.length key = 32 <-> all_hex keyHex = true)).
Proof.
  unfold ProofGenerator.loadEncryptionKey. split.
  - destruct env as [keyHex|].
    + destruct (Nat.eqb (Js.length keyHex) 64) eqn:E.
      * apply Nat.eqb_eq in E. split; [eauto|eauto].
      * apply Nat.eqb_neq in E. split.
        -- intros (key & H). discriminate.
        -- intros (k & H & Hl). inversion H; subst. contradiction.
    + split; [intros (key & H); discriminate|intros (k & H & _); discriminate].
  - intros keyHex key -> H.
    destruct (Nat.eqb (Js.length keyHex) 64) eqn:E; [|discriminate].
    apply Nat.eqb_eq in E. inversion H; subst key; clear H.
    destruct (Buffer_from_hex_length keyHex) as [H1 H2].
    assert (Hev : Nat.even (Js.length keyHex) = true) by (rewrite E; reflexivity).
    specialize (H2 Hev). rewrite E in H1, H2. split; [lia|].
    rewrite <- H2. lia.
Qed.

(** A key of 64 code units that are not all digits: the letter e with an
    acute accent is two bytes and one code unit, and the key loaded from
    it is empty. *)
Lemma loadEncryptionKey_accented :
  let keyHex := String (ascii_of_N 195) (String (ascii_of_N 169)
                  (string_of_list_ascii (repeat "a"%char 63))) in
  String.length keyHex = 65 /\ Js.length keyHex = 64
  /\ ProofGenerator.loadEncryptionKey (Some keyHex) = Ok [].
Proof. repeat split. Qed.

(** X9.  [loadSigningKey], called when [_privateKey] holds [old].  It
    throws and leaves [_privateKey] as it was when [ECDSA_PRIVATE_KEY] is
    unset or empty, and when its text cannot be decoded.  It loads a
    non-empty key that the curve accepts from the key's hexadecimal text,
    with or without a leading "0x".  When the curve refuses the decoded
    key it throws, and [_privateKey] holds the refused key.  When it
    returns, [_privateKey] holds a key that the curve accepts. *)
Theorem loadSigningKey_behaviour (old : option (list byte)) :
  ProofGenerator.loadSigningKey None old
  = (Throw "ECDSA_PRIVATE_KEY not set in environment", old)
  /\ ProofGenerator.loadSigningKey (Some "") old
     = (Throw "ECDSA_PRIVATE_KEY not set in environment", old)
  /\ (forall keyHex m, keyHex <> "" -> Hex.hexToBytes keyHex = Throw m ->
        ProofGenerator.loadSigningKey (Some keyHex) old = (Throw m, old))
  /\ (forall key, key <> [] -> secp256k1_getPublicKey key <> None ->
        ProofGenerator.loadSigningKey (Some (Hex.bytesToHex key)) old
        = (Ok tt, Some key)
        /\ ProofGenerator.loadSigningKey (Some ("0x" ++ Hex.bytesToHex key)) old
           = (Ok tt, Some key))
  /\ (forall key, key <> [] -> secp256k1_getPublicKey key = None ->
        ProofGenerator.loadSigningKey (Some (Hex.bytesToHex key)) old
        = (Throw "ECDSA_PRIVATE_KEY is not a valid secp256k1 private key", Some key))
  /\ (forall env after,
        ProofGenerator.loadSigningKey env old = (Ok tt, after) ->
        exists key, after = Some key /\ secp256k1_getPublicKey key <> None).
Proof.
  split; [reflexivity|]. split; [reflexivity|].
  assert (Hne : forall key, key <> [] -> Hex.bytesToHex key <> "").
  { intros key H. destruct key; [congruence|discriminate]. }
  split; [|split; [|split]].
  - intros keyHex m Ht Hd. unfold ProofGenerator.loadSigningKey.
    destruct keyHex; [congruence|]. rewrite Hd. reflexivity.
  - intros key Hk Hpk.
    destruct (secp256k1_getPublicKey key) as [pk|] eqn:E; [|congruence].
    assert (Hload : forall text, text <> "" -> Hex.hexToBytes text = Ok key ->
                      ProofGenerator.loadSigningKey (Some text) old
                      = (Ok tt, Some key)).
    { intros text Ht Hd. unfold ProofGenerator.loadSigningKey.
      destruct text; [congruence|]. rewrite Hd, E. reflexivity. }
    split.
    + apply Hload; [apply Hne; exact Hk|apply hexToBytes_bytesToHex].
    + apply Hload; [discriminate|].
      unfold Hex.hexToBytes. rewrite slice2_0x.
      change (String.prefix "0x" ("0x" ++ Hex.bytesToHex key))
        with (String.prefix "" (Hex.bytesToHex key)).
      assert (String.prefix "" (Hex.bytesToHex key) = true) as ->
        by (destruct (Hex.bytesToHex key); reflexivity).
      apply noble_hexToBytes_bytesToHex.
  - intros key Hk Hpk. unfold ProofGenerator.loadSigningKey.
    specialize (Hne key Hk). destruct (Hex.bytesToHex key) eqn:Et; [congruence|].
    rewrite <- Et, hexToBytes_bytesToHex, Hpk. reflexivity.
  - intros env after H. unfold ProofGenerator.loadSigningKey in H.
    destruct env as [[|c s]|]; try discriminate.
    destruct (Hex.hexToBytes (String c s)) as [k|]; [|discriminate].
    destruct (secp256k1_getPublicKey k) eqn:E; [|discriminate].
    inversion H; subst. exists k. split; [reflexivity|congruence].
Qed.

Lemma toWellFormed_without_surrogates (s : string) :
  without_surrogates s = true -> well_formed_text s.
Proof.
  unfold well_formed_text.
  induction s as [|c rest IH]; [reflexivity|].
  cbn [without_surrogates]. intros H. apply andb_prop in H. destruct H as [Hc Hr].
  apply negb_true_iff in Hc. cbn [Js.toWellFormed]. rewrite (IH Hr).
  destruct rest as [|d [|e rest']]; try reflexivity.
  unfold Js.is_surrogate. rewrite Hc. reflexivity.
Qed.

Lemma without_surrogates_app (a b : string) :
  without_surrogates (a ++ b) = without_surrogates a && without_surrogates b.
Proof.
  induction a as [|c a IH]; [reflexivity|].
  cbn [append without_surrogates]. rewrite IH. apply andb_assoc.
Qed.

Lemma without_surrogates_digits (u : Hexadecimal.uint) :
  without_surrogates (HexadecimalString.NilEmpty.string_of_uint u) = true.
Proof.
  induction u;
    [reflexivity
    |cbn [HexadecimalString.NilEmpty.string_of_uint without_surrogates];
     rewrite IHu; reflexivity ..].
Qed.

Lemma without_surrogates_bigint_hex64 (n : BinNums.N) :
  without_surrogates (Hex.bigint_hex64 n) = true.
Proof.
  unfold Hex.bigint_hex64. rewrite without_surrogates_app. apply andb_true_intro. split.
  - induction (64 - _) as [|k IH]; [reflexivity|exact IH].
  - unfold HexadecimalString.NilZero.string_of_uint.
    destruct (N.to_hex_uint n) eqn:E; try reflexivity;
      rewrite <- E; apply without_surrogates_digits.
Qed.

(** What [signProof] returns has no surrogate. *)
Lemma signature_well_formed (r s' : BinNums.N) (v : string) :
  without_surrogates v = true ->
  well_formed_text ("0x" ++ Hex.bigint_hex64 r ++ Hex.bigint_hex64 s' ++ v).
Proof.
  intros Hv. apply toWellFormed_without_surrogates.
  rewrite !without_surrogates_app, !without_surrogates_bigint_hex64, Hv. reflexivity.
Qed.

(** X10.  With both keys loaded, a signature for the digest and the cipher
    working, [generateProof] returns the digest of the payload it built
    with the clock's first reading, the nonce it was given, the clock's
    second reading in seconds as its timestamp, and an encrypted signature
    that [decrypt] turns back into what [signProof] returns for that
    digest.  The second of the payload (its member ts) and the timestamp
    returned are two readings of the clock. *)
Theorem generateProof_result (signingKey encryptionKey iv : list byte)
    (now now_end : Z)
    (agentId ruleId : string) (conditions : list Condition.t)
    (actionData : JsObject) (evaluation : list EvalResult.t) (ruleMet : bool)
    (nonce : number) (sig : Signature) :
  gcm_contract ->
  List.length encryptionKey = 32 -> List.length iv = 12 ->
  let keys := {| ProofGenerator._privateKey := Some signingKey;
                 ProofGenerator._encryptionKey := Some encryptionKey |} in
  let digest := ProofGenerator.hashPayload
                  (ProofGenerator.buildProofPayload agentId ruleId conditions
                     actionData evaluation ruleMet nonce now) in
  secp256k1_sign
    (keccak256 (list_byte_of_string
       (ProofGenerator.buildProofPayload agentId ruleId conditions
          actionData evaluation ruleMet nonce now))) signingKey = Some sig ->
  exists g signature,
    ProofGenerator.generateProof keys now iv now_end agentId ruleId conditions
                                 actionData evaluation ruleMet nonce = Ok g
    /\ ProofGenerator.proof_hash g = digest
    /\ ProofGenerator.gp_nonce g = nonce
    /\ ProofGenerator.timestamp g = (now_end / 1000)%Z
    /\ ProofGenerator.signProof (Some signingKey) digest = Ok signature
    /\ ProofGenerator.decrypt (Some encryptionKey)
         (ProofGenerator.signature_encrypted g) = Ok signature.
Proof.
  intros Hgcm Hkey Hiv keys digest Hsig.
  assert (Hs : ProofGenerator.signProof (Some signingKey) digest
               = Ok ("0x" ++ Hex.bigint_hex64 (sig_r sig)
                     ++ Hex.bigint_hex64 (sig_s sig)
                     ++ (if (sig_recovery sig =? 0)%N then "1b" else "1c"))).
  { unfold ProofGenerator.signProof, digest, ProofGenerator.hashPayload.
    rewrite slice2_0x, hexToBytes_bytesToHex. cbn [bind].
    rewrite Hsig. reflexivity. }
  set (signature := "0x" ++ Hex.bigint_hex64 (sig_r sig)
                    ++ Hex.bigint_hex64 (sig_s sig)
                    ++ (if (sig_recovery sig =? 0)%N then "1b" else "1c")) in *.
  assert (Hw : Js.toWellFormed signature = signature).
  { unfold signature. apply signature_well_formed.
    destruct (sig_recovery sig =? 0)%N; reflexivity. }
  destruct (Hgcm encryptionKey iv (list_byte_of_string signature) Hkey Hiv)
    as (ciphertext & tag & He & _ & Hd).
  eexists. exists signature.
  unfold ProofGenerator.generateProof. cbn [ProofGenerator._privateKey
    ProofGenerator._encryptionKey keys]. fold digest. rewrite Hs. cbn [bind].
  unfold ProofGenerator.encrypt. rewrite Hw, He. cbn [of_option bind fst snd].
  split; [reflexivity|].
  cbn [ProofGenerator.proof_hash ProofGenerator.gp_nonce ProofGenerator.timestamp
       ProofGenerator.signature_encrypted].
  repeat split.
  rewrite (decrypt_stored _ _ _ _ _ Hd), string_of_list_byte_of_string. reflexivity.
Qed.

(** [generateProof] throws as soon as one of the two keys is missing, the
    signing key being looked at first. *)
Lemma generateProof_without_keys (keys : ProofGenerator.Keys) (now : Z) (iv : list byte)
    (now_end : Z) (agentId ruleId : string) (conditions : list Condition.t)
    (actionData : JsObject) (evaluation : list EvalResult.t) (ruleMet : bool)
    (nonce : number) :
  (ProofGenerator._privateKey keys = None ->
   ProofGenerator.generateProof keys now iv now_end agentId ruleId conditions
                                actionData evaluation ruleMet nonce
   = Throw "Signing key not loaded")
  /\ (ProofGenerator._encryptionKey keys = None ->
      exists m,
        ProofGenerator.generateProof keys now iv now_end agentId ruleId conditions
                                     actionData evaluation ruleMet nonce = Throw m).
Proof.
  unfold ProofGenerator.generateProof. split.
  - intros ->. reflexivity.
  - intros ->. destruct (ProofGenerator.signProof _ _) as [signature|m];
      cbn [bind ProofGenerator.encrypt]; eauto.
Qed.

(** X11.  When the signing key or the encryption key was not loaded at
    start, POST /api/prove never issues a proof: whatever the request, the
    reply is not 201 and the database is left as it was. *)
Theorem prove_without_keys (keys : ProofGenerator.Keys) (db : Db.Database)
    (env : Prove.Env) (req : Prove.Request) :
  ProofGenerator._privateKey keys = None
  \/ ProofGenerator._encryptionKey keys = None ->
  Prove.is_created (fst (Prove.prove keys db env req)) = false
  /\ snd (Prove.prove keys db env req) = db.
Proof.
  intros Hkeys.
  destruct (prove_cases keys db env req)
    as [H|(body & rule & ruleEval & row & Hi & _)]; [exact H|].
  exfalso. unfold Prove.issue in Hi.
  destruct (Db.update_agent_nonce db _) as [[rows db1]|]; cbn [bind] in Hi;
    [|discriminate].
  destruct (hd_error (fst (rows, db1))) as [nonce|]; cbn [of_option bind] in Hi;
    [|discriminate].
  match type of Hi with
  | context [ProofGenerator.generateProof ?k ?n ?i ?n' ?a ?r ?c ?d ?e ?m ?x] =>
      destruct (generateProof_without_keys k n i n' a r c d e m x) as [H1 H2]
  end.
  destruct Hkeys as [Hk|Hk].
  - rewrite (H1 Hk) in Hi. discriminate.
  - destruct (H2 Hk) as (m & Hm). rewrite Hm in Hi. discriminate.
Qed.

End GeneratorMore.

Section GeneratorMoreRuns.
#[local] Existing Instance Sample.IntegerNumbers.
#[local] Existing Instance Sample.SimpleCrypto.
Import Js.


Lemma generateProof_result_witness :
  let payload := ProofGenerator.buildProofPayload "a1" "r1"
                   [Condition.mk "x" "<=" (JNum (Some 5%Z))] [("x", JNum (Some 3%Z))]
                   [EvalResult.mk "x" "<=" (JNum (Some 5%Z)) (JNum (Some 3%Z)) true]
                   true (Some 1%Z) 1700000000123 in
  gcm_contract
  /\ List.length (repeat x02 32) = 32 /\ List.length (repeat xab 12) = 12
  /\ secp256k1_sign (keccak256 (list_byte_of_string payload)) (repeat x01 32)
     = Some {| sig_r := 1%N; sig_s := 2%N; sig_recovery := 0%N |}
  /\ exists g,
       ProofGenerator.generateProof sample_keys 1700000000123 (repeat xab 12)
         1700000001001 "a1" "r1"
         [Condition.mk "x" "<=" (JNum (Some 5%Z))] [("x", JNum (Some 3%Z))]
         [EvalResult.mk "x" "<=" (JNum (Some 5%Z)) (JNum (Some 3%Z)) true]
         true (Some 1%Z) = Ok g
       /\ ProofGenerator.proof_hash g = ProofGenerator.hashPayload payload
       /\ ProofGenerator.timestamp g = 1700000001%Z.
Proof.
  intros payload.
  assert (Hsig : secp256k1_sign (keccak256 (list_byte_of_string payload))
                   (repeat x01 32)
                 = Some {| sig_r := 1%N; sig_s := 2%N; sig_recovery := 0%N |})
    by (vm_compute; reflexivity).
  split; [exact SimpleCrypto_contract|]. split; [reflexivity|]. split; [reflexivity|].
  split; [exact Hsig|].
  subst payload.
  destruct (@generateProof_result Sample.IntegerNumbers Sample.SimpleCrypto
              (repeat x01 32) (repeat x02 32) (repeat xab 12)
              1700000000123 1700000001001 "a1" "r1" _ _ _ true _ _
              SimpleCrypto_contract eq_refl eq_refl Hsig)
    as (g & signature & Hg & Hh & _ & Ht & _).
  exists g. split; [exact Hg|]. split; [exact Hh|exact Ht].
Defined.

Lemma prove_without_keys_witness :
  (ProofGenerator._privateKey keys_without_signing_key = None
   \/ ProofGenerator._encryptionKey keys_without_signing_key = None)
  /\ snd (Prove.prove keys_without_signing_key (sample_db "starter" 0)
            (sample_env "p1" 1700000000123) (sample_request "starter" 0))
     = sample_db "starter" 0.
Proof.
  assert (H : ProofGenerator._privateKey keys_without_signing_key = None
              \/ ProofGenerator._encryptionKey keys_without_signing_key = None)
    by (left; reflexivity).
  split; [exact H|].
  exact (proj2 (prove_without_keys keys_without_signing_key (sample_db "starter" 0)
                  (sample_env "p1" 1700000000123) (sample_request "starter" 0) H)).
Defined.

End GeneratorMoreRuns.

(** ** The registry contracts *)

Section ContractFacts.
Context {C : Crypto}.
Import Solidity.

Lemma bytes32_eqb_eq (a b : list byte) : bytes32_eqb a b = true <-> a = b.
Proof.
  revert b. induction a as [|x a IH]; intros [|y b]; cbn [bytes32_eqb];
    split; try congruence; try discriminate.
  - intros H. apply andb_true_iff in H as [H1 H2].
    apply byte_dec_bl in H1. apply IH in H2. congruence.
  - intros H. inversion H; subst. rewrite (byte_dec_lb eq_refl).
    apply IH. reflexivity.
Qed.

Lemma bytes32_eqb_refl (a : list byte) : bytes32_eqb a a = true.
Proof. apply bytes32_eqb_eq. reflexivity. Qed.

Lemma existsb_bytes32_In (k : list byte) (hs : list (list byte)) :
  existsb (bytes32_eqb k) hs = true <-> In k hs.
Proof.
  rewrite existsb_exists. split.
  - intros (x & Hin & E). apply bytes32_eqb_eq in E. congruence.
  - intros Hin. exists k. split; [exact Hin|apply bytes32_eqb_refl].
Qed.

Lemma to_N_injective (x y : byte) : Byte.to_N x = Byte.to_N y -> x = y.
Proof.
  intros H. pose proof (Byte.of_to_N x) as Hx. rewrite H, Byte.of_to_N in Hx.
  congruence.
Qed.

Lemma bytes_compare_eq (x y : list byte) : bytes_compare x y = Eq -> x = y.
Proof.
  revert y. induction x as [|a x IH]; intros [|b y] H; cbn [bytes_compare] in H;
    try discriminate; [reflexivity|].
  destruct (Byte.to_N a ?= Byte.to_N b)%N eqn:E; try discriminate.
  apply N.compare_eq in E. apply to_N_injective in E. f_equal; [exact E|].
  apply IH. exact H.
Qed.

Lemma bytes_compare_antisym (x y : list byte) :
  bytes_compare y x = CompOpp (bytes_compare x y).
Proof.
  revert y. induction x as [|a x IH]; intros [|b y]; try reflexivity.
  cbn [bytes_compare]. rewrite (N.compare_antisym (Byte.to_N a) (Byte.to_N b)).
  destruct (Byte.to_N a ?= Byte.to_N b)%N; cbn [CompOpp]; [apply IH|reflexivity..].
Qed.

Lemma value_step (a b : N) (c d : byte) :
  (a * 256 + Byte.to_N c ?= b * 256 + Byte.to_N d)%N
  = match (a ?= b)%N with
    | Eq => (Byte.to_N c ?= Byte.to_N d)%N
    | r => r
    end.
Proof.
  pose proof (Byte.to_N_bounded c). pose proof (Byte.to_N_bounded d).
  destruct (N.compare_spec a b).
  - subst. destruct (N.compare_spec (Byte.to_N c) (Byte.to_N d)).
    + apply N.compare_eq_iff. lia.
    + apply N.compare_lt_iff. lia.
    + apply N.compare_gt_iff. lia.
  - apply N.compare_lt_iff. lia.
  - apply N.compare_gt_iff. lia.
Qed.

Lemma value_compare_from (x : list byte) :
  forall (y : list byte) (a b : N),
    List.length x = List.length y ->
    (fold_left (fun acc v => acc * 256 + Byte.to_N v) x a
     ?= fold_left (fun acc v => acc * 256 + Byte.to_N v) y b)%N
    = match (a ?= b)%N with
      | Eq => bytes_compare x y
      | r => r
      end.
Proof.
  induction x as [|c x IH]; intros [|d y] a b Hl; try discriminate.
  - cbn. destruct (a ?= b)%N; reflexivity.
  - cbn [fold_left bytes_compare]. rewrite IH by (simpl in Hl; lia).
    rewrite value_step. destruct (a ?= b)%N; reflexivity.
Qed.

(** On values of the same length the order of the contract, on numbers, is
    the order of the batch job, on hexadecimal texts. *)
Lemma bytes32_le_leb (a b : list byte) :
  List.length a = List.length b -> bytes32_le a b = bytes_leb a b.
Proof.
  intros Hl. unfold bytes32_le, bytes_leb, N.leb, bytes32_value.
  rewrite (value_compare_from a b 0 0 Hl). reflexivity.
Qed.

Lemma climb_left (a b : list byte) :
  is_node a -> is_node b -> VouchRegistry.climb a b = combine a b.
Proof.
  intros Ha Hb. unfold VouchRegistry.climb, combine.
  rewrite bytes32_le_leb by (unfold is_node in *; congruence).
  destruct (bytes_leb a b); reflexivity.
Qed.

Lemma climb_right (a b : list byte) :
  is_node a -> is_node b -> VouchRegistry.climb b a = combine a b.
Proof.
  intros Ha Hb. unfold VouchRegistry.climb, combine.
  rewrite bytes32_le_leb by (unfold is_node in *; congruence).
  unfold bytes_leb. rewrite (bytes_compare_antisym a b).
  destruct (bytes_compare a b) eqn:E; cbn [CompOpp]; try reflexivity.
  apply bytes_compare_eq in E. subst. reflexivity.
Qed.

Lemma list_pairs_ind {A : Type} (P : list A -> Prop) :
  P [] -> (forall a, P [a]) -> (forall a b l, P l -> P (a :: b :: l)) ->
  forall l, P l.
Proof.
  intros H0 H1 H2. fix IH 1. intros [|a [|b l]]; [exact H0|apply H1|].
  apply H2. apply IH.
Qed.

(** One level up, the node above position [i] is what one round of the
    contract's loop makes of the node at [i] and its sibling. *)
Lemma level_up_nth (layer : list (list byte)) :
  Forall is_node layer ->
  forall i h, nth_error layer i = Some h ->
    nth_error (level_up layer) (Nat.div2 i)
    = Some (match sibling layer i with
            | Some s => VouchRegistry.climb h s
            | None => h
            end).
Proof.
  induction layer as [|a|a b l IH] using list_pairs_ind; intros Hn i h Hi.
  - destruct i; discriminate.
  - destruct i as [|[|i]]; try discriminate. exact Hi.
  - inversion Hn as [|? ? Ha Hn1]; subst. inversion Hn1 as [|? ? Hb Hn2]; subst.
    destruct i as [|[|i]].
    + inversion Hi; subst. cbn. rewrite climb_left by assumption. reflexivity.
    + inversion Hi; subst. cbn. rewrite climb_right by assumption. reflexivity.
    + cbn [nth_error] in Hi. cbn [level_up Nat.div2 nth_error sibling].
      apply IH; assumption.
Qed.

Section WithDigests.
Hypothesis keccak256_length : forall bs, List.length (keccak256 bs) = 32.

Lemma path_climbs (fuel : nat) :
  forall layer i h r,
    Forall is_node layer -> nth_error layer i = Some h ->
    root_from fuel layer = Some r ->
    fold_left VouchRegistry.climb (merkle_path_from fuel layer i) h = r.
Proof.
  induction fuel as [|fuel IH]; intros [|x [|y l]] i h r Hn Hi Hr;
    try (destruct i; discriminate);
    try (destruct i as [|[|i]]; try discriminate;
         cbn in Hi, Hr |- *; congruence);
    try discriminate.
  cbn [merkle_path_from]. rewrite fold_left_app.
  apply (IH (level_up (x :: y :: l)) (Nat.div2 i)).
  - apply (next_layer_level_up keccak256_length). exact Hn.
  - rewrite (level_up_nth _ Hn i h Hi).
    destruct (sibling (x :: y :: l) i); reflexivity.
  - exact Hr.
Qed.

(** The root that [computeMerkleRoot] returns for the texts of the nodes
    [hs] is the text of the root of the tree over [hs]. *)
Lemma computeMerkleRoot_tree_root (hs : list (list byte)) :
  hs <> [] -> Forall is_node hs ->
  exists root, merkle_root hs = Some root
               /\ BatchProofs.computeMerkleRoot (map leaf_text hs)
                  = Ok (leaf_text root).
Proof.
  intros Hne Hn.
  destruct (reduce_root keccak256_length (List.length hs) hs Hne (le_n _) Hn)
    as (root & Hr & Hred).
  exists root. split; [exact Hr|].
  destruct hs as [|h1 [|h2 hs']]; [congruence| |].
  - cbn in Hr. inversion Hr; subst. reflexivity.
  - unfold BatchProofs.computeMerkleRoot.
    cbn [map]. change (leaf_text h1 :: leaf_text h2 :: map leaf_text hs')
      with (map leaf_text (h1 :: h2 :: hs')).
    rewrite decode_leaf_texts. cbn [bind]. rewrite Hred. reflexivity.
Qed.

Lemma leaf_text_injective (a b : list byte) : leaf_text a = leaf_text b -> a = b.
Proof.
  unfold leaf_text. intros H. cbn [append] in H. inversion H as [E].
  pose proof (noble_hexToBytes_bytesToHex a) as Ha.
  rewrite E, noble_hexToBytes_bytesToHex in Ha. congruence.
Qed.

End WithDigests.

Lemma register_each_ok (hs : list (list byte)) :
  forall e e' ev,
    VouchRegistry.register_each e hs = Ok (e', ev) ->
    NoDup hs
    /\ (forall h, In h hs -> e h = false)
    /\ (forall k, e' k = e k || existsb (bytes32_eqb k) hs)
    /\ ev = map VouchRegistry.ProofRegistered hs.
Proof.
  induction hs as [|h rest IH]; intros e e' ev H; cbn [VouchRegistry.register_each] in H.
  - inversion H; subst. repeat split; [constructor|intros h []|].
    intros k. cbn. rewrite orb_false_r. reflexivity.
  - destruct (e h) eqn:Eh; cbn [negb require bind] in H; [discriminate|].
    destruct (VouchRegistry.register_each (store e h true) rest) as [[e1 ev1]|] eqn:E;
      cbn [bind fst snd] in H; [|discriminate].
    inversion H; subst e1 ev; clear H.
    destruct (IH _ _ _ E) as (Hnd & Hfresh & Hk & Hev).
    assert (Hnot : ~ In h rest).
    { intros Hin. specialize (Hfresh h Hin). unfold store in Hfresh.
      rewrite bytes32_eqb_refl in Hfresh. discriminate. }
    repeat split.
    + constructor; assumption.
    + intros x [<-|Hin]; [exact Eh|].
      specialize (Hfresh x Hin). unfold store in Hfresh.
      destruct (bytes32_eqb x h); [discriminate|exact Hfresh].
    + intros k. rewrite Hk. unfold store. cbn [existsb].
      destruct (bytes32_eqb k h) eqn:Ek; cbn [orb].
      * rewrite orb_true_r. reflexivity.
      * reflexivity.
    + cbn [map]. congruence.
Qed.

Lemma register_each_succeeds (hs : list (list byte)) :
  forall e, NoDup hs -> (forall h, In h hs -> e h = false) ->
    exists r, VouchRegistry.register_each e hs = Ok r.
Proof.
  induction hs as [|h rest IH]; intros e Hnd Hfresh; cbn [VouchRegistry.register_each].
  - eauto.
  - rewrite (Hfresh h (or_introl eq_refl)). cbn [negb require bind].
    inversion Hnd as [|? ? Hnot Hnd']; subst.
    destruct (IH (store e h true) Hnd') as (r & Hr).
    { intros x Hin. unfold store. destruct (bytes32_eqb x h) eqn:Ex.
      - apply bytes32_eqb_eq in Ex. subst. contradiction.
      - apply Hfresh. right. exact Hin. }
    rewrite Hr. cbn [bind]. eauto.
Qed.

(** What a [registerBatch] that did not revert was given and has done. *)
Lemma registerBatch_ok (s s' : VouchRegistry.State) (sender time : N)
    (root : list byte) (count : N) (hs : list (list byte))
    (events : list VouchRegistry.Event) :
  VouchRegistry.registerBatch s sender time root count hs = Ok (s', events) ->
  (sender = VouchRegistry.owner s
   /\ N.of_nat (List.length hs) = count /\ (0 < count <= 500)%N
   /\ (VouchRegistry.batchCount s < MAX_UINT256)%N
   /\ NoDup hs /\ (forall h, In h hs -> VouchRegistry.proofExists s h = false))
  /\ VouchRegistry.owner s' = VouchRegistry.owner s
  /\ VouchRegistry.batchCount s' = (VouchRegistry.batchCount s + 1)%N
  /\ VouchRegistry.batches s'
     = store_at (VouchRegistry.batches s) (VouchRegistry.batchCount s)
         {| VouchRegistry.merkleRoot := root; VouchRegistry.proofCount := count;
            VouchRegistry.timestamp := time |}
  /\ (forall k, VouchRegistry.proofExists s' k
                = VouchRegistry.proofExists s k || existsb (bytes32_eqb k) hs)
  /\ events = (map VouchRegistry.ProofRegistered hs
               ++ [VouchRegistry.BatchRegistered (VouchRegistry.batchCount s) root count])%list.
Proof.
  unfold VouchRegistry.registerBatch, VouchRegistry.onlyOwner. intros H.
  destruct (sender =? VouchRegistry.owner s)%N eqn:E1; cbn [require bind] in H;
    [|discriminate].
  destruct (N.of_nat (List.length hs) =? count)%N eqn:E2; cbn [require bind] in H;
    [|discriminate].
  destruct (0 <? count)%N eqn:E3; cbn [require bind] in H; [|discriminate].
  destruct (count <=? 500)%N eqn:E4; cbn [require bind] in H; [|discriminate].
  destruct (VouchRegistry.batchCount s <? MAX_UINT256)%N eqn:E5;
    cbn [require bind] in H; [|discriminate].
  destruct (VouchRegistry.register_each (VouchRegistry.proofExists s) hs)
    as [[e' ev]|] eqn:E6; cbn [bind fst snd] in H; [|discriminate].
  inversion H; subst s' events; clear H.
  destruct (register_each_ok _ _ _ _ E6) as (Hnd & Hfresh & Hk & Hev).
  apply N.eqb_eq in E1, E2. apply N.ltb_lt in E3, E5. apply N.leb_le in E4.
  cbn [VouchRegistry.owner VouchRegistry.batchCount VouchRegistry.batches
       VouchRegistry.proofExists].
  subst ev. repeat split; auto.
Qed.

(** X12.  [registerBatch] goes through exactly when the sender is the
    owner, the count is the number of hashes and lies between 1 and 500,
    the batch counter can still grow, the hashes are pairwise distinct and
    none of them is registered yet; otherwise it reverts. *)
Theorem registerBatch_succeeds_iff (s : VouchRegistry.State) (sender time : N)
    (root : list byte) (count : N) (hs : list (list byte)) :
  (exists r, VouchRegistry.registerBatch s sender time root count hs = Ok r)
  <-> (sender = VouchRegistry.owner s
       /\ N.of_nat (List.length hs) = count /\ (0 < count <= 500)%N
       /\ (VouchRegistry.batchCount s < MAX_UINT256)%N
       /\ NoDup hs
       /\ (forall h, In h hs -> VouchRegistry.exists_ s h = false)).
Proof.
  split.
  - intros ([s' events] & H). exact (proj1 (registerBatch_ok _ _ _ _ _ _ _ _ H)).
  - intros (H1 & H2 & [H3 H4] & H5 & Hnd & Hfresh).
    unfold VouchRegistry.registerBatch, VouchRegistry.onlyOwner.
    apply N.eqb_eq in H1, H2. apply N.ltb_lt in H3, H5. apply N.leb_le in H4.
    rewrite H1, H2, H3, H4, H5. cbn [require bind].
    destruct (register_each_succeeds hs (VouchRegistry.proofExists s) Hnd Hfresh)
      as (r & Hr).
    rewrite Hr. cbn [bind]. eauto.
Qed.

(** X13.  After a [registerBatch] that went through, [exists] answers true
    for the hashes of the batch and as before for every other hash, the new
    batch is read back by [getBatch] under the former value of the counter,
    and [getBatch] answers as before for every other identifier. *)
Theorem registerBatch_effect (s s' : VouchRegistry.State) (sender time : N)
    (root : list byte) (count : N) (hs : list (list byte))
    (events : list VouchRegistry.Event) :
  VouchRegistry.registerBatch s sender time root count hs = Ok (s', events) ->
  (forall k, In k hs -> VouchRegistry.exists_ s' k = true)
  /\ (forall k, ~ In k hs -> VouchRegistry.exists_ s' k = VouchRegistry.exists_ s k)
  /\ VouchRegistry.getBatch s' (VouchRegistry.batchCount s) = Ok (root, count, time)
  /\ (forall id, id <> VouchRegistry.batchCount s ->
        VouchRegistry.getBatch s' id = VouchRegistry.getBatch s id)
  /\ List.length events = S (List.length hs).
Proof.
  intros H. destruct (registerBatch_ok _ _ _ _ _ _ _ _ H)
    as (_ & _ & Hc & Hb & Hk & Hev).
  unfold VouchRegistry.exists_, VouchRegistry.getBatch. rewrite Hc, Hb.
  repeat split.
  - intros k Hin. rewrite Hk. apply existsb_bytes32_In in Hin. rewrite Hin.
    apply orb_true_r.
  - intros k Hin. rewrite Hk.
    destruct (existsb (bytes32_eqb k) hs) eqn:E.
    + apply existsb_bytes32_In in E. contradiction.
    + apply orb_false_r.
  - assert ((VouchRegistry.batchCount s <? VouchRegistry.batchCount s + 1)%N = true)
      as -> by (apply N.ltb_lt; lia).
    cbn [require bind]. unfold store_at. rewrite N.eqb_refl. reflexivity.
  - intros id Hid. unfold store_at.
    destruct (id <? VouchRegistry.batchCount s)%N eqn:E.
    + assert ((id <? VouchRegistry.batchCount s + 1)%N = true) as ->
        by (apply N.ltb_lt; apply N.ltb_lt in E; lia).
      cbn [require bind]. apply N.eqb_neq in Hid. rewrite Hid. reflexivity.
    + assert ((id <? VouchRegistry.batchCount s + 1)%N = false) as ->
        by (apply N.ltb_ge; apply N.ltb_ge in E; lia).
      reflexivity.
  - subst events. rewrite length_app, length_map. cbn. lia.
Qed.

(** X14.  The batch job and the contract agree on the tree.  When the
    batch job's [computeMerkleRoot] gave the root for the 32-byte hashes
    [hs] and [registerBatch] stored it with them, [verifyInclusion]
    accepts every hash of the batch with the path of its siblings, and
    [exists] answers true for it. *)
Theorem batched_leaf_is_verifiable (hs : list (list byte)) (i : nat)
    (h root : list byte) (s s' : VouchRegistry.State) (sender time : N)
    (events : list VouchRegistry.Event) :
  (forall bs, List.length (keccak256 bs) = 32) ->
  Forall is_node hs -> nth_error hs i = Some h ->
  BatchProofs.computeMerkleRoot (map leaf_text hs) = Ok (leaf_text root) ->
  VouchRegistry.registerBatch s sender time root (N.of_nat (List.length hs)) hs
  = Ok (s', events) ->
  VouchRegistry.verifyInclusion s' h (merkle_path hs i) (VouchRegistry.batchCount s)
  = Ok true
  /\ VouchRegistry.exists_ s' h = true.
Proof.
  intros Hlen Hn Hi Hroot Hreg.
  assert (Hne : hs <> []) by (intros ->; destruct i; discriminate).
  destruct (computeMerkleRoot_tree_root Hlen hs Hne Hn) as (r & Hr & Hc).
  assert (Ht : leaf_text r = leaf_text root) by congruence.
  apply leaf_text_injective in Ht. subst r.
  destruct (registerBatch_ok _ _ _ _ _ _ _ _ Hreg) as (_ & _ & Hcount & Hb & Hk & _).
  split.
  - unfold VouchRegistry.verifyInclusion. rewrite Hcount, Hb.
    assert ((VouchRegistry.batchCount s <? VouchRegistry.batchCount s + 1)%N = true)
      as -> by (apply N.ltb_lt; lia).
    cbn [require bind]. unfold store_at. rewrite N.eqb_refl.
    cbn [VouchRegistry.merkleRoot]. unfold merkle_path.
    rewrite (path_climbs Hlen (List.length hs) hs i h root Hn Hi Hr).
    rewrite bytes32_eqb_refl. reflexivity.
  - unfold VouchRegistry.exists_. rewrite Hk.
    assert (existsb (bytes32_eqb h) hs = true) as ->
      by (apply existsb_bytes32_In; eapply nth_error_In; eassumption).
    apply orb_true_r.
Qed.

(** X15.  Over any sequence of [registerBatch] transactions no hash is
    accepted twice: the hashes of the batches that went through are
    pairwise distinct, they are the hashes for which [exists] has become
    true, and the batch counter has grown by the number of these batches. *)
Theorem register_all_never_twice
    (calls : list (N * N * list byte * N * list (list byte))) :
  forall s : VouchRegistry.State,
    let final := fst (register_all s calls) in
    let accepted := snd (register_all s calls) in
    NoDup (List.concat accepted)
    /\ (forall k, VouchRegistry.exists_ final k
                  = VouchRegistry.exists_ s k || existsb (bytes32_eqb k) (List.concat accepted))
    /\ (forall k, In k (List.concat accepted) -> VouchRegistry.exists_ s k = false)
    /\ VouchRegistry.batchCount final
       = (VouchRegistry.batchCount s + N.of_nat (List.length accepted))%N.
Proof.
  induction calls as [|[[[[sender time] root] count] hs] rest IH]; intros s.
  - cbn. repeat split; [constructor|intros k; rewrite orb_false_r; reflexivity
                        |intros k []|lia].
  - cbn [register_all].
    destruct (VouchRegistry.registerBatch s sender time root count hs)
      as [[s' events]|m] eqn:E; [|apply IH].
    specialize (IH s'). destruct (register_all s' rest) as [final accepted].
    cbn [fst snd] in IH |- *. destruct IH as (Hnd & Hk & Hfresh & Hc).
    destruct (registerBatch_ok _ _ _ _ _ _ _ _ E)
      as ((_ & _ & _ & _ & Hnd0 & Hfresh0) & _ & Hc0 & _ & Hk0 & _).
    unfold VouchRegistry.exists_ in *. cbn [List.concat].
    repeat split.
    + apply NoDup_app; [exact Hnd0|exact Hnd|].
      intros k Hin Hin'. specialize (Hfresh k Hin'). rewrite Hk0 in Hfresh.
      apply existsb_bytes32_In in Hin. rewrite Hin, orb_true_r in Hfresh.
      discriminate.
    + intros k. rewrite Hk, Hk0, existsb_app, orb_assoc. reflexivity.
    + intros k Hin. apply in_app_or in Hin as [Hin|Hin]; [apply Hfresh0; exact Hin|].
      specialize (Hfresh k Hin). rewrite Hk0 in Hfresh.
      apply orb_false_iff in Hfresh. tauto.
    + rewrite Hc, Hc0. cbn [List.length]. lia.
Qed.

Lemma anchor_all_state (calls : list (N * list byte * N)) :
  forall (s : RuleRegistry.State) (h : list byte),
    let final := RuleRegistry.anchor_all s calls in
    RuleRegistry.owner final = RuleRegistry.owner s
    /\ (if RuleRegistry.ruleExists final h
        then Some (RuleRegistry.ruleVersion final h) else None)
       = last_anchored (RuleRegistry.owner s) h calls
           (if RuleRegistry.ruleExists s h
            then Some (RuleRegistry.ruleVersion s h) else None).
Proof.
  induction calls as [|[[sender ruleHash] version] rest IH]; intros s h.
  - split; reflexivity.
  - cbn [RuleRegistry.anchor_all last_anchored].
    unfold RuleRegistry.anchorRule, RuleRegistry.onlyOwner.
    destruct (sender =? RuleRegistry.owner s)%N; cbn [require bind andb].
    + destruct (IH {| RuleRegistry.owner := RuleRegistry.owner s;
                      RuleRegistry.ruleExists :=
                        store (RuleRegistry.ruleExists s) ruleHash true;
                      RuleRegistry.ruleVersion :=
                        store (RuleRegistry.ruleVersion s) ruleHash version |} h)
        as [Ho Hv].
      cbn [RuleRegistry.owner RuleRegistry.ruleExists RuleRegistry.ruleVersion]
        in Ho, Hv.
      split; [exact Ho|]. rewrite Hv. unfold store.
      destruct (bytes32_eqb h ruleHash); reflexivity.
    + apply IH.
Qed.

(** X16.  After any sequence of [anchorRule] transactions sent to a newly
    deployed RuleRegistry, [getVersion] returns for a rule hash the version
    of the last transaction of the owner that anchored it, and reverts
    with "Rule not found" when the owner anchored it in none; what other
    senders send changes nothing. *)
Theorem getVersion_last_anchored (deployer : N) (calls : list (N * list byte * N))
    (h : list byte) :
  RuleRegistry.getVersion (RuleRegistry.anchor_all (RuleRegistry.constructor deployer) calls) h
  = match last_anchored deployer h calls None with
    | Some version => Ok version
    | None => Throw "Rule not found"
    end
  /\ RuleRegistry.exists_ (RuleRegistry.anchor_all (RuleRegistry.constructor deployer) calls) h
     = match last_anchored deployer h calls None with
       | Some _ => true
       | None => false
       end.
Proof.
  destruct (anchor_all_state calls (RuleRegistry.constructor deployer) h) as [_ H].
  cbn [RuleRegistry.constructor RuleRegistry.owner RuleRegistry.ruleExists] in H.
  rewrite <- H. unfold RuleRegistry.getVersion, RuleRegistry.exists_.
  destruct (RuleRegistry.ruleExists _ h); split; reflexivity.
Qed.

End ContractFacts.

Section ContractRuns.
#[local] Existing Instance Sample.SimpleCrypto.
Import Solidity.

Lemma registerBatch_effect_witness :
  let h1 := repeat x01 32 in
  let h2 := repeat x02 32 in
  let s := VouchRegistry.constructor 7 in
  exists s' events,
    VouchRegistry.registerBatch s 7 1700000000 (repeat xaa 32) 2 [h1; h2]
    = Ok (s', events)
    /\ VouchRegistry.exists_ s' h2 = true
    /\ VouchRegistry.getBatch s' 0 = Ok (repeat xaa 32, 2%N, 1700000000%N).
Proof.
  intros h1 h2 s.
  destruct (VouchRegistry.registerBatch s 7 1700000000 (repeat xaa 32) 2 [h1; h2])
    as [[s' events]|m] eqn:E; [|vm_compute in E; discriminate].
  exists s', events. split; [reflexivity|].
  destruct (registerBatch_effect s s' 7 1700000000 (repeat xaa 32) 2 [h1; h2] events E)
    as (Hin & _ & Hget & _).
  split; [apply Hin; right; left; reflexivity|exact Hget].
Defined.

Lemma batched_leaf_is_verifiable_witness :
  let h1 := repeat x01 32 in
  let h2 := repeat x02 32 in
  let h3 := repeat x03 32 in
  let root := combine (combine h1 h2) h3 in
  let s := VouchRegistry.constructor 7 in
  (forall bs, List.length (keccak256 bs) = 32)
  /\ Forall is_node [h1; h2; h3]
  /\ nth_error [h1; h2; h3] 1 = Some h2
  /\ BatchProofs.computeMerkleRoot (map leaf_text [h1; h2; h3]) = Ok (leaf_text root)
  /\ merkle_path [h1; h2; h3] 1 = [h1; h3]
  /\ exists s' events,
       VouchRegistry.registerBatch s 7 1700000000 root 3 [h1; h2; h3] = Ok (s', events)
       /\ VouchRegistry.verifyInclusion s' h2 (merkle_path [h1; h2; h3] 1) 0 = Ok true.
Proof.
  intros h1 h2 h3 root s.
  assert (Hn : Forall is_node [h1; h2; h3]) by (repeat constructor).
  assert (Hroot : BatchProofs.computeMerkleRoot (map leaf_text [h1; h2; h3])
                  = Ok (leaf_text root)) by (vm_compute; reflexivity).
  split; [exact SimpleCrypto_digest_length|]. split; [exact Hn|].
  split; [reflexivity|]. split; [exact Hroot|]. split; [reflexivity|].
  destruct (VouchRegistry.registerBatch s 7 1700000000 root 3 [h1; h2; h3])
    as [[s' events]|m] eqn:E; [|vm_compute in E; discriminate].
  exists s', events. split; [reflexivity|].
  exact (proj1 (batched_leaf_is_verifiable [h1; h2; h3] 1 h2 root s s' 7 1700000000
                  events SimpleCrypto_digest_length Hn eq_refl Hroot E)).
Defined.

End ContractRuns.

(** ** More about POST /api/prove *)

Section ProveMore.
Context {N : NumberOps} {C : Crypto}.
Import Js.

(** The steps of a run of the atomic section that did not throw. *)
Lemma issue_steps (keys : ProofGenerator.Keys) (env : Prove.Env) (req : Prove.Request)
    (body : Prove.ProveBody) (rule : RuleRow.t) (ruleEval : RuleEngine.RuleEvaluation)
    (db db' : Db.Database) (row : ProofRow.t) :
  Prove.issue keys env req body rule ruleEval db = Ok (row, db') ->
  exists rows db1 nonce generated db2 sent cost,
    Db.update_agent_nonce db (AgentRow.id (Prove.agent req)) = Ok (rows, db1)
    /\ hd_error rows = Some nonce
    /\ ProofGenerator.generateProof keys (Prove.now env) (Prove.iv env)
         (Prove.now_end env)
         (AgentRow.id (Prove.agent req)) (RuleRow.id rule)
         (Prove.as_conditions (RuleRow.conditions rule)) (Prove.action_data body)
         (RuleEngine.evaluation ruleEval) (RuleEngine.rule_met ruleEval)
         (num_of_Z nonce) = Ok generated
    /\ sent = ProofRow.mk (Prove.uuid env) (AgentRow.id (Prove.agent req))
                (RuleRow.id rule)
                (ProofGenerator.JSON_stringify (JObj (Prove.action_data body)) None)
                (ProofGenerator.JSON_stringify
                   (JArr (map ProofGenerator.eval_result_value
                              (RuleEngine.evaluation ruleEval))) None)
                (RuleEngine.rule_met ruleEval) (RuleEngine.summary ruleEval)
                (ProofGenerator.proof_hash generated)
                (ProofGenerator.signature_encrypted generated)
                nonce (Prove.costPerProof (Prove.user req)) (Prove.db_now env)
    /\ Column.DECIMAL_10_6 (Prove.costPerProof (Prove.user req)) = Ok cost
    /\ row = Db.stored sent cost
    /\ Db.insert_proof db1 sent = Ok (row, db2)
    /\ Db.update_user_used db2 (UserRow.id (Prove.user req)) = Ok db'.
Proof.
  unfold Prove.issue. intros H.
  destruct (Db.update_agent_nonce db (AgentRow.id (Prove.agent req)))
    as [[rows db1]|] eqn:E1; cbn [bind] in H; [|discriminate].
  cbn [fst snd] in H.
  destruct (hd_error rows) as [nonce|] eqn:Hrows; cbn [of_option bind] in H;
    [|discriminate].
  destruct (ProofGenerator.generateProof _ _ _ _ _ _ _ _ _ _ _) as [generated|] eqn:G;
    cbn [bind] in H; [|discriminate].
  destruct (Db.insert_proof db1 _) as [[row1 db2]|] eqn:E2; cbn [bind] in H;
    [|discriminate].
  destruct (insert_proof_effect _ _ _ _ E2) as ((cost & Hcost & Hrow1) & _).
  cbn [fst snd] in H.
  destruct (Db.update_user_used db2 _) as [db3|] eqn:E3; cbn [bind] in H;
    [|discriminate].
  inversion H; subst db3; clear H.
  exists rows, db1, nonce, generated, db2. eexists. exists cost.
  repeat (split; [first [reflexivity|eassumption|congruence]|]).
  first [reflexivity|eassumption|congruence].
Qed.

Lemma generateProof_fields (keys : ProofGenerator.Keys) (now : Z) (iv : list byte)
    (now_end : Z) (agentId ruleId : string) (conditions : list Condition.t)
    (actionData : JsObject) (evaluation : list EvalResult.t) (ruleMet : bool)
    (nonce : number) (g : ProofGenerator.GeneratedProof) :
  ProofGenerator.generateProof keys now iv now_end agentId ruleId conditions
                               actionData evaluation ruleMet nonce = Ok g ->
  ProofGenerator.proof_hash g
  = ProofGenerator.hashPayload
      (ProofGenerator.buildProofPayload agentId ruleId conditions actionData
                                        evaluation ruleMet nonce now)
  /\ ProofGenerator.gp_nonce g = nonce
  /\ ProofGenerator.timestamp g = (now_end / 1000)%Z.
Proof.
  unfold ProofGenerator.generateProof. intros H.
  destruct (ProofGenerator.signProof _ _) as [signature|]; cbn [bind] in H;
    [|discriminate].
  destruct (ProofGenerator.encrypt _ _ _) as [enc|]; cbn [bind] in H;
    [|discriminate].
  inversion H; subst g; clear H. repeat split.
Qed.

(** The insertion went through the conversions of the columns. *)
Lemma insert_proof_columns (db db' : Db.Database) (row row' : ProofRow.t) :
  Db.insert_proof db row = Ok (row', db') ->
  Column.refuses 0 false (ProofRow.action_data row) = false
  /\ Column.refuses 0 false (ProofRow.evaluation row) = false.
Proof.
  unfold Db.insert_proof, Column.JSONB. intros H.
  destruct (Column.refuses 0 false (ProofRow.action_data row)); cbn [bind] in H;
    [discriminate|].
  destruct (Column.refuses 0 false (ProofRow.evaluation row)); cbn [bind] in H;
    [discriminate|].
  split; reflexivity.
Qed.

(** X17.  A 201 reply describes the row that the request stored.  The
    rule named in the body exists, belongs to the calling agent, is active
    and well formed; [evaluateRule] returned on the stored conditions and
    the submitted data, and the reply's evaluation, verdict and summary
    are its; one row was appended to the proofs table, with the
    identifier, the digest, the verdict, the summary and the creation time
    of the reply; the row's cost is the caller's cost per proof rounded to
    the six decimals of its column, and the reply's cost is the text of a
    dollar sign and that stored cost with four decimals; the two JSON
    texts of the row hold no escape that JSONB refuses (of U+0000, of a
    lone surrogate); the row's nonce is the
    agent's counter plus one; and the digest is that of the payload built
    from these, at the clock's first reading. *)
Theorem prove_created_row (keys : ProofGenerator.Keys) (db : Db.Database)
    (env : Prove.Env) (req : Prove.Request) (pid ph : string) (verdict : bool)
    (ev : list EvalResult.t) (summary : string) (cost : string) (at_ : Z) :
  fst (Prove.prove keys db env req)
  = Prove.Created pid ph verdict ev summary cost at_ ->
  exists body rule row,
    Prove.parsed req = Ok body
    /\ Db.select_rule db (Prove.rule_id body) = Some rule
    /\ RuleRow.agent_id rule = AgentRow.id (Prove.agent req)
    /\ RuleRow.status rule = "active"
    /\ RuleEngine.validateConditions (RuleRow.conditions rule) = RuleEngine.Valid
    /\ RuleEngine.evaluateRule (Prove.as_conditions (RuleRow.conditions rule))
                               (Prove.action_data body)
       = Ok {| RuleEngine.rule_met := verdict; RuleEngine.evaluation := ev;
               RuleEngine.summary := summary |}
    /\ Db.proofs (snd (Prove.prove keys db env req)) = (Db.proofs db ++ [row])%list
    /\ ProofRow.id row = pid /\ pid = Prove.uuid env
    /\ ProofRow.agent_id row = AgentRow.id (Prove.agent req)
    /\ ProofRow.rule_id row = RuleRow.id rule
    /\ ProofRow.rule_met row = verdict
    /\ ProofRow.decision_summary row = summary
    /\ Column.DECIMAL_10_6 (Prove.costPerProof (Prove.user req))
       = Ok (ProofRow.proof_cost row)
    /\ cost = "$" ++ Column.toFixed4 (ProofRow.proof_cost row)
    /\ Column.refuses 0 false (ProofRow.action_data row) = false
    /\ Column.refuses 0 false (ProofRow.evaluation row) = false
    /\ ProofRow.created_at row = at_ /\ at_ = Prove.db_now env
    /\ agent_nonce db (AgentRow.id (Prove.agent req)) = Some (ProofRow.nonce row - 1)%Z
    /\ ProofRow.proof_hash row = ph
    /\ ph = ProofGenerator.hashPayload
              (ProofGenerator.buildProofPayload (AgentRow.id (Prove.agent req))
                 (RuleRow.id rule) (Prove.as_conditions (RuleRow.conditions rule))
                 (Prove.action_data body) ev verdict
                 (num_of_Z (ProofRow.nonce row)) (Prove.now env)).
Proof.
  unfold Prove.prove.
  destruct (Prove.parsed req) as [body|]; [|discriminate].
  destruct (assoc _ Tiers.TIERS) as [tier|]; [|discriminate].
  destruct (_ && _); [discriminate|].
  destruct (Db.select_rule db _) as [rule|] eqn:Hrule; [|discriminate].
  destruct (String.eqb (RuleRow.agent_id rule) _) eqn:Hown; cbn [negb];
    [|discriminate].
  destruct (String.eqb (RuleRow.status rule) _) eqn:Hact; cbn [negb];
    [|discriminate].
  destruct (RuleEngine.validateConditions _) eqn:Hvalid; try discriminate.
  destruct (RuleEngine.evaluateRule _ _) as [ruleEval|] eqn:Heval; [|discriminate].
  unfold Db.transaction.
  destruct (Prove.issue keys env req body rule ruleEval db) as [[row db']|] eqn:E;
    [|discriminate].
  cbn [fst snd]. intros H. inversion H; subst; clear H.
  apply String.eqb_eq in Hown, Hact.
  destruct (issue_steps _ _ _ _ _ _ _ _ _ E)
    as (rows & db1 & nonce & generated & db2 & sent & stored_cost
        & E1 & Hd & G & Hsent & Hcost & Hrow & E2 & _).
  destruct (issue_effect _ _ _ _ _ _ _ _ _ E) as (_ & Hproofs & _ & Hnonce & _).
  destruct (generateProof_fields _ _ _ _ _ _ _ _ _ _ _ _ G) as (Hh & _).
  destruct (insert_proof_columns _ _ _ _ E2) as (Hj1 & Hj2).
  exists body, rule, row.
  assert (Hfields : ProofRow.id row = Prove.uuid env
                    /\ ProofRow.agent_id row = AgentRow.id (Prove.agent req)
                    /\ ProofRow.rule_id row = RuleRow.id rule
                    /\ ProofRow.nonce row = nonce
                    /\ ProofRow.proof_hash row = ProofGenerator.proof_hash generated
                    /\ ProofRow.proof_cost row = stored_cost
                    /\ ProofRow.created_at row = Prove.db_now env
                    /\ ProofRow.rule_met row = RuleEngine.rule_met ruleEval
                    /\ ProofRow.decision_summary row = RuleEngine.summary ruleEval
                    /\ ProofRow.action_data row = ProofRow.action_data sent
                    /\ ProofRow.evaluation row = ProofRow.evaluation sent)
    by (rewrite Hrow, Hsent; repeat split).
  destruct Hfields as (F1 & F2 & F3 & F4 & F5 & F6 & F7 & F8 & F9 & F10 & F11).
  assert (G1 : RuleEngine.evaluateRule
                 (Prove.as_conditions (RuleRow.conditions rule))
                 (Prove.action_data body)
               = Ok {| RuleEngine.rule_met := ProofRow.rule_met row;
                       RuleEngine.evaluation := RuleEngine.evaluation ruleEval;
                       RuleEngine.summary := ProofRow.decision_summary row |})
    by (rewrite Heval, F8, F9; destruct ruleEval; reflexivity).
  assert (G2 : Column.DECIMAL_10_6 (Prove.costPerProof (Prove.user req))
               = Ok (ProofRow.proof_cost row)) by (rewrite F6; exact Hcost).
  assert (G3 : Column.refuses 0 false (ProofRow.action_data row) = false)
    by (rewrite F10; exact Hj1).
  assert (G4 : Column.refuses 0 false (ProofRow.evaluation row) = false)
    by (rewrite F11; exact Hj2).
  assert (G5 : agent_nonce db (AgentRow.id (Prove.agent req))
               = Some (ProofRow.nonce row - 1)%Z).
  { destruct (agent_nonce db (AgentRow.id (Prove.agent req))) as [n0|];
      cbn [option_map] in Hnonce; [|discriminate].
    inversion Hnonce as [Hn]. rewrite Hn. f_equal. lia. }
  assert (G6 : ProofRow.proof_hash row
               = ProofGenerator.hashPayload
                   (ProofGenerator.buildProofPayload (AgentRow.id (Prove.agent req))
                      (RuleRow.id rule) (Prove.as_conditions (RuleRow.conditions rule))
                      (Prove.action_data body) (RuleEngine.evaluation ruleEval)
                      (ProofRow.rule_met row)
                      (num_of_Z (ProofRow.nonce row)) (Prove.now env)))
    by (rewrite F5, Hh, F4, F8; reflexivity).
  repeat (split; [first [reflexivity|eassumption]|]).
  first [reflexivity|eassumption].
Qed.

Lemma existsb_key_absent {A : Type} (key : A -> string) (k : string) (l : list A) :
  existsb (fun x => String.eqb (key x) k) l = false -> ~ In k (map key l).
Proof.
  intros H Hin. apply in_map_iff in Hin as (x & Hx & Hin).
  assert (existsb (fun x => String.eqb (key x) k) l = true).
  { apply existsb_exists. exists x. split; [exact Hin|].
    apply String.eqb_eq. exact Hx. }
  congruence.
Qed.

Lemma NoDup_snoc {A : Type} (l : list A) (a : A) :
  NoDup l -> ~ In a l -> NoDup (l ++ [a])%list.
Proof.
  intros Hnd Hnot. apply NoDup_app; [exact Hnd|repeat constructor; intros []|].
  intros x Hin [<-|[]]. contradiction.
Qed.

Lemma insert_proof_keys (db db' : Db.Database) (row row' : ProofRow.t) :
  Db.insert_proof db row = Ok (row', db') ->
  existsb (fun p => String.eqb (ProofRow.id p) (ProofRow.id row')) (Db.proofs db) = false
  /\ existsb (fun a => String.eqb (AgentRow.id a) (ProofRow.agent_id row'))
             (Db.agents db) = true
  /\ existsb (fun r => String.eqb (RuleRow.id r) (ProofRow.rule_id row'))
             (Db.rules db) = true
  /\ (- Db.INT_MAX - 1 <= ProofRow.nonce row' <= Db.INT_MAX)%Z.
Proof.
  intros H. destruct (insert_proof_effect _ _ _ _ H) as ((cost & _ & ->) & _).
  cbn [Db.stored ProofRow.id ProofRow.agent_id ProofRow.rule_id ProofRow.nonce].
  revert H. unfold Db.insert_proof. intros H.
  destruct (Column.JSONB (ProofRow.action_data row)); cbn [bind] in H; [|discriminate].
  destruct (Column.JSONB (ProofRow.evaluation row)); cbn [bind] in H; [|discriminate].
  destruct (Column.DECIMAL_10_6 (ProofRow.proof_cost row)); cbn [bind] in H;
    [|discriminate].
  destruct (existsb _ (Db.proofs db)) eqn:E1; [discriminate|].
  destruct (existsb _ (Db.proofs db)) eqn:E2 in H; [discriminate|].
  destruct (existsb _ (Db.agents db)) eqn:E3; cbn [negb] in H; [|discriminate].
  destruct (existsb _ (Db.rules db)) eqn:E4; cbn [negb] in H; [|discriminate].
  destruct (_ || _) eqn:E5; [discriminate|].
  apply orb_false_iff in E5 as [E5 E6]. apply Z.ltb_ge in E5, E6.
  repeat split; try reflexivity; lia.
Qed.

Lemma existsb_key_present {A : Type} (key : A -> string) (k : string) (l : list A) :
  existsb (fun x => String.eqb (key x) k) l = true -> In k (map key l).
Proof.
  intros H. apply existsb_exists in H as (x & Hin & E).
  apply String.eqb_eq in E. subst k. apply in_map. exact Hin.
Qed.

Lemma update_agent_nonce_ids (db db' : Db.Database) (id : string) (rows : list Z) :
  Db.update_agent_nonce db id = Ok (rows, db') ->
  map AgentRow.id (Db.agents db') = map AgentRow.id (Db.agents db).
Proof.
  unfold Db.update_agent_nonce. intros H.
  destruct (existsb _ (Db.agents db)); [discriminate|].
  inversion H; subst; clear H. cbn [Db.agents].
  rewrite map_map. apply map_ext. intros a.
  destruct (String.eqb (AgentRow.id a) id); reflexivity.
Qed.

Lemma issue_consistent (keys : ProofGenerator.Keys) (env : Prove.Env)
    (req : Prove.Request) (body : Prove.ProveBody) (rule : RuleRow.t)
    (ruleEval : RuleEngine.RuleEvaluation) (db db' : Db.Database) (row : ProofRow.t) :
  Prove.issue keys env req body rule ruleEval db = Ok (row, db') ->
  consistent db -> consistent db'.
Proof.
  intros E (Hid & Hh & Hfk).
  destruct (issue_steps _ _ _ _ _ _ _ _ _ E)
    as (rows & db1 & nonce & generated & db2 & sent & cost
        & E1 & _ & _ & _ & _ & _ & E2 & E3).
  destruct (issue_effect _ _ _ _ _ _ _ _ _ E) as (Hrules & Hproofs & _ & _ & _ & _ & Hfresh).
  destruct (update_agent_nonce_effect _ _ _ _ E1) as (_ & R1 & P1 & _).
  destruct (insert_proof_effect _ _ _ _ E2) as (_ & _ & A2 & R2 & _).
  destruct (update_user_used_effect _ _ _ E3) as (A3 & R3 & _).
  destruct (insert_proof_keys _ _ _ _ E2) as (Kid & Kagent & Krule & _).
  pose proof (update_agent_nonce_ids _ _ _ _ E1) as Hagents.
  assert (Hagents' : map AgentRow.id (Db.agents db') = map AgentRow.id (Db.agents db))
    by (rewrite A3, A2; exact Hagents).
  unfold consistent. rewrite Hproofs, Hrules, Hagents', !map_app. cbn [map].
  split; [|split].
  - apply NoDup_snoc; [exact Hid|]. rewrite <- P1.
    apply (existsb_key_absent ProofRow.id). exact Kid.
  - apply NoDup_snoc; [exact Hh|].
    apply (existsb_key_absent ProofRow.proof_hash). exact Hfresh.
  - apply Forall_app. split; [exact Hfk|]. constructor; [|constructor]. split.
    + rewrite <- Hagents. apply (existsb_key_present AgentRow.id). exact Kagent.
    + rewrite <- R1. apply (existsb_key_present RuleRow.id). exact Krule.
Qed.

(** X18.  The handler keeps the tables consistent.  If the stored proofs
    have pairwise distinct identifiers and digests and belong to agents and
    rules that exist, the same holds after any sequence of requests,
    whatever they are and however they are answered. *)
Theorem serve_keeps_consistent (keys : ProofGenerator.Keys)
    (calls : list (Prove.Env * Prove.Request)) :
  forall db : Db.Database,
    consistent db -> consistent (snd (Prove.serve keys db calls)).
Proof.
  induction calls as [|[env req] rest IH]; intros db H; [exact H|].
  cbn [Prove.serve].
  destruct (Prove.prove keys db env req) as [reply db1] eqn:E.
  specialize (IH db1). destruct (Prove.serve keys db1 rest) as [replies db2].
  cbn [snd] in IH |- *. apply IH.
  destruct (prove_cases keys db env req) as [[_ Hs]|(body & rule & ruleEval & row & Hi & _)];
    rewrite E in *; cbn [snd] in *.
  - subst db1. exact H.
  - exact (issue_consistent _ _ _ _ _ _ _ _ _ Hi H).
Qed.

(** X19.  Over any sequence of requests the handler only appends to the
    proofs table: the rows of before are still there, unchanged and in
    place, one row has been added for each 201 reply and none for another
    reply, each request has its reply, and the rules table is the same. *)
Theorem serve_appends_one_row_per_created (keys : ProofGenerator.Keys)
    (calls : list (Prove.Env * Prove.Request)) :
  forall db : Db.Database,
    let replies := fst (Prove.serve keys db calls) in
    let after := snd (Prove.serve keys db calls) in
    List.length replies = List.length calls
    /\ Db.rules after = Db.rules db
    /\ exists added,
         Db.proofs after = (Db.proofs db ++ added)%list
         /\ List.length added = List.length (filter Prove.is_created replies).
Proof.
  induction calls as [|[env req] rest IH]; intros db.
  - cbn. repeat split. exists []. rewrite app_nil_r. split; reflexivity.
  - cbn [Prove.serve].
    destruct (Prove.prove keys db env req) as [reply db1] eqn:E.
    specialize (IH db1). destruct (Prove.serve keys db1 rest) as [replies db2].
    cbn [fst snd] in IH |- *. destruct IH as (Hlen & Hrules & added & Hadd & Hcount).
    cbn [List.length filter].
    destruct (prove_cases keys db env req)
      as [[Hc Hs]|(body & rule & ruleEval & row & Hi & Hc)];
      rewrite E in *; cbn [fst snd] in *; rewrite Hc.
    + subst db1. repeat split; [lia|exact Hrules|]. exists added. split; assumption.
    + destruct (issue_effect _ _ _ _ _ _ _ _ _ Hi) as (Hr & Hp & _).
      repeat split; [lia|congruence|]. exists (row :: added). split.
      * rewrite Hadd, Hp, <- app_assoc. reflexivity.
      * cbn [List.length]. lia.
Qed.

End ProveMore.

Section ProveMoreRuns.
#[local] Existing Instance Sample.IntegerNumbers.
#[local] Existing Instance Sample.SimpleCrypto.
Import Js.

Lemma prove_created_row_witness :
  exists pid ph verdict ev summary at_ row,
    fst (Prove.prove sample_keys (sample_db "starter" 0) (sample_env "p1" 1700000000123)
           (sample_request "starter" 0))
    = Prove.Created pid ph verdict ev summary "$0.0100" at_
    /\ Db.proofs (snd (Prove.prove sample_keys (sample_db "starter" 0)
                         (sample_env "p1" 1700000000123) (sample_request "starter" 0)))
       = [row]
    /\ ProofRow.proof_hash row = ph /\ ProofRow.nonce row = 1%Z
    /\ Column.DECIMAL_10_6 (999 # 100000) = Ok (ProofRow.proof_cost row).
Proof.
  destruct (fst (Prove.prove sample_keys (sample_db "starter" 0)
                   (sample_env "p1" 1700000000123) (sample_request "starter" 0)))
    as [status code error details|pid ph verdict ev summary cost at_] eqn:E;
    [vm_compute in E; discriminate|].
  assert (Ec : cost = "$0.0100") by (vm_compute in E; congruence).
  destruct (prove_created_row _ _ _ _ _ _ _ _ _ _ _ E)
    as (body & rule & row & _ & _ & _ & _ & _ & _ & Hp & _ & _ & _ & _ & _ & _ & Hc
        & _ & _ & _ & _ & _ & Hn & Hh & _).
  exists pid, ph, verdict, ev, summary, at_, row.
  split; [rewrite Ec; reflexivity|]. split; [exact Hp|]. split; [exact Hh|].
  split; [|exact Hc].
  assert (Hn' : Some 0%Z = Some (ProofRow.nonce row - 1)%Z) by exact Hn.
  inversion Hn'. lia.
Defined.

(** The cost of a proof for each tier: the millionths that the column
    stores and the text that the reply sends. *)
Lemma costs_of_tiers :
  map (fun tier =>
         match Column.DECIMAL_10_6 (Prove.costPerProof (UserRow.mk "u1" tier 0)) with
         | Ok stored => (tier, Qnum stored, Qden stored, "$" ++ Column.toFixed4 stored)
         | Throw m => (tier, 0%Z, 1%positive, m)
         end)
      (map fst Tiers.TIERS)
  = [ ("free", 0%Z, 1000000%positive, "$0.0000");
      ("starter", 9990%Z, 1000000%positive, "$0.0100");
      ("growth", 9900%Z, 1000000%positive, "$0.0099");
      ("enterprise", 100%Z, 1000000%positive, "$0.0001") ].
Proof. vm_compute. reflexivity. Qed.

(** A text that JSONB cannot hold is refused by the insertion, and the
    request is answered 500 with nothing stored: a string of the action
    data with the character U+0000, or with a lone surrogate. *)
Example prove_refused_by_column :
  let request := fun note =>
    {| Prove.parsed := Ok {| Prove.rule_id := "r1";
                             Prove.action_data := [("x", JNum (Some 3%Z));
                                                   ("note", JStr note)] |};
       Prove.agent := sample_agent;
       Prove.user := UserRow.mk "u1" "starter" 0 |} in
  let answer := fun note =>
    Prove.prove sample_keys (sample_db "starter" 0) (sample_env "p1" 1700000000123)
                (request note) in
  let nul := String (ascii_of_N 0) "" in
  let lone := String (ascii_of_N 237) (String (ascii_of_N 160)
                (String (ascii_of_N 128) "")) in
  Prove.is_created (fst (answer "fine")) = true
  /\ answer nul = (Prove.Error 500 "INTERNAL_ERROR" "Internal server error" [],
                   sample_db "starter" 0)
  /\ answer lone = (Prove.Error 500 "INTERNAL_ERROR" "Internal server error" [],
                    sample_db "starter" 0).
Proof. cbv zeta. repeat split; vm_compute; reflexivity. Qed.

(** A value of the action data that cannot be converted makes
    [evaluateRule] throw: the request is answered 500 and nothing is
    stored. *)
Example prove_evaluation_throws :
  let request :=
    {| Prove.parsed :=
         Ok {| Prove.rule_id := "r1";
               Prove.action_data :=
                 [("x", JArr [JObj [("toString", JNum (Some 1%Z))]])] |};
       Prove.agent := sample_agent;
       Prove.user := UserRow.mk "u1" "starter" 0 |} in
  Prove.prove sample_keys (sample_db "starter" 0) (sample_env "p1" 1700000000123)
              request
  = (Prove.Error 500 "INTERNAL_ERROR" "Internal server error" [],
     sample_db "starter" 0).
Proof. vm_compute. reflexivity. Qed.

Lemma serve_keeps_consistent_witness :
  consistent (sample_db "starter" 0)
  /\ consistent (snd (Prove.serve sample_keys (sample_db "starter" 0)
                        [(sample_env "p1" 1700000000123, sample_request "starter" 0);
                         (sample_env "p2" 1700000000456, sample_request "starter" 1)])).
Proof.
  assert (H : consistent (sample_db "starter" 0))
    by (repeat split; constructor).
  split; [exact H|].
  exact (serve_keeps_consistent sample_keys _ (sample_db "starter" 0) H).
Defined.

End ProveMoreRuns.

(** ** More about the Merkle root of the batch job *)

Section MerkleMore.
Context {C : Crypto}.

Lemma next_layer_head (x y : list byte) (rest next : list (list byte)) :
  BatchProofs.next_layer (x :: y :: rest) = Ok next ->
  exists bs more, next = keccak256 bs :: more
                  /\ BatchProofs.next_layer rest = Ok more.
Proof.
  cbn [BatchProofs.next_layer]. unfold BatchProofs.hash_pair.
  destruct (BatchProofs.Uint8Array_set _ _ 0) as [c1|]; cbn [bind]; [|discriminate].
  destruct (BatchProofs.Uint8Array_set c1 _ 32) as [combined|]; cbn [bind];
    [|discriminate].
  destruct (BatchProofs.next_layer rest) as [more|]; cbn [bind]; [|discriminate].
  intros H. inversion H. eauto.
Qed.

(** From a layer of two nodes or more the loop ends, when it ends, on one
    node that is a Keccak digest. *)
Lemma reduce_digest (n : nat) :
  forall layer final,
    List.length layer <= n -> 2 <= List.length layer ->
    BatchProofs.reduce layer = Ok final ->
    exists bs, final = [keccak256 bs].
Proof.
  induction n as [|n IH]; intros [|x [|y rest]] final Hn H2 H;
    cbn [List.length] in Hn, H2; try lia.
  rewrite reduce_step in H.
  destruct (BatchProofs.next_layer (x :: y :: rest)) as [next|] eqn:E;
    [|discriminate].
  pose proof (next_layer_length _ _ E) as Hl.
  destruct (next_layer_head _ _ _ _ E) as (bs & more & -> & _).
  destruct more as [|m more].
  - rewrite BatchProofs.reduce_equation_2 in H. inversion H. eauto.
  - apply (IH (keccak256 bs :: m :: more) final); [|cbn [List.length]; lia|exact H].
    rewrite Hl. cbn [List.length].
    pose proof (div2_S_lt (S (S (List.length rest)))) as Hd. lia.
Qed.

Lemma decode_leaves_throws (leaves : list string) (l m : string) :
  In l leaves -> Hex.hexToBytes (Hex.slice2 l) = Throw m ->
  exists m', BatchProofs.decode_leaves leaves = Throw m'.
Proof.
  induction leaves as [|x leaves IH]; intros Hin Hl; [destruct Hin|].
  cbn [BatchProofs.decode_leaves]. destruct Hin as [<-|Hin].
  - rewrite Hl. cbn [bind]. eauto.
  - destruct (Hex.hexToBytes (Hex.slice2 x)); cbn [bind]; [|eauto].
    destruct (IH Hin Hl) as (m' & ->). cbn [bind]. eauto.
Qed.

(** X20.  [computeMerkleRoot] treats one leaf and several leaves
    differently.  One leaf is returned as it is, whatever text it is.  Of
    two leaves or more each must decode as hexadecimal after its first two
    code units ([l.slice(2)]), whatever these two are, or the call throws;
    and a root that is returned is "0x" followed by the 64 lowercase
    hexadecimal digits of a Keccak digest. *)
Theorem computeMerkleRoot_root_format (leaves : list string) :
  (forall bs, List.length (keccak256 bs) = 32) ->
  (forall leaf, leaves = [leaf] -> BatchProofs.computeMerkleRoot leaves = Ok leaf)
  /\ (2 <= List.length leaves ->
      (forall l m, In l leaves -> Hex.hexToBytes (Hex.slice2 l) = Throw m ->
         exists m', BatchProofs.computeMerkleRoot leaves = Throw m')
      /\ (forall root, BatchProofs.computeMerkleRoot leaves = Ok root ->
            String.length root = 66
            /\ String.prefix "0x" root = true
            /\ lower_hex (Hex.slice2 root) = true
            /\ exists bs, Hex.hexToBytes (Hex.slice2 root) = Ok (keccak256 bs))).
Proof.
  intros Hlen. split; [intros leaf ->; reflexivity|].
  intros H2. destruct leaves as [|l1 [|l2 leaves]]; cbn [List.length] in H2; try lia.
  unfold BatchProofs.computeMerkleRoot. split.
  - intros l m Hin Hl. destruct (decode_leaves_throws _ _ _ Hin Hl) as (m' & ->).
    cbn [bind]. eauto.
  - intros root H.
    destruct (BatchProofs.decode_leaves (l1 :: l2 :: leaves)) as [layer|] eqn:D;
      cbn [bind] in H; [|discriminate].
    assert (Hl : 2 <= List.length layer).
    { cbn [BatchProofs.decode_leaves] in D.
      destruct (Hex.hexToBytes (Hex.slice2 l1)); cbn [bind] in D; [|discriminate].
      destruct (Hex.hexToBytes (Hex.slice2 l2)); cbn [bind] in D; [|discriminate].
      destruct (BatchProofs.decode_leaves leaves); cbn [bind] in D; [|discriminate].
      inversion D. cbn [List.length]. lia. }
    destruct (BatchProofs.reduce layer) as [final|] eqn:R; cbn [bind] in H;
      [|discriminate].
    destruct (reduce_digest _ layer final (le_n _) Hl R) as (bs & ->).
    inversion H; subst root; clear H.
    pose proof (slice2_0x (Hex.bytesToHex (keccak256 bs))) as Hs.
    cbn [append String.length String.prefix] in Hs |- *. rewrite Hs.
    rewrite bytesToHex_length, Hlen, bytesToHex_lower_hex, hexToBytes_bytesToHex.
    repeat split; [|eauto].
    destruct (ascii_dec "0" "0"); [|congruence].
    destruct (ascii_dec "x" "x"); [|congruence].
    destruct (Hex.bytesToHex _); reflexivity.
Qed.

End MerkleMore.

Section MerkleMoreRuns.
#[local] Existing Instance Sample.SimpleCrypto.

Lemma computeMerkleRoot_root_format_witness :
  (forall bs, List.length (keccak256 bs) = 32)
  /\ BatchProofs.computeMerkleRoot ["not a digest"] = Ok "not a digest"
  /\ exists m, BatchProofs.computeMerkleRoot ["not a digest"; "0x00"] = Throw m.
Proof.
  split; [exact SimpleCrypto_digest_length|]. split.
  - exact (proj1 (computeMerkleRoot_root_format ["not a digest"]
                    SimpleCrypto_digest_length) "not a digest" eq_refl).
  - vm_compute. eauto.
Defined.

(** The two code units that [slice(2)] drops need not be "0x" nor two
    bytes: the leaf made of the letter e with an acute accent, then x, a
    and b, is decoded as the byte ab, and a root is returned. *)
Lemma computeMerkleRoot_accented_leaf :
  let leaf := String (ascii_of_N 195) (String (ascii_of_N 169) "xab") in
  Js.length leaf = 4
  /\ Hex.hexToBytes (Hex.slice2 leaf) = Ok [xab]
  /\ exists root, BatchProofs.computeMerkleRoot [leaf; "0x00"] = Ok root.
Proof. repeat split. eexists. vm_compute. reflexivity. Qed.

End MerkleMoreRuns.

(** ** Keys: the generator script, the loaders and API keys *)

Section KeyFacts.
Context {N : NumberOps} {C : Crypto}.

Lemma bytesToHex_injective (a b : list byte) :
  Hex.bytesToHex a = Hex.bytesToHex b -> a = b.
Proof.
  intros E. pose proof (noble_hexToBytes_bytesToHex a) as Ha.
  rewrite E, noble_hexToBytes_bytesToHex in Ha. congruence.
Qed.

(** X21.  The keys that the generator script prints are keys that the
    service loads: from the printed [ECDSA_PRIVATE_KEY], [loadSigningKey]
    returns and leaves in [_privateKey], whatever it held, the bytes that
    the script drew, and from the printed [ENCRYPTION_KEY],
    [loadEncryptionKey] gets the 32 bytes of the AES key. *)
Theorem generated_keys_load (ecdsaPrivateKey aesKey : list byte)
    (printed : GenerateKeys.Printed) :
  List.length ecdsaPrivateKey = 32 -> List.length aesKey = 32 ->
  GenerateKeys.run ecdsaPrivateKey aesKey = Ok printed ->
  (forall old,
     ProofGenerator.loadSigningKey (Some (GenerateKeys.ECDSA_PRIVATE_KEY printed)) old
     = (Ok tt, Some ecdsaPrivateKey))
  /\ ProofGenerator.loadEncryptionKey (Some (GenerateKeys.ENCRYPTION_KEY printed))
     = Ok aesKey.
Proof.
  intros H1 H2. unfold GenerateKeys.run.
  destruct (secp256k1_getPublicKey ecdsaPrivateKey) as [pk|] eqn:E;
    cbn [of_option bind]; [|discriminate].
  intros H. inversion H; subst; clear H.
  cbn [GenerateKeys.ECDSA_PRIVATE_KEY GenerateKeys.ENCRYPTION_KEY]. split.
  - intros old. unfold ProofGenerator.loadSigningKey.
    destruct ecdsaPrivateKey as [|b key]; [discriminate|].
    destruct (Hex.bytesToHex (b :: key)) eqn:T; [discriminate|].
    rewrite <- T, hexToBytes_bytesToHex, E. reflexivity.
  - apply loadEncryptionKey_hex. exact H2.
Qed.

Section ApiKeys.
Variable sha256 : list byte -> list byte.

(** X22.  An API key made by [generateApiKey] from 32 random bytes is
    "sk_live_" followed by 64 lowercase hexadecimal digits, 72 characters
    in all; its stored hash is [hashApiKey] of that text; its display
    prefix is "sk_live_", the first four digits and "..."; and different
    random bytes give different keys. *)
Theorem generateApiKey_format (random_bytes : list byte) :
  List.length random_bytes = 32 ->
  let key := Auth.generateApiKey sha256 random_bytes in
  String.length (Auth.plaintext key) = 72
  /\ String.prefix "sk_live_" (Auth.plaintext key) = true
  /\ lower_hex (String.substring 8 64 (Auth.plaintext key)) = true
  /\ String.substring 8 64 (Auth.plaintext key) = Hex.bytesToHex random_bytes
  /\ Auth.hash key = Auth.hashApiKey sha256 (Auth.plaintext key)
  /\ Auth.prefix key
     = String.substring 0 12 (Auth.plaintext key) ++ "..."
  /\ (forall other, Auth.plaintext (Auth.generateApiKey sha256 other)
                    = Auth.plaintext key -> other = random_bytes).
Proof.
  intros Hlen key. unfold key, Auth.generateApiKey, Auth.API_KEY_PREFIX.
  cbn [Auth.plaintext Auth.hash Auth.prefix].
  assert (Hsub : forall s, String.length s = 64 ->
                           String.substring 8 64 ("sk_live_" ++ s) = s).
  { intros s Hs. cbn [append String.substring].
    replace 64 with (String.length s + 0) by lia.
    clear. induction s as [|c s IH]; [reflexivity|].
    cbn [String.length Nat.add String.substring]. f_equal. exact IH. }
  assert (H64 : String.length (Hex.bytesToHex random_bytes) = 64)
    by (rewrite bytesToHex_length, Hlen; reflexivity).
  rewrite (Hsub _ H64), bytesToHex_lower_hex.
  repeat split.
  - cbn [append String.length]. rewrite H64. reflexivity.
  - cbn [append String.prefix].
    repeat match goal with
           | |- context [ascii_dec ?a ?a] =>
               destruct (ascii_dec a a); [|congruence]
           end.
    destruct (Hex.bytesToHex random_bytes); reflexivity.
  - intros other E. cbn [append] in E.
    inversion E as [E']. apply bytesToHex_injective. exact E'.
Qed.

End ApiKeys.
End KeyFacts.

Section KeyRuns.
#[local] Existing Instance Sample.IntegerNumbers.
#[local] Existing Instance Sample.SimpleCrypto.

Lemma generated_keys_load_witness :
  List.length (repeat x01 32) = 32 /\ List.length (repeat x02 32) = 32
  /\ exists printed,
       GenerateKeys.run (repeat x01 32) (repeat x02 32) = Ok printed
       /\ ProofGenerator.loadSigningKey
            (Some (GenerateKeys.ECDSA_PRIVATE_KEY printed)) None
          = (Ok tt, Some (repeat x01 32)).
Proof.
  split; [reflexivity|]. split; [reflexivity|].
  destruct (GenerateKeys.run (repeat x01 32) (repeat x02 32)) as [printed|m] eqn:E;
    [|vm_compute in E; discriminate].
  exists printed. split; [reflexivity|].
  exact (proj1 (generated_keys_load (repeat x01 32) (repeat x02 32) printed
                  eq_refl eq_refl E) None).
Defined.

Lemma generateApiKey_format_witness :
  List.length (repeat x5a 32) = 32
  /\ String.length (Auth.plaintext (Auth.generateApiKey Sample.digest32 (repeat x5a 32)))
     = 72.
Proof.
  split; [reflexivity|].
  exact (proj1 (generateApiKey_format Sample.digest32 (repeat x5a 32) eq_refl)).
Defined.

End KeyRuns.

(** ** The route behind its API key hook *)

Section RouteFacts.
Context {N : NumberOps} {C : Crypto}.
Variable sha256 : list byte -> list byte.
Variable api_key_hash : string -> string.

Lemma slice_append (a b : string) : Middleware.slice (String.length a) (a ++ b) = b.
Proof. induction a as [|c a IH]; [destruct b; reflexivity|exact IH]. Qed.

Lemma prefix_append (a b : string) : String.prefix a (a ++ b) = true.
Proof.
  induction a as [|c a IH]; [destruct b; reflexivity|].
  cbn [append String.prefix]. destruct (ascii_dec c c); [exact IH|congruence].
Qed.

(** What the hook attaches is read from the tables: an active agent, and
    the user that owns it. *)
Lemma requireApiKey_attached (db : Db.Database) (authorization : option string)
    (agent : AgentRow.t) (user : UserRow.t) :
  Middleware.requireApiKey sha256 api_key_hash db authorization = inr (agent, user) ->
  In agent (Db.agents db) /\ AgentRow.status agent = "active"
  /\ In user (Db.users db) /\ UserRow.id user = AgentRow.user_id agent.
Proof.
  unfold Middleware.requireApiKey. intros H.
  destruct authorization as [auth|]; [|discriminate].
  destruct (negb (String.prefix "Bearer " auth)); [discriminate|].
  destruct (negb (String.prefix "sk_live_" _)); [discriminate|].
  destruct (find _ (Db.agents db)) as [a|] eqn:Ea; [|discriminate].
  destruct (String.eqb (AgentRow.status a) "active") eqn:Es; cbn [negb] in H;
    [|discriminate].
  destruct (find _ (Db.users db)) as [u|] eqn:Eu; [|discriminate].
  inversion H; subst a u; clear H.
  apply find_some in Ea as [Ha _]. apply find_some in Eu as [Hu Hid].
  apply String.eqb_eq in Es, Hid. auto.
Qed.

(** X23.  A key made by [generateApiKey] opens the route for the agent
    that stores its hash: when, looking the hash up, the agents table gives
    an active agent whose user exists, [requireApiKey] lets the request
    "Bearer <key>" through and attaches this agent and this user. *)
Theorem generated_key_authenticates (db : Db.Database) (random_bytes : list byte)
    (agent : AgentRow.t) (user : UserRow.t) :
  let key := Auth.generateApiKey sha256 random_bytes in
  find (fun a => String.eqb (api_key_hash (AgentRow.id a)) (Auth.hash key))
       (Db.agents db) = Some agent ->
  AgentRow.status agent = "active" ->
  find (fun u => String.eqb (UserRow.id u) (AgentRow.user_id agent)) (Db.users db)
  = Some user ->
  Middleware.requireApiKey sha256 api_key_hash db
    (Some ("Bearer " ++ Auth.plaintext key))
  = inr (agent, user).
Proof.
  intros key Ha Hs Hu. unfold Middleware.requireApiKey.
  rewrite (prefix_append "Bearer " (Auth.plaintext key)). cbn [negb].
  change 7 with (String.length "Bearer ").
  rewrite (slice_append "Bearer " (Auth.plaintext key)).
  unfold key, Auth.generateApiKey, Auth.API_KEY_PREFIX in *.
  cbn [Auth.plaintext Auth.hash] in *.
  rewrite (prefix_append "sk_live_" (Hex.bytesToHex random_bytes)). cbn [negb].
  rewrite Ha. apply String.eqb_eq in Hs. rewrite Hs. cbn [negb].
  rewrite Hu. reflexivity.
Qed.

(** A 201 reply was not refused for quota. *)
Lemma prove_created_quota (keys : ProofGenerator.Keys) (db : Db.Database)
    (env : Prove.Env) (req : Prove.Request) :
  Prove.is_created (fst (Prove.prove keys db env req)) = true ->
  UserRow.tier (Prove.user req) = "free" ->
  (UserRow.used_proofs_this_month (Prove.user req) < 10)%Z.
Proof.
  unfold Prove.prove. intros H Hfree.
  destruct (Prove.parsed req) as [body|]; [|discriminate].
  rewrite Hfree in H. destruct TIERS_free as (tier & Ht & Hl).
  rewrite Ht, Hl in H. cbn [String.eqb Ascii.eqb Bool.eqb andb] in H.
  destruct (10 <=? UserRow.used_proofs_this_month (Prove.user req))%Z eqn:E;
    [discriminate|].
  apply Z.leb_gt in E. exact E.
Qed.

Lemma same_key_same_row {A : Type} (key : A -> string) (l : list A) (a b : A) :
  NoDup (map key l) -> In a l -> In b l -> key a = key b -> a = b.
Proof.
  induction l as [|x l IH]; intros Hnd Ha Hb E; [destruct Ha|].
  cbn [map] in Hnd. inversion Hnd as [|? ? Hnot Hnd']; subst.
  destruct Ha as [<-|Ha], Hb as [<-|Hb]; auto.
  - exfalso. apply Hnot. rewrite E. apply in_map. exact Hb.
  - exfalso. apply Hnot. rewrite <- E. apply in_map. exact Ha.
Qed.

Lemma update_user_used_rows (db db' : Db.Database) (id : string) :
  Db.update_user_used db id = Ok db' ->
  Db.users db'
  = map (fun u => if String.eqb (UserRow.id u) id then Db.bump_used u else u)
        (Db.users db).
Proof.
  unfold Db.update_user_used. intros H.
  destruct (existsb _ (Db.users db)); [discriminate|].
  inversion H. reflexivity.
Qed.

Lemma issue_within_free_quota (keys : ProofGenerator.Keys) (env : Prove.Env)
    (req : Prove.Request) (body : Prove.ProveBody) (rule : RuleRow.t)
    (ruleEval : RuleEngine.RuleEvaluation) (db db' : Db.Database) (row : ProofRow.t) :
  Prove.issue keys env req body rule ruleEval db = Ok (row, db') ->
  In (Prove.user req) (Db.users db) ->
  (UserRow.tier (Prove.user req) = "free" ->
   (UserRow.used_proofs_this_month (Prove.user req) < 10)%Z) ->
  within_free_quota db -> within_free_quota db'.
Proof.
  intros E Hin Hroom (Hnd & Hq).
  destruct (issue_steps _ _ _ _ _ _ _ _ _ E)
    as (rows & db1 & nonce & generated & db2 & sent & cost
        & E1 & _ & _ & _ & _ & _ & E2 & E3).
  destruct (update_agent_nonce_effect _ _ _ _ E1) as (U1 & _).
  destruct (insert_proof_effect _ _ _ _ E2) as (_ & U2 & _).
  pose proof (update_user_used_rows _ _ _ E3) as U3.
  rewrite U2, U1 in U3. unfold within_free_quota. rewrite U3. split.
  - rewrite map_map.
    erewrite map_ext; [exact Hnd|]. intros u. cbn beta.
    destruct (String.eqb (UserRow.id u) _); reflexivity.
  - apply Forall_forall. intros u' Hu'. apply in_map_iff in Hu' as (u & <- & Hu).
    rewrite Forall_forall in Hq.
    destruct (String.eqb (UserRow.id u) (UserRow.id (Prove.user req))) eqn:Eid.
    + apply String.eqb_eq in Eid.
      assert (u = Prove.user req) as ->
        by (apply (same_key_same_row UserRow.id (Db.users db)); assumption).
      cbn [Db.bump_used UserRow.tier UserRow.used_proofs_this_month].
      intros Hfree. specialize (Hroom Hfree). lia.
    + apply Hq. exact Hu.
Qed.

(** X24.  Served one after the other behind the API key hook, requests
    never take a free-tier user beyond the free quota: if users have
    distinct identifiers and no free-tier user is counted more than 10
    proofs, this still holds after any sequence of requests, whoever sends
    them and whatever they ask. *)
Theorem handle_all_within_free_quota (keys : ProofGenerator.Keys)
    (calls : list ProveRoute.Call) :
  forall db : Db.Database,
    within_free_quota db ->
    within_free_quota (snd (ProveRoute.handle_all sha256 api_key_hash keys db calls)).
Proof.
  induction calls as [|call rest IH]; intros db H; [exact H|].
  cbn [ProveRoute.handle_all].
  destruct (ProveRoute.handle sha256 api_key_hash keys db call) as [reply db1] eqn:E.
  specialize (IH db1).
  destruct (ProveRoute.handle_all sha256 api_key_hash keys db1 rest) as [replies db2].
  cbn [snd] in IH |- *. apply IH. clear IH.
  unfold ProveRoute.handle in E.
  destruct (Middleware.requireApiKey sha256 api_key_hash db _)
    as [refused|[agent user]] eqn:R.
  - inversion E; subst. exact H.
  - destruct (requireApiKey_attached _ _ _ _ R) as (_ & _ & Hin & _).
    set (req := {| Prove.parsed := ProveRoute.body call; Prove.agent := agent;
                   Prove.user := user |}) in *.
    destruct (prove_cases keys db (ProveRoute.env call) req)
      as [[_ Hs]|(body & rule & ruleEval & row & Hi & Hc)];
      rewrite E in *; cbn [fst snd] in *.
    + subst db1. exact H.
    + apply (issue_within_free_quota _ _ _ _ _ _ _ _ _ Hi); [exact Hin| |exact H].
      intros Hfree. apply (prove_created_quota keys db (ProveRoute.env call) req).
      * rewrite E. exact Hc.
      * exact Hfree.
Qed.

End RouteFacts.

Section RouteRuns.
#[local] Existing Instance Sample.IntegerNumbers.
#[local] Existing Instance Sample.SimpleCrypto.

Lemma generated_key_authenticates_witness :
  let key := Auth.generateApiKey Sample.digest32 (repeat x5a 32) in
  let db := sample_db "free" 9 in
  find (fun a => String.eqb ((fun _ => Auth.hash key) (AgentRow.id a)) (Auth.hash key))
       (Db.agents db) = Some sample_agent
  /\ AgentRow.status sample_agent = "active"
  /\ find (fun u => String.eqb (UserRow.id u) (AgentRow.user_id sample_agent))
          (Db.users db) = Some (UserRow.mk "u1" "free" 9)
  /\ Middleware.requireApiKey Sample.digest32 (fun _ => Auth.hash key) db
       (Some ("Bearer " ++ Auth.plaintext key))
     = inr (sample_agent, UserRow.mk "u1" "free" 9).
Proof.
  intros key db.
  assert (Ha : find (fun a => String.eqb ((fun _ => Auth.hash key) (AgentRow.id a))
                                         (Auth.hash key))
                    (Db.agents db) = Some sample_agent)
    by (vm_compute; reflexivity).
  assert (Hs : AgentRow.status sample_agent = "active") by reflexivity.
  assert (Hu : find (fun u => String.eqb (UserRow.id u) (AgentRow.user_id sample_agent))
                    (Db.users db) = Some (UserRow.mk "u1" "free" 9))
    by reflexivity.
  split; [exact Ha|]. split; [exact Hs|]. split; [exact Hu|].
  exact (generated_key_authenticates Sample.digest32 (fun _ => Auth.hash key) db
           (repeat x5a 32) sample_agent (UserRow.mk "u1" "free" 9) Ha Hs Hu).
Defined.

Lemma handle_all_within_free_quota_witness :
  let key := Auth.generateApiKey Sample.digest32 (repeat x5a 32) in
  let call := fun uuid =>
    {| ProveRoute.env := sample_env uuid 1700000000123;
       ProveRoute.authorization := Some ("Bearer " ++ Auth.plaintext key);
       ProveRoute.body := Prove.parsed (sample_request "free" 9) |} in
  within_free_quota (sample_db "free" 9)
  /\ within_free_quota
       (snd (ProveRoute.handle_all Sample.digest32 (fun _ => Auth.hash key) sample_keys
               (sample_db "free" 9) [call "p1"; call "p2"]))
  /\ map Prove.is_created
       (fst (ProveRoute.handle_all Sample.digest32 (fun _ => Auth.hash key) sample_keys
               (sample_db "free" 9) [call "p1"; call "p2"]))
     = [true; false].
Proof.
  intros key call.
  assert (H : within_free_quota (sample_db "free" 9)).
  { split; [repeat constructor; intros []|].
    repeat constructor. cbn. intros _. lia. }
  split; [exact H|]. split.
  - exact (handle_all_within_free_quota Sample.digest32 (fun _ => Auth.hash key)
             sample_keys [call "p1"; call "p2"] (sample_db "free" 9) H).
  - vm_compute. reflexivity.
Defined.

End RouteRuns.
